(** * Bio.bgzf: the BGZF block codec, virtual offsets, reader and writer

    A shallow embedding of [Bio/bgzf.py] and the properties of it that the
    specification states.

    - Python integers are [Z] and byte strings are [list byte] (the module
      is Python 2 code: [str] is a byte string, [_as_bytes] and
      [_as_string] are the identity).
    - Exceptions are the values of [exn].  A pure function returns a
      [result]; a method of a mutable object is a function from the state
      of the object to an [outcome], which carries the state reached,
      whether the method returned or raised.  [assert] statements are
      executed.
    - A file handle is its content, a position and a closed flag; a file
      system maps names to contents.
    - [zlib] is an external library: it is a class [Zlib] with the laws
      the code relies on, [ZlibLaws], and one instance, [StoredZlib], that
      stores blocks as zlib does at compression level 0.
    - [struct.pack] raises [struct.error] on a value out of range, as the
      documentation of [struct] says.
    - Loops and the recursion of [read] are structural on a bound computed
      from the state ("fuel"); running out of it is the exception
      [RecursionLimit], which [fuel_is_enough] shows never raised.

    Modelled: [open], [make_virtual_offset], [split_virtual_offset],
    [BgzfBlocks], [_load_bgzf_block]; of [BgzfReader], [__init__],
    [_load_block], [tell], [seek], [read], [readline], [next], [__iter__]
    and the loop over a reader; all of [BgzfWriter]; the command-line
    driver, in [Main].  Not modelled: the reader's [close], which sets
    [_buffer], [_block_start_offset] and [_buffers] to [None], values the
    record of the reader's state does not have. *)

From Stdlib Require Import ZArith Lia Strings.Byte Strings.Ascii.
From stdpp Require Import base numbers option list gmap strings.

Local Open Scope Z_scope.

(** ** Python values and exceptions *)

Inductive exn : Set :=
  | StopIteration
  | ValueError
  | AssertionError
  | StructError
  | ZlibError
  | IOError
  | NotImplementedError
  | AttributeError
  | TypeError
  | KeyError
  | RecursionLimit.

(** The result of a pure function that may raise. *)
Inductive result (A : Type) : Type :=
  | Returns (a : A)
  | Raises (e : exn).
Arguments Returns {A} a.
Arguments Raises {A} e.

Abbreviation bytes := (list byte).

(** [len(x)] as a Python integer. *)
Definition len {A} (l : list A) : Z := Z.of_nat (length l).

(** ** Virtual offsets *)

Module VirtualOffset.

Definition make_virtual_offset (block_start_offset within_block_offset : Z)
  : result Z :=
  if (within_block_offset <? 0) || (within_block_offset >=? 65536) then
    Raises ValueError
  else if (block_start_offset <? 0)
          || (block_start_offset >=? 281474976710656) then
    Raises ValueError
  else
    Returns (Z.lor (Z.shiftl block_start_offset 16) within_block_offset).

Definition split_virtual_offset (virtual_offset : Z) : Z * Z :=
  let start := Z.shiftr virtual_offset 16 in
  (start, Z.lxor virtual_offset (Z.shiftl start 16)).

End VirtualOffset.
Export VirtualOffset.

(** ** Methods of mutable objects: state and exceptions *)

(** A method runs on the state [S] of its object and either returns a value
    or raises; both outcomes carry the state reached, so that what was
    mutated before an exception stays visible. *)
Inductive outcome (S A : Type) : Type :=
  | Ok (a : A) (s : S)
  | Raise (e : exn) (s : S).
Arguments Ok {S A} a s.
Arguments Raise {S A} e s.

Definition M (S A : Type) : Type := S -> outcome S A.

Definition ret {S A} (a : A) : M S A := fun s => Ok a s.
Definition raise {S A} (e : exn) : M S A := fun s => Raise e s.
Definition bind {S A B} (k : A -> M S B) (m : M S A) : M S B :=
  fun s => match m s with
           | Ok a s' => k a s'
           | Raise e s' => Raise e s'
           end.

#[global] Instance M_ret {S} : MRet (M S) := @ret S.
#[global] Instance M_bind {S} : MBind (M S) := @bind S.

Definition get {S} : M S S := fun s => Ok s s.
Definition modify {S} (f : S -> S) : M S unit := fun s => Ok tt (f s).

(** [assert b]. *)
Definition assert_ {S} (b : bool) : M S unit :=
  if b then ret tt else raise AssertionError.

(** A pure computation that may raise, run inside a method. *)
Definition lift {S A} (r : result A) : M S A :=
  match r with
  | Returns a => ret a
  | Raises e => raise e
  end.

(** [bytes[a:b]] and [bytes[a:]] for indices that are not negative. *)
Definition slice {A} (l : list A) (a b : Z) : list A :=
  take (Z.to_nat b - Z.to_nat a) (drop (Z.to_nat a) l).
Definition slice_from {A} (l : list A) (a : Z) : list A :=
  drop (Z.to_nat a) l.

#[global] Instance byte_eq_dec : EqDecision byte := Byte.byte_eq_dec.

Definition bytes_eqb (a b : bytes) : bool :=
  bool_decide (a = b).

(** [s.find(sub, start)] for a [start] that is not negative: the least
    index from [start] on at which [sub] occurs in [s], and [-1] when
    there is none.  [find_at sub s i] looks in [s], which starts at index
    [i] of the whole string. *)
Fixpoint find_at (sub s : bytes) (i : Z) : Z :=
  if bytes_eqb (take (length sub) s) sub then i
  else match s with
       | [] => -1
       | _ :: s' => find_at sub s' (i + 1)
       end.

Definition bytes_find (s sub : bytes) (start : Z) : Z :=
  if len s <? start then -1 else find_at sub (slice_from s start) start.

(** ** The [struct] module: little-endian fixed-width integers *)

Module struct.

Definition byte_of_Z (z : Z) : byte :=
  default x00 (Byte.of_N (Z.to_N z)).
Definition Z_of_byte (b : byte) : Z := Z.of_N (Byte.to_N b).

Fixpoint le_bytes (n : nat) (v : Z) : bytes :=
  match n with
  | O => []
  | S n' => byte_of_Z (v mod 256) :: le_bytes n' (v / 256)
  end.

Fixpoint le_value (b : bytes) : Z :=
  match b with
  | [] => 0
  | x :: b' => Z_of_byte x + 256 * le_value b'
  end.

(** [struct.pack("<H", v)]: an out-of-range value is a [struct.error]. *)
Definition pack_H (v : Z) : result bytes :=
  if (0 <=? v) && (v <=? 65535) then Returns (le_bytes 2 v)
  else Raises StructError.

(** [struct.pack("<I", v)]. *)
Definition pack_I (v : Z) : result bytes :=
  if (0 <=? v) && (v <=? 4294967295) then Returns (le_bytes 4 v)
  else Raises StructError.

(** [struct.pack("<i", v)]: two's complement. *)
Definition pack_i (v : Z) : result bytes :=
  if (-2147483648 <=? v) && (v <=? 2147483647) then
    Returns (le_bytes 4 (v mod 4294967296))
  else Raises StructError.

(** [struct.unpack("<H", b)[0]]: a string of the wrong length is a
    [struct.error]. *)
Definition unpack_H (b : bytes) : result Z :=
  if bool_decide (length b = 2%nat) then Returns (le_value b)
  else Raises StructError.

(** [struct.unpack("<I", b)[0]]. *)
Definition unpack_I (b : bytes) : result Z :=
  if bool_decide (length b = 4%nat) then Returns (le_value b)
  else Raises StructError.

End struct.

(** ** The [zlib] module

    zlib is an external library.  [compress level b] stands for
    [c.compress(b) + c.flush()] on
    [c = zlib.compressobj(level, zlib.DEFLATED, -15, zlib.DEF_MEM_LEVEL, 0)],
    [decompress b] for [d.decompress(b) + d.flush()] on
    [d = zlib.decompressobj(-15)], and [crc32] for [zlib.crc32]. *)
Class Zlib : Type := {
  compress : Z -> bytes -> result bytes;
  decompress : bytes -> result bytes;
  crc32 : bytes -> Z
}.

(** What the code relies on: inflating a raw DEFLATE stream gives back what
    was deflated, the two bytes [03 00] are the empty stream, a CRC-32 is a
    32-bit value, signed or unsigned depending on the platform, and the
    only exception zlib raises is [zlib.error]. *)
Class ZlibLaws (z : Zlib) : Prop := {
  decompress_compress :
    forall level b c, compress level b = Returns c -> decompress c = Returns b;
  decompress_empty_fixed : decompress [x03; x00] = Returns [];
  crc32_range : forall b, -2147483648 <= crc32 b <= 4294967295;
  crc32_empty : crc32 [] = 0;
  compress_raises :
    forall level b e, compress level b = Raises e -> e = ZlibError;
  decompress_raises : forall b e, decompress b = Raises e -> e = ZlibError
}.

(** ** Binary file handles *)

Module File.

Record file : Type := {
  content : bytes;
  position : Z;
  closed : bool;
  mode : string
}.

Definition set_position (p : Z) (h : file) : file :=
  {| content := content h; position := p;
     closed := closed h; mode := mode h |}.

Definition set_content (c : bytes) (h : file) : file :=
  {| content := c; position := position h;
     closed := closed h; mode := mode h |}.

Definition set_closed (b : bool) (h : file) : file :=
  {| content := content h; position := position h;
     closed := b; mode := mode h |}.

(** [handle.read(n)]: up to [n] bytes from the current position, all the
    rest when [n] is negative. *)
Definition read (n : Z) : M file bytes := fun h =>
  if closed h then Raise ValueError h
  else
    let rest := drop (Z.to_nat (position h)) (content h) in
    let data := if n <? 0 then rest else take (Z.to_nat n) rest in
    Ok data (set_position (position h + len data) h).

Definition seek (p : Z) : M file unit := fun h =>
  if closed h then Raise ValueError h
  else if p <? 0 then Raise IOError h
  else Ok tt (set_position p h).

Definition tell : M file Z := fun h =>
  if closed h then Raise ValueError h
  else Ok (position h) h.

(** [handle.write(data)]: the bytes replace what is at the current
    position, a gap past the end of the file is filled with zeros. *)
Definition write (data : bytes) : M file unit := fun h =>
  if closed h then Raise ValueError h
  else
    let p := Z.to_nat (position h) in
    let c := content h in
    Ok tt (set_position (position h + len data)
             (set_content (take p c ++ replicate (p - length c) x00
                           ++ data ++ drop (p + length data) c) h)).

Definition flush : M file unit := fun h =>
  if closed h then Raise ValueError h else Ok tt h.

Definition close : M file unit := fun h => Ok tt (set_closed true h).

(** [__builtin__.open(filename, "rb")] on a file system that maps names
    to contents. *)
Definition open_rb (fs : gmap string bytes) (filename : string)
  : result file :=
  match fs !! filename with
  | Some c => Returns {| content := c; position := 0;
                         closed := false; mode := "rb" |}
  | None => Raises IOError
  end.

(** [__builtin__.open(filename, "wb")]: a new, empty file. *)
Definition open_wb (fs : gmap string bytes) (filename : string)
  : result file :=
  Returns {| content := []; position := 0; closed := false; mode := "wb" |}.

(** [__builtin__.open(filename, "ab")]: positioned at the end. *)
Definition open_ab (fs : gmap string bytes) (filename : string)
  : result file :=
  let c := default [] (fs !! filename) in
  Returns {| content := c; position := len c;
             closed := false; mode := "ab" |}.

End File.
Export File(file, content, position, closed, mode).

(** ** Module constants *)

Definition _bgzf_magic : bytes := [x1f; x8b; x08; x04].
Definition _bgzf_header : bytes :=
  [x1f; x8b; x08; x04; x00; x00; x00; x00;
   x00; xff; x06; x00; x42; x43; x02; x00].
Definition _bgzf_eof : bytes :=
  [x1f; x8b; x08; x04; x00; x00; x00; x00; x00; xff; x06; x00; x42; x43;
   x02; x00; x1b; x00; x03; x00; x00; x00; x00; x00; x00; x00; x00; x00].
Definition _bytes_BC : bytes := [x42; x43].
Definition _empty_bytes_string : bytes := [].
Definition _bytes_newline : bytes := [x0a].

(** [_as_string] and [_as_bytes] of [Bio._py3k]: the identity on the byte
    strings of Python 2. *)
Definition _as_string (b : bytes) : bytes := b.
Definition _as_bytes (b : bytes) : bytes := b.

(** ** The block decoder *)

Section Decoder.

Context {zlib : Zlib}.

(** The loop over the subfields of the extra area;
    [fuel] bounds the number of iterations. *)
Fixpoint subfields (fuel : nat) (extra_len x_len : Z)
    (block_size : option Z) : M file (Z * option Z) :=
  if x_len <? extra_len then
    match fuel with
    | O => raise RecursionLimit
    | S fuel' =>
        subfield_id ← File.read 2;
        b ← File.read 2;
        subfield_len ← lift (struct.unpack_H b);
        subfield_data ← File.read subfield_len;
        let x_len := x_len + (subfield_len + 4) in
        if bytes_eqb subfield_id _bytes_BC then
          assert_ (subfield_len =? 2);;
          assert_ (bool_decide (block_size = None));;
          v ← lift (struct.unpack_H subfield_data);
          subfields fuel' extra_len x_len (Some (v + 1))
        else
          subfields fuel' extra_len x_len block_size
    end
  else ret (x_len, block_size).

Definition _load_bgzf_block (text_mode : bool) : M file (Z * bytes) :=
  magic ← File.read 4;
  if bool_decide (magic = []) then raise StopIteration
  else if negb (bytes_eqb magic _bgzf_magic) then raise ValueError
  else
    gzip_mod_time ← File.read 4;
    gzip_extra_flags ← File.read 1;
    gzip_os ← File.read 1;
    b ← File.read 2;
    extra_len ← lift (struct.unpack_H b);
    '(x_len, block_size) ← subfields (Z.to_nat extra_len) extra_len 0 None;
    assert_ (x_len =? extra_len);;
    match block_size with
    | None => raise AssertionError
    | Some block_size =>
        let deflate_size := block_size - 1 - extra_len - 19 in
        raw ← File.read deflate_size;
        data ← lift (decompress raw);
        expected_crc ← File.read 4;
        b ← File.read 4;
        expected_size ← lift (struct.unpack_I b);
        assert_ (expected_size =? len data);;
        let crc := crc32 data in
        crc ← lift (if crc <? 0 then struct.pack_i crc
                    else struct.pack_I crc);
        assert_ (bytes_eqb expected_crc crc);;
        if text_mode then ret (block_size, _as_string data)
        else ret (block_size, data)
    end.

(** The loop of [BgzfBlocks]: blocks are decoded one after the other
    until [StopIteration]; each comes with the offset it started at. *)
Fixpoint load_blocks (fuel : nat) : M file (list (Z * Z * bytes)) :=
  fun h =>
    match File.tell h with
    | Raise e h' => Raise e h'
    | Ok start_offset h' =>
        match _load_bgzf_block false h' with
        | Raise StopIteration h'' => Ok [] h''
        | Raise e h'' => Raise e h''
        | Ok (block_length, data) h'' =>
            match fuel with
            | O => Raise RecursionLimit h''
            | S fuel' =>
                (rest ← load_blocks fuel';
                 ret ((start_offset, block_length, data) :: rest)) h''
            end
        end
    end.

(** The tuples [BgzfBlocks] yields. *)
Fixpoint block_tuples (data_start : Z) (bs : list (Z * Z * bytes))
  : list (Z * Z * Z * Z) :=
  match bs with
  | [] => []
  | (start_offset, block_length, data) :: bs' =>
      (start_offset, block_length, data_start, len data)
        :: block_tuples (data_start + len data) bs'
  end.

Definition BgzfBlocks : M file (list (Z * Z * Z * Z)) :=
  fun h => (bs ← load_blocks (S (length (content h)));
            ret (block_tuples 0 bs)) h.

End Decoder.

(** ** Mode strings *)

Module Str.

Definition lower_ascii (c : ascii) : ascii :=
  let n := N_of_ascii c in
  if ((65 <=? n) && (n <=? 90))%N then ascii_of_N (n + 32) else c.

(** [s.lower()]. *)
Fixpoint lower (s : string) : string :=
  match s with
  | EmptyString => EmptyString
  | String c s' => String (lower_ascii c) (lower s')
  end.

(** [c in s] for a string [c] of one character. *)
Fixpoint contains (c : ascii) (s : string) : bool :=
  match s with
  | EmptyString => false
  | String c' s' => Ascii.eqb c c' || contains c s'
  end.

End Str.

(** ** BgzfReader *)

Module BgzfReader.

(** The attributes of a reader.  [_block_start_offset] and
    [_block_raw_length] are [None] until the first block is loaded;
    [_buffer] and [_within_block_offset], which do not exist until then,
    start as the empty string and [0]. *)
Record t : Type := {
  _text : bool;
  _newline : bytes;
  _handle : file;
  max_cache : Z;
  _buffers : gmap Z (bytes * Z);
  _block_start_offset : option Z;
  _block_raw_length : option Z;
  _buffer : bytes;
  _within_block_offset : Z
}.

Definition set_handle (h : file) (r : t) : t :=
  {| _text := _text r; _newline := _newline r; _handle := h;
     max_cache := max_cache r; _buffers := _buffers r;
     _block_start_offset := _block_start_offset r;
     _block_raw_length := _block_raw_length r; _buffer := _buffer r;
     _within_block_offset := _within_block_offset r |}.

Definition set_buffers (m : gmap Z (bytes * Z)) (r : t) : t :=
  {| _text := _text r; _newline := _newline r; _handle := _handle r;
     max_cache := max_cache r; _buffers := m;
     _block_start_offset := _block_start_offset r;
     _block_raw_length := _block_raw_length r; _buffer := _buffer r;
     _within_block_offset := _within_block_offset r |}.

Definition set_block_start_offset (o : option Z) (r : t) : t :=
  {| _text := _text r; _newline := _newline r; _handle := _handle r;
     max_cache := max_cache r; _buffers := _buffers r;
     _block_start_offset := o;
     _block_raw_length := _block_raw_length r; _buffer := _buffer r;
     _within_block_offset := _within_block_offset r |}.

Definition set_block_raw_length (o : option Z) (r : t) : t :=
  {| _text := _text r; _newline := _newline r; _handle := _handle r;
     max_cache := max_cache r; _buffers := _buffers r;
     _block_start_offset := _block_start_offset r;
     _block_raw_length := o; _buffer := _buffer r;
     _within_block_offset := _within_block_offset r |}.

Definition set_buffer (b : bytes) (r : t) : t :=
  {| _text := _text r; _newline := _newline r; _handle := _handle r;
     max_cache := max_cache r; _buffers := _buffers r;
     _block_start_offset := _block_start_offset r;
     _block_raw_length := _block_raw_length r; _buffer := b;
     _within_block_offset := _within_block_offset r |}.

Definition set_within_block_offset (w : Z) (r : t) : t :=
  {| _text := _text r; _newline := _newline r; _handle := _handle r;
     max_cache := max_cache r; _buffers := _buffers r;
     _block_start_offset := _block_start_offset r;
     _block_raw_length := _block_raw_length r; _buffer := _buffer r;
     _within_block_offset := w |}.

(** A method of [self._handle] called from a method of the reader. *)
Definition on_handle {A} (m : M file A) : M t A := fun r =>
  match m (_handle r) with
  | Ok a h => Ok a (set_handle h r)
  | Raise e h => Raise e (set_handle h r)
  end.

(** [self._buffers.popitem()]: some entry is removed, here the first of
    [map_to_list]. *)
Definition popitem : M t unit := fun r =>
  match map_to_list (_buffers r) with
  | [] => Raise KeyError r
  | (k, _) :: _ => Ok tt (set_buffers (delete k (_buffers r)) r)
  end.

(** [while len(self._buffers) >= self.max_cache: self._buffers.popitem()] *)
Fixpoint evict (fuel : nat) : M t unit := fun r =>
  if Z.of_nat (size (_buffers r)) >=? max_cache r then
    match fuel with
    | O => Raise RecursionLimit r
    | S fuel' => (popitem;; evict fuel') r
    end
  else Ok tt r.

Section WithZlib.

Context {zlib : Zlib}.

(** [try: ... = _load_bgzf_block(handle, self._text)
    except StopIteration: ...] *)
Definition try_load_bgzf_block : M t (Z * bytes) := fun r =>
  match _load_bgzf_block (_text r) (_handle r) with
  | Ok (block_size, data) h => Ok (block_size, data) (set_handle h r)
  | Raise StopIteration h =>
      Ok (0, _empty_bytes_string) (set_handle h r)
  | Raise e h => Raise e (set_handle h r)
  end.

Definition _load_block (start_offset : option Z) : M t unit :=
  r ← get;
  start_offset ←
    match start_offset with
    | Some s => ret s
    | None =>
        match _block_start_offset r, _block_raw_length r with
        | Some a, Some b => ret (a + b)
        | _, _ => raise TypeError
        end
    end;
  if bool_decide (Some start_offset = _block_start_offset r) then
    modify (set_within_block_offset 0)
  else
    match _buffers r !! start_offset with
    | Some (buffer, raw_length) =>
        modify (set_buffer buffer);;
        modify (set_block_raw_length (Some raw_length));;
        modify (set_within_block_offset 0);;
        modify (set_block_start_offset (Some start_offset))
    | None =>
        evict (S (size (_buffers r)));;
        on_handle (File.seek start_offset);;
        p ← on_handle File.tell;
        modify (set_block_start_offset (Some p));;
        '(block_size, buffer) ← try_load_bgzf_block;
        modify (set_buffer buffer);;
        modify (set_within_block_offset 0);;
        modify (set_block_raw_length (Some block_size));;
        r ← get;
        modify (set_buffers (<[p := (buffer, block_size)]> (_buffers r)))
    end.

(** [__init__(self, filename, mode, fileobj, max_cache)]; the caller
    who leaves an argument out passes its default: [None], ["r"],
    [None] and [100]. *)
Definition __init__ (fs : gmap string bytes) (filename : option string)
    (mode : option string) (fileobj : option file) (max_cache : Z)
  : result t :=
  if max_cache <? 1 then Raises ValueError
  else
    let handle :=
      match fileobj with
      | Some f =>
          if negb (bool_decide (filename = None)
                   && bool_decide (mode = None)) then
            Raises AssertionError
          else if negb (Str.contains "b" (Str.lower (File.mode f))) then
            Raises AssertionError
          else Returns f
      | None =>
          match mode with
          | None => Raises AttributeError
          | Some m =>
              if Str.contains "w" (Str.lower m)
                 || Str.contains "a" (Str.lower m) then
                Raises ValueError
              else
                match filename with
                | None => Raises TypeError
                | Some name => File.open_rb fs name
                end
          end
      end in
    match handle with
    | Raises e => Raises e
    | Returns handle =>
        match mode with
        | None => Raises AttributeError
        | Some m =>
            let text := negb (Str.contains "b" (Str.lower m)) in
            let self :=
              {| _text := text;
                 _newline := if text then [x0a] else _bytes_newline;
                 _handle := handle;
                 max_cache := max_cache;
                 _buffers := ∅;
                 _block_start_offset := None;
                 _block_raw_length := None;
                 _buffer := [];
                 _within_block_offset := 0 |} in
            match (p ← on_handle File.tell; _load_block (Some p)) self with
            | Ok _ self => Returns self
            | Raise e _ => Raises e
            end
        end
    end.

Definition tell : M t Z :=
  r ← get;
  if (0 <? _within_block_offset r)
     && (_within_block_offset r =? len (_buffer r)) then
    match _block_start_offset r, _block_raw_length r with
    | Some a, Some b => ret (Z.shiftl (a + b) 16)
    | _, _ => raise TypeError
    end
  else
    match _block_start_offset r with
    | Some a => ret (Z.lor (Z.shiftl a 16) (_within_block_offset r))
    | None => raise TypeError
    end.

Definition seek (virtual_offset : Z) : M t Z :=
  let start_offset := Z.shiftr virtual_offset 16 in
  let within_block := Z.lxor virtual_offset (Z.shiftl start_offset 16) in
  r ← get;
  (if negb (bool_decide (Some start_offset = _block_start_offset r)) then
     _load_block (Some start_offset);;
     r ← get;
     assert_ (bool_decide (Some start_offset = _block_start_offset r))
   else ret tt);;
  r ← get;
  if (within_block >=? len (_buffer r))
     && negb ((within_block =? 0) && (len (_buffer r) =? 0)) then
    raise ValueError
  else
    modify (set_within_block_offset within_block);;
    ret virtual_offset.

(** [read(size)]; [fuel] bounds the depth of the recursion. *)
Fixpoint read_rec (fuel : nat) (size : Z) : M t bytes :=
  if size <? 0 then raise NotImplementedError
  else if size =? 0 then ret _empty_bytes_string
  else
    r ← get;
    if _within_block_offset r + size <=? len (_buffer r) then
      let data := slice (_buffer r) (_within_block_offset r)
                        (_within_block_offset r + size) in
      modify (set_within_block_offset (_within_block_offset r + size));;
      assert_ (negb (bool_decide (data = [])));;
      ret data
    else
      let data := slice_from (_buffer r) (_within_block_offset r) in
      let size := size - len data in
      _load_block None;;
      r ← get;
      if bool_decide (_buffer r = []) then ret data
      else if negb (size =? 0) then
        match fuel with
        | O => raise RecursionLimit
        | S fuel' =>
            rest ← read_rec fuel' size;
            ret (data ++ rest)
        end
      else ret data.

(** Every recursive call but the first follows a call that took a whole
    block that is not empty, so [size] calls are enough. *)
Definition read (size : Z) : M t bytes :=
  read_rec (Z.to_nat size) size.

(** [readline()]; [fuel] bounds the depth of the recursion. *)
Fixpoint readline_rec (fuel : nat) : M t bytes :=
  r ← get;
  let i := bytes_find (_buffer r) (_newline r)
                      (_within_block_offset r) in
  if i =? -1 then
    let data := slice_from (_buffer r) (_within_block_offset r) in
    _load_block None;;
    r ← get;
    if bool_decide (_buffer r = []) then ret data
    else
      match fuel with
      | O => raise RecursionLimit
      | S fuel' =>
          rest ← readline_rec fuel';
          ret (data ++ rest)
      end
  else if i + 1 =? len (_buffer r) then
    let data := slice_from (_buffer r) (_within_block_offset r) in
    _load_block None;;
    assert_ (negb (bool_decide (data = [])));;
    ret data
  else
    let data := slice (_buffer r) (_within_block_offset r) (i + 1) in
    modify (set_within_block_offset (i + 1));;
    ret data.

(** Every recursive call follows the loading of one more block of the
    file, and a block takes at least one byte of it. *)
Definition readline : M t bytes :=
  r ← get;
  readline_rec (S (length (content (_handle r)))).

Definition next : M t bytes :=
  line ← readline;
  if bool_decide (line = []) then raise StopIteration else ret line.

(** [__iter__] returns the reader itself. *)
Definition __iter__ : M t t := get.

(** [for line in self] collecting the lines: [next] is called until it
    raises [StopIteration]; [fuel] bounds the number of lines. *)
Fixpoint iterate (fuel : nat) : M t (list bytes) := fun r =>
  match next r with
  | Raise StopIteration r' => Ok [] r'
  | Raise e r' => Raise e r'
  | Ok line r' =>
      match fuel with
      | O => Raise RecursionLimit r'
      | S fuel' =>
          (rest ← iterate fuel'; ret (line :: rest)) r'
      end
  end.

End WithZlib.

End BgzfReader.

(** ** BgzfWriter *)

Module BgzfWriter.

Record t : Type := {
  _text : bool;
  _handle : file;
  _buffer : bytes;
  compresslevel : Z
}.

Definition set_handle (h : file) (w : t) : t :=
  {| _text := _text w; _handle := h; _buffer := _buffer w;
     compresslevel := compresslevel w |}.

Definition set_buffer (b : bytes) (w : t) : t :=
  {| _text := _text w; _handle := _handle w; _buffer := b;
     compresslevel := compresslevel w |}.

Definition on_handle {A} (m : M file A) : M t A := fun w =>
  match m (_handle w) with
  | Ok a h => Ok a (set_handle h w)
  | Raise e h => Raise e (set_handle h w)
  end.

(** The attributes an instance has: those [__init__] sets and the
    methods of the class. *)
Inductive attr : Type :=
  | AttrBool (b : bool)
  | AttrFile (h : file)
  | AttrBytes (b : bytes)
  | AttrInt (z : Z)
  | AttrMethod.

Definition getattr (w : t) (name : string) : option attr :=
  if bool_decide (name = "_text") then Some (AttrBool (_text w))
  else if bool_decide (name = "_handle") then Some (AttrFile (_handle w))
  else if bool_decide (name = "_buffer") then Some (AttrBytes (_buffer w))
  else if bool_decide (name = "compresslevel") then
    Some (AttrInt (compresslevel w))
  else if bool_decide (name ∈ ["__init__"; "_write_block"; "write";
                               "flush"; "close"; "tell"]) then
    Some AttrMethod
  else None.

(** [__init__(self, filename, mode, fileobj, compresslevel)]; the defaults
    are [None], ["w"], [None] and [6]. *)
Definition __init__ (fs : gmap string bytes) (filename : option string)
    (mode : option string) (fileobj : option file) (compresslevel : Z)
  : result t :=
  let handle :=
    match fileobj with
    | Some f =>
        if negb (bool_decide (filename = None)) then Raises AssertionError
        else Returns f
    | None =>
        match mode with
        | None => Raises AttributeError
        | Some m =>
            if negb (Str.contains "w" (Str.lower m))
               && negb (Str.contains "a" (Str.lower m)) then
              Raises ValueError
            else
              match filename with
              | None => Raises TypeError
              | Some name =>
                  if Str.contains "a" (Str.lower m) then
                    File.open_ab fs name
                  else File.open_wb fs name
              end
        end
    end in
  match handle with
  | Raises e => Raises e
  | Returns handle =>
      match mode with
      | None => Raises AttributeError
      | Some m =>
          Returns {| _text := negb (Str.contains "b" (Str.lower m));
                     _handle := handle;
                     _buffer := _empty_bytes_string;
                     compresslevel := compresslevel |}
      end
  end.

Section WithZlib.

Context {zlib : Zlib}.

Definition _write_block (block : bytes) : M t unit :=
  start_offset ← on_handle File.tell;
  assert_ (len block <=? 65536);;
  w ← get;
  compressed ← lift (compress (compresslevel w) block);
  assert_ (len compressed <? 65536);;
  let crc := crc32 block in
  crc ← lift (if crc <? 0 then struct.pack_i crc else struct.pack_I crc);
  bsize ← lift (struct.pack_H (len compressed + 25));
  crc ← lift (struct.pack_I (Z.land (crc32 block) 4294967295));
  uncompressed_length ← lift (struct.pack_I (len block));
  let data := _bgzf_header ++ bsize ++ compressed ++ crc
              ++ uncompressed_length in
  on_handle (File.write data).

(** [while len(self._buffer) >= 65536:] of [write], which takes
    [65536] bytes at a time. *)
Fixpoint write_loop (fuel : nat) : M t unit :=
  w ← get;
  if len (_buffer w) >=? 65536 then
    match fuel with
    | O => raise RecursionLimit
    | S fuel' =>
        _write_block (slice (_buffer w) 0 65536);;
        w ← get;
        modify (set_buffer (slice_from (_buffer w) 65536));;
        write_loop fuel'
    end
  else ret tt.

Definition write (data : bytes) : M t unit :=
  let data := _as_bytes data in
  let data_len := len data in
  w ← get;
  if len (_buffer w) + data_len <? 65536 then
    modify (set_buffer (_buffer w ++ data))
  else
    modify (set_buffer (_buffer w ++ data));;
    w ← get;
    write_loop (length (_buffer w)).

(** [while len(self._buffer) >= 65536:] of [flush], which takes
    [65535] bytes at a time. *)
Fixpoint flush_loop (fuel : nat) : M t unit :=
  w ← get;
  if len (_buffer w) >=? 65536 then
    match fuel with
    | O => raise RecursionLimit
    | S fuel' =>
        _write_block (slice (_buffer w) 0 65535);;
        w ← get;
        modify (set_buffer (slice_from (_buffer w) 65535));;
        flush_loop fuel'
    end
  else ret tt.

Definition flush : M t unit :=
  w ← get;
  flush_loop (length (_buffer w));;
  w ← get;
  _write_block (_buffer w);;
  modify (set_buffer _empty_bytes_string);;
  on_handle File.flush.

Definition close : M t unit :=
  w ← get;
  (if negb (bool_decide (_buffer w = [])) then flush else ret tt);;
  on_handle (File.write _bgzf_eof);;
  on_handle File.flush;;
  on_handle File.close.

Definition tell : M t Z :=
  w ← get;
  match getattr w "handle" with
  | Some (AttrFile handle) =>
      match File.tell handle with
      | Ok p _ => lift (make_virtual_offset p (len (_buffer w)))
      | Raise e _ => raise e
      end
  | Some _ => raise AttributeError
  | None => raise AttributeError
  end.

(** Several calls of [write], one after the other. *)
Fixpoint write_all (datas : list bytes) : M t unit :=
  match datas with
  | [] => ret tt
  | data :: datas' => write data;; write_all datas'
  end.

End WithZlib.

End BgzfWriter.

(** ** The module's [open] *)



(** ** The command-line driver

    The code under [if __name__ == "__main__"], run on the arguments of
    the command line and the three standard streams, which are files
    here, as in [./bgzf.py < example.fastq > example.fastq.bgz].  The
    result is the exit status of the process: [sys.exit(0)] and the end
    of the script both give [0]; an exception that is not caught is
    raised. *)

Module Main.

Record process : Type := {
  stdin : file;
  stdout : file;
  stderr : file
}.

Definition on_stdout {A} (m : M file A) : M process A := fun p =>
  match m (stdout p) with
  | Ok a h => Ok a {| stdin := stdin p; stdout := h; stderr := stderr p |}
  | Raise e h =>
      Raise e {| stdin := stdin p; stdout := h; stderr := stderr p |}
  end.

Definition on_stderr {A} (m : M file A) : M process A := fun p =>
  match m (stderr p) with
  | Ok a h => Ok a {| stdin := stdin p; stdout := stdout p; stderr := h |}
  | Raise e h =>
      Raise e {| stdin := stdin p; stdout := stdout p; stderr := h |}
  end.

(** [print s]: the string and a newline go to [sys.stdout]. *)
Definition print (s : string) : M process unit :=
  on_stdout (File.write (String.list_byte_of_string s ++ [x0a])).

(** The process once [w = BgzfWriter(fileobj=sys.stdout)] exists:
    [sys.stdout] is the handle of the writer. *)
Record running : Type := {
  r_stdin : file;
  r_stderr : file;
  writer : BgzfWriter.t
}.

Definition on_r_stdin {A} (m : M file A) : M running A := fun s =>
  match m (r_stdin s) with
  | Ok a h =>
      Ok a {| r_stdin := h; r_stderr := r_stderr s; writer := writer s |}
  | Raise e h =>
      Raise e {| r_stdin := h; r_stderr := r_stderr s;
                 writer := writer s |}
  end.

Definition on_r_stderr {A} (m : M file A) : M running A := fun s =>
  match m (r_stderr s) with
  | Ok a h =>
      Ok a {| r_stdin := r_stdin s; r_stderr := h; writer := writer s |}
  | Raise e h =>
      Raise e {| r_stdin := r_stdin s; r_stderr := h;
                 writer := writer s |}
  end.

Definition on_writer {A} (m : M BgzfWriter.t A) : M running A := fun s =>
  match m (writer s) with
  | Ok a w =>
      Ok a {| r_stdin := r_stdin s; r_stderr := r_stderr s; writer := w |}
  | Raise e w =>
      Raise e {| r_stdin := r_stdin s; r_stderr := r_stderr s;
                 writer := w |}
  end.

Definition finish (s : running) : process :=
  {| stdin := r_stdin s; stdout := BgzfWriter._handle (writer s);
     stderr := r_stderr s |}.

Section WithZlib.

Context {zlib : Zlib}.

(** [while True: data = sys.stdin.read(65536); w.write(data);
    if not data: break] *)
Fixpoint copy_loop (fuel : nat) : M running unit :=
  data ← on_r_stdin (File.read 65536);
  on_writer (BgzfWriter.write data);;
  if bool_decide (data = []) then ret tt
  else
    match fuel with
    | O => raise RecursionLimit
    | S fuel' => copy_loop fuel'
    end.

Definition main (argv : list string) : M process Z := fun p =>
  if 1 <? len argv then
    (print "Call this with no arguments and pipe uncompressed data in on stdin";;
     print "and it will produce BGZF compressed data on stdout. e.g.";;
     print "";;
     print "./bgzf.py < example.fastq > example.fastq.bgz";;
     print "";;
     print "The extension convention of *.bgz is to distinugish these from *.gz";;
     print "used for standard gzipped files without the block structure of BGZF.";;
     print "You can use the standard gunzip command to decompress BGZF files,";;
     print "if it complains about the extension try something like this:";;
     print "";;
     print "cat example.fastq.bgz | gunzip > example.fastq";;
     print "";;
     print "See also the tool bgzip that comes with samtools";;
     ret 0) p
  else
    match on_stderr
            (File.write
               (String.list_byte_of_string "Producing BGZF output from stdin..."
                ++ [x0a])) p with
    | Raise e p1 => Raise e p1
    | Ok _ p1 =>
        match BgzfWriter.__init__ ∅ None (Some "w"%string)
                (Some (stdout p1)) 6 with
        | Raises e => Raise e p1
        | Returns w =>
            match
              (copy_loop (S (length (content (stdin p1))));;
               on_writer BgzfWriter.close;;
               on_r_stderr
                 (File.write
                    (String.list_byte_of_string "BGZF data produced" ++ [x0a])))
                {| r_stdin := stdin p1; r_stderr := stderr p1;
                   writer := w |}
            with
            | Ok _ s => Ok 0 (finish s)
            | Raise e s => Raise e (finish s)
            end
        end
    end.

End WithZlib.

End Main.

(** ** An instance of zlib: stored blocks

    What zlib does at compression level [0]: the data are copied into
    stored DEFLATE blocks, each with a header of five bytes and at most
    [65535] bytes of data.  The inflater reads stored blocks and the empty
    stream [03 00]; the CRC-32 is the bitwise one, signed as in Python 2. *)

Module StoredZlib.

Definition crc_step (c : Z) : Z :=
  if Z.odd c then Z.lxor (Z.shiftr c 1) 3988292384 else Z.shiftr c 1.

Definition crc_byte (c : Z) (b : byte) : Z :=
  Nat.iter 8 crc_step (Z.lxor c (struct.Z_of_byte b)).

Definition crc32_unsigned (data : bytes) : Z :=
  Z.lxor (fold_left crc_byte data 4294967295) 4294967295 mod 4294967296.

Definition crc32_signed (data : bytes) : Z :=
  let u := crc32_unsigned data in
  if u >=? 2147483648 then u - 4294967296 else u.

Definition stored_block (final : bool) (b : bytes) : bytes :=
  (if final then x01 else x00)
    :: struct.le_bytes 2 (len b)
    ++ struct.le_bytes 2 (65535 - len b) ++ b.

Fixpoint deflate_stored (fuel : nat) (b : bytes) : bytes :=
  match fuel with
  | O => stored_block true b
  | S fuel' =>
      if len b <=? 65535 then stored_block true b
      else stored_block false (slice b 0 65535)
           ++ deflate_stored fuel' (slice_from b 65535)
  end.

Definition deflate (level : Z) (b : bytes) : result bytes :=
  if (-1 <=? level) && (level <=? 9) then
    Returns (deflate_stored (length b) b)
  else Raises ZlibError.

Fixpoint inflate_stored (fuel : nat) (s : bytes) : result bytes :=
  match s with
  | hdr :: l0 :: l1 :: n0 :: n1 :: rest =>
      let n := struct.le_value [l0; l1] in
      if negb (struct.le_value [n0; n1] =? 65535 - n) then Raises ZlibError
      else if len rest <? n then Raises ZlibError
      else if bool_decide (hdr = x01) then Returns (slice rest 0 n)
      else if bool_decide (hdr = x00) then
        match fuel with
        | O => Raises ZlibError
        | S fuel' =>
            match inflate_stored fuel' (slice_from rest n) with
            | Returns d => Returns (slice rest 0 n ++ d)
            | Raises e => Raises e
            end
        end
      else Raises ZlibError
  | _ => Raises ZlibError
  end.

Definition inflate (s : bytes) : result bytes :=
  if bool_decide (s = [x03; x00]) then Returns []
  else inflate_stored (length s) s.

Definition zlib : Zlib :=
  {| compress := deflate; decompress := inflate; crc32 := crc32_signed |}.

End StoredZlib.

(** ** Vocabulary of the statements *)

(** What is left to read in a file. *)
Definition rest (h : file) : bytes :=
  drop (Z.to_nat (position h)) (content h).

(** An open file positioned at its end, as a sink is between two writes. *)
Definition at_end (h : file) : Prop :=
  closed h = false /\ position h = len (content h).

(** The file after [data] were written at its end. *)
Definition append (data : bytes) (h : file) : file :=
  File.set_position (position h + len data)
    (File.set_content (content h ++ data) h).

(** The block [_write_block] builds from the uncompressed [block] and its
    compressed form [c]. *)
Definition block_frame {zlib : Zlib} (c block : bytes) : bytes :=
  _bgzf_header ++ struct.le_bytes 2 (len c + 25) ++ c
    ++ struct.le_bytes 4 (Z.land (crc32 block) 4294967295)
    ++ struct.le_bytes 4 (len block).

(** The pieces of [65536] bytes [write] takes off a buffer, and what it
    leaves. *)
Fixpoint full_chunks (fuel : nat) (b : bytes) : list bytes :=
  match fuel with
  | O => []
  | S fuel' =>
      if len b >=? 65536 then
        slice b 0 65536 :: full_chunks fuel' (slice_from b 65536)
      else []
  end.

Fixpoint remainder (fuel : nat) (b : bytes) : bytes :=
  match fuel with
  | O => b
  | S fuel' =>
      if len b >=? 65536 then remainder fuel' (slice_from b 65536) else b
  end.

(** The block [close] flushes: the buffer, unless it is empty. *)
Definition last_block (b : bytes) : list bytes :=
  if bool_decide (b = []) then [] else [b].

(** The uncompressed blocks a writer fed [b] and closed cuts [b] into. *)
Definition blocks_of (b : bytes) : list bytes :=
  full_chunks (length b) b ++ last_block (remainder (length b) b).

Definition deflated {zlib : Zlib} (level : Z) (b : bytes) : bytes :=
  match compress level b with
  | Returns c => c
  | Raises _ => []
  end.

(** [b] deflates, and to few enough bytes for a block of at most [65536]. *)
Definition fits {zlib : Zlib} (level : Z) (b : bytes) : Prop :=
  exists c, compress level b = Returns c /\ len c + 26 <= 65536.

Definition encode_block {zlib : Zlib} (level : Z) (b : bytes) : bytes :=
  block_frame (deflated level b) b.

Definition encode_blocks {zlib : Zlib} (level : Z) (bs : list bytes)
  : bytes :=
  concat (map (encode_block level) bs).

(** What [load_blocks] finds from offset [p] on in a stream of encoded
    blocks that ends with the EOF block. *)
Fixpoint entries_from {zlib : Zlib} (level : Z) (p : Z) (bs : list bytes)
  : list (Z * Z * bytes) :=
  match bs with
  | [] => [(p, 28, [])]
  | b :: bs' =>
      (p, len (deflated level b) + 26, b)
        :: entries_from level (p + (len (deflated level b) + 26)) bs'
  end.

(** The state a method leaves its object in, whether it returned or
    raised. *)
Definition state_of {S A} (o : outcome S A) : S :=
  match o with
  | Ok _ s => s
  | Raise _ s => s
  end.

(** The public operations of a writer, and the writer after a caller ran
    some of them one after the other, going on after an exception. *)
Inductive writer_op : Type :=
  | OpWrite (data : bytes)
  | OpFlush
  | OpClose.

Definition run_writer_op {zlib : Zlib} (o : writer_op) : M BgzfWriter.t unit :=
  match o with
  | OpWrite data => BgzfWriter.write data
  | OpFlush => BgzfWriter.flush
  | OpClose => BgzfWriter.close
  end.

Definition after_writer_ops {zlib : Zlib} (ops : list writer_op)
    (w : BgzfWriter.t) : BgzfWriter.t :=
  foldl (fun s o => state_of (run_writer_op o s)) w ops.

(** The BSIZE a block announces: the 16-bit field behind the header, plus
    one. *)
Definition bsize_field (f : bytes) : Z :=
  struct.le_value (slice f 16 18) + 1.

(** A block as [_write_block] builds them, of at most [65536] bytes. *)
Definition is_block {zlib : Zlib} (f : bytes) : Prop :=
  exists c b, f = block_frame c b /\ len c + 26 <= 65536.

(** The sink [h] holds what [h0] held and then whole blocks, and is
    positioned at its end. *)
Definition emitted {zlib : Zlib} (h0 h : file) : Prop :=
  position h = len (content h)
  /\ exists frames,
       content h = content h0 ++ concat frames /\ Forall is_block frames.

(** The method [m] of a writer keeps the property [P] of its sink, whether
    it returns or raises. *)
Definition preserves {A} (P : file -> Prop) (m : M BgzfWriter.t A) : Prop :=
  forall w, P (BgzfWriter._handle w) ->
            P (BgzfWriter._handle (state_of (m w))).

(** The run of [m] from [s] does not stop for lack of fuel: the bound of a
    loop or of a recursion was large enough. *)
Definition within_fuel {S A} (m : M S A) (s : S) : Prop :=
  forall s', m s <> Raise RecursionLimit s'.

(** From [h] to [h'] the same file was only read forward. *)
Definition read_on (h h' : file) : Prop :=
  content h' = content h
  /\ position h <= position h'
  /\ (position h <= len (content h) -> position h' <= len (content h)).

(** A method of a file handle that only reads forward. *)
Definition advancing {A} (m : M file A) : Prop :=
  forall h a h', 0 <= position h -> m h = Ok a h' -> read_on h h'.

(** ** Counting byte strings *)

(** The 256 bytes, the byte strings of length [n], and those of a length
    below [m]. *)
Definition all_bytes : list byte := omap Byte.of_nat (seq 0 256).

Fixpoint words (n : nat) : list bytes :=
  match n with
  | O => [[]]
  | S n' => concat (map (fun b => map (cons b) (words n')) all_bytes)
  end.

Fixpoint shorter (m : nat) : list bytes :=
  match m with
  | O => []
  | S m' => shorter m' ++ words m'
  end.

(** ** The invariant of a reader *)

(** A block is loaded and the offset within it is between [0] and the
    length of the buffer. *)
Definition reader_ok (r : BgzfReader.t) : Prop :=
  is_Some (BgzfReader._block_start_offset r)
  /\ is_Some (BgzfReader._block_raw_length r)
  /\ 0 <= BgzfReader._within_block_offset r <= len (BgzfReader._buffer r).

(** ** The file behind a handle, and the blocks in it *)

(** From [h] to [h'] only the position changed. *)
Definition same_file (h h' : file) : Prop :=
  content h' = content h /\ closed h' = closed h /\ mode h' = mode h.

(** The tuples of [BgzfBlocks] follow one another from the raw offset
    [start] and the data offset [data_start]: each block starts where the
    one before ended, in the file and in the data. *)
Fixpoint chained (start data_start : Z) (ts : list (Z * Z * Z * Z))
  : Prop :=
  match ts with
  | [] => True
  | (raw_start, raw_length, d_start, d_length) :: ts' =>
      raw_start = start /\ d_start = data_start
      /\ 26 <= raw_length <= 65536 /\ 0 <= d_length
      /\ chained (start + raw_length) (data_start + d_length) ts'
  end.

(** The block a reader finds at offset [k] of the file behind [h]: its
    raw length and its data, [(0, "")] where the file ends, nothing when
    what is there does not decode. *)
Definition block_at {zlib : Zlib} (text : bool) (h : file) (k : Z)
  : option (Z * bytes) :=
  match _load_bgzf_block text (File.set_position k h) with
  | Ok (block_size, data) _ => Some (block_size, data)
  | Raise StopIteration _ => Some (0, [])
  | Raise _ _ => None
  end.

(** From offset [k] on, the file behind [h] is made of the blocks [es],
    each given by its raw length and its data, and ends after them. *)
Fixpoint entries_at {zlib : Zlib} (text : bool) (h : file) (k : Z)
    (es : list (Z * bytes)) : Prop :=
  match es with
  | [] => block_at text h k = Some (0, [])
  | (raw, data) :: es' =>
      0 < raw /\ block_at text h k = Some (raw, data)
      /\ entries_at text h (k + raw) es'
  end.

(** No block with data comes after a block without: the empty blocks are
    at the end. *)
Fixpoint tidy (es : list (Z * bytes)) : Prop :=
  match es with
  | [] => True
  | (_, data) :: es' => (data = [] -> concat (map snd es') = []) /\ tidy es'
  end.

(** ** The state of a reader *)

(** What [__init__] sets up and every method that returns keeps: the
    handle is open, the newline is one byte, the cache holds at most
    [max_cache] blocks, the offset is within the buffer, and the buffer
    and every cached block are what the file holds at their offsets. *)
Record reader_inv {zlib : Zlib} (r : BgzfReader.t) : Prop := {
  inv_open : closed (BgzfReader._handle r) = false;
  inv_newline : BgzfReader._newline r = _bytes_newline;
  inv_max_cache : 1 <= BgzfReader.max_cache r;
  inv_size :
    Z.of_nat (size (BgzfReader._buffers r)) <= BgzfReader.max_cache r;
  inv_within :
    0 <= BgzfReader._within_block_offset r <= len (BgzfReader._buffer r);
  inv_block :
    exists a raw,
      BgzfReader._block_start_offset r = Some a
      /\ BgzfReader._block_raw_length r = Some raw
      /\ 0 <= a
      /\ block_at (BgzfReader._text r) (BgzfReader._handle r) a
         = Some (raw, BgzfReader._buffer r);
  inv_cache :
    forall k buf raw,
      BgzfReader._buffers r !! k = Some (buf, raw) ->
      0 <= k
      /\ block_at (BgzfReader._text r) (BgzfReader._handle r) k
         = Some (raw, buf)
}.

(** The reader [r'] is [r] after the block at offset [k], of raw length
    [raw] and data [buf], became its current block. *)
Definition loaded_block {zlib : Zlib} (r r' : BgzfReader.t) (k raw : Z)
    (buf : bytes) : Prop :=
  reader_inv r'
  /\ same_file (BgzfReader._handle r) (BgzfReader._handle r')
  /\ BgzfReader._text r' = BgzfReader._text r
  /\ BgzfReader.max_cache r' = BgzfReader.max_cache r
  /\ BgzfReader._block_start_offset r' = Some k
  /\ BgzfReader._block_raw_length r' = Some raw
  /\ BgzfReader._buffer r' = buf
  /\ BgzfReader._within_block_offset r' = 0.

(** The reader [r'] is over the same file as [r], with the same
    settings. *)
Definition same_reader (r r' : BgzfReader.t) : Prop :=
  same_file (BgzfReader._handle r) (BgzfReader._handle r')
  /\ BgzfReader._text r' = BgzfReader._text r
  /\ BgzfReader.max_cache r' = BgzfReader.max_cache r.

(** Where the block after the current one starts. *)
Definition next_start (r : BgzfReader.t) : Z :=
  default 0 (BgzfReader._block_start_offset r)
  + default 0 (BgzfReader._block_raw_length r).

(** A reader in front of the blocks [es]: they follow its current block
    up to the end of the file, the empty ones last. *)
Definition reader_at {zlib : Zlib} (r : BgzfReader.t)
    (es : list (Z * bytes)) : Prop :=
  reader_inv r
  /\ entries_at (BgzfReader._text r) (BgzfReader._handle r)
                (next_start r) es
  /\ tidy es.

(** What is left to read: the rest of the buffer, then the data of the
    blocks that follow. *)
Definition upcoming (r : BgzfReader.t) (es : list (Z * bytes)) : bytes :=
  slice_from (BgzfReader._buffer r) (BgzfReader._within_block_offset r)
  ++ concat (map snd es).

(** The first line of [s], with its newline, or all of [s] when it has
    none; and the lines of [s]. *)
Fixpoint first_line (s : bytes) : bytes :=
  match s with
  | [] => []
  | x :: s' => if bool_decide (x = x0a) then [x] else x :: first_line s'
  end.

Fixpoint lines_of (s : bytes) : list bytes :=
  match s with
  | [] => []
  | x :: s' =>
      if bool_decide (x = x0a) then [x] :: lines_of s'
      else match lines_of s' with
           | [] => [[x]]
           | l :: ls => (x :: l) :: ls
           end
  end.

(** What the calls [sys.stdin.read(65536)] of the driver return one after
    the other when [b] is left on the standard input: pieces of 65536
    bytes, the last one perhaps shorter, then the empty string. *)
Fixpoint pieces (fuel : nat) (b : bytes) : list bytes :=
  if bool_decide (b = []) then [[]]
  else
    match fuel with
    | O => [b]
    | S fuel' => slice b 0 65536 :: pieces fuel' (slice_from b 65536)
    end.

(** The exceptions of a block that is damaged: a field that is cut short,
    an assertion of the decoder that fails, data that do not inflate. *)
Definition damaged (e : exn) : Prop :=
  e = StructError \/ e = AssertionError \/ e = ZlibError.

(** The exceptions the run of [m] from [s] can end with are among [P]. *)
Definition raises_in {S A} (P : exn -> Prop) (m : M S A) (s : S) : Prop :=
  forall e s', m s = Raise e s' -> P e.

(** The state [m] leaves is related by [R] to the one it started from,
    whether [m] returns or raises. *)
Definition relates {S A} (R : S -> S -> Prop) (m : M S A) : Prop :=
  forall s, R s (state_of (m s)).

(** ** Inputs of the examples *)

Definition hello : bytes := [x68; x65; x6c; x6c; x6f; x0a].

Definition sink0 : file :=
  {| content := []; position := 0; closed := false; mode := "wb" |}.

(** [BgzfWriter("out.bgz", "wb", None, 0)] *)
Definition writer0 : BgzfWriter.t :=
  {| BgzfWriter._text := false; BgzfWriter._handle := sink0;
     BgzfWriter._buffer := []; BgzfWriter.compresslevel := 0 |}.

Definition ab : bytes := [x61; x62].
Definition cd : bytes := [x63; x64].

(** What the writer [writer0] leaves in its sink after [write(data)] and
    [close()], with blocks stored as at compression level [0]. *)
Definition written (data : bytes) : bytes :=
  content (BgzfWriter._handle
             (@after_writer_ops StoredZlib.zlib
                [OpWrite data; OpClose] writer0)).

(** The file with the block of ["hello\n"] and the EOF block. *)
Definition hello_bgz : bytes := Eval vm_compute in written hello.

(** Two BGZF files one after the other: the blocks of ["ab"], an EOF
    block, the block of ["cd"], an EOF block. *)
Definition two_bgz : bytes := Eval vm_compute in written ab ++ written cd.

Definition fs0 : gmap string bytes :=
  <["hello.bgz" := hello_bgz]>
    (<["two.bgz" := two_bgz]> {["empty.bgz" := []]}).

(** [BgzfReader("hello.bgz", "rb")] *)
Definition reader_hello : BgzfReader.t :=
  {| BgzfReader._text := false;
     BgzfReader._newline := _bytes_newline;
     BgzfReader._handle :=
       {| content := hello_bgz; position := 37;
          closed := false; mode := "rb" |};
     BgzfReader.max_cache := 100;
     BgzfReader._buffers := {[0 := (hello, 37)]};
     BgzfReader._block_start_offset := Some 0;
     BgzfReader._block_raw_length := Some 37;
     BgzfReader._buffer := hello;
     BgzfReader._within_block_offset := 0 |}.

(** [BgzfReader("two.bgz", "rb")] *)
Definition reader_two : BgzfReader.t :=
  {| BgzfReader._text := false;
     BgzfReader._newline := _bytes_newline;
     BgzfReader._handle :=
       {| content := two_bgz; position := 33;
          closed := false; mode := "rb" |};
     BgzfReader.max_cache := 100;
     BgzfReader._buffers := {[0 := (ab, 33)]};
     BgzfReader._block_start_offset := Some 0;
     BgzfReader._block_raw_length := Some 33;
     BgzfReader._buffer := ab;
     BgzfReader._within_block_offset := 0 |}.

(** [open("hello.bgz", "rb")] of [__builtin__]. *)
Definition source_hello : file :=
  {| content := hello_bgz; position := 0; closed := false; mode := "rb" |}.

(** The first bytes of a gzip file that is not BGZF: no extra field. *)
Definition source_gzip : file :=
  {| content := [x1f; x8b; x08; x00; x00; x00; x00; x00; x00; x03];
     position := 0; closed := false; mode := "rb" |}.

(** Three lines in two blocks, the second line across the blocks: the
    writer was given ["ab\ncd"], flushed, given ["ef\ngh\n"] and closed. *)
Definition abcd : bytes := [x61; x62; x0a; x63; x64].
Definition efgh : bytes := [x65; x66; x0a; x67; x68; x0a].

Definition lines_bgz : bytes :=
  Eval vm_compute in
    content (BgzfWriter._handle
               (@after_writer_ops StoredZlib.zlib
                  [OpWrite abcd; OpFlush; OpWrite efgh; OpClose] writer0)).

Definition fs1 : gmap string bytes := {["lines.bgz" := lines_bgz]}.

(** [BgzfReader("lines.bgz", "rb")] *)
Definition reader_lines : BgzfReader.t :=
  {| BgzfReader._text := false;
     BgzfReader._newline := _bytes_newline;
     BgzfReader._handle :=
       {| content := lines_bgz; position := 36;
          closed := false; mode := "rb" |};
     BgzfReader.max_cache := 100;
     BgzfReader._buffers := {[0 := (abcd, 36)]};
     BgzfReader._block_start_offset := Some 0;
     BgzfReader._block_raw_length := Some 36;
     BgzfReader._buffer := abcd;
     BgzfReader._within_block_offset := 0 |}.

(** The reader of the three lines after [read(7)]: in its second block,
    with both blocks in the cache. *)
Definition reader_lines_later : BgzfReader.t :=
  Eval vm_compute in
    state_of (@BgzfReader.read StoredZlib.zlib 7 reader_lines).

(** The process [./bgzf.py < hello.txt > out.bgz]. *)
Definition process_hello : Main.process :=
  {| Main.stdin := {| content := hello; position := 0;
                      closed := false; mode := "r" |};
     Main.stdout := sink0;
     Main.stderr := {| content := []; position := 0;
                       closed := false; mode := "w" |} |}.

(** * Properties *)

(** ** Bit-level facts about packing a block offset with a 16-bit offset *)

Section PackBits.

Lemma low16_testbit_high (u i : Z) :
  0 <= u < 65536 -> 16 <= i -> Z.testbit u i = false.
Proof.
  intros Hu Hi.
  destruct (Z.eq_dec u 0) as [->|Hne]; [apply Z.bits_0|].
  apply Z.bits_above_log2; [lia|].
  assert (Z.log2 u < 16); [|lia].
  apply Z.log2_lt_pow2; lia.
Qed.

Lemma shiftl16_land_low (c u : Z) :
  0 <= u < 65536 -> Z.land (Z.shiftl c 16) u = 0.
Proof.
  intros Hu. apply Z.bits_inj'; intros i Hi.
  rewrite Z.land_spec, Z.bits_0.
  destruct (Z_lt_le_dec i 16).
  - rewrite Z.shiftl_spec_low by lia. reflexivity.
  - rewrite (low16_testbit_high u i) by lia. apply andb_false_r.
Qed.

Lemma lor_shiftl16 (c u : Z) :
  0 <= u < 65536 -> Z.lor (Z.shiftl c 16) u = c * 65536 + u.
Proof.
  intros Hu.
  rewrite <- Z.lxor_lor by (apply shiftl16_land_low; lia).
  rewrite <- Z.add_nocarry_lxor by (apply shiftl16_land_low; lia).
  rewrite Z.shiftl_mul_pow2 by lia. reflexivity.
Qed.

Lemma lxor_shiftr_shiftl16 (v : Z) :
  Z.lxor v (Z.shiftl (Z.shiftr v 16) 16) = v mod 65536.
Proof.
  apply Z.bits_inj'; intros i Hi.
  rewrite Z.lxor_spec.
  change 65536 with (2 ^ 16).
  destruct (Z_lt_le_dec i 16).
  - rewrite Z.shiftl_spec_low, Z.mod_pow2_bits_low by lia.
    apply xorb_false_r.
  - rewrite Z.shiftl_spec, Z.shiftr_spec, Z.mod_pow2_bits_high by lia.
    replace (i - 16 + 16) with i by lia. apply xorb_nilpotent.
Qed.

Lemma split_virtual_offset_divmod (v : Z) :
  split_virtual_offset v = (v / 65536, v mod 65536).
Proof.
  unfold split_virtual_offset.
  rewrite lxor_shiftr_shiftl16, Z.shiftr_div_pow2 by lia. reflexivity.
Qed.

Lemma make_virtual_offset_in_range (c u : Z) :
  0 <= c < 281474976710656 -> 0 <= u < 65536 ->
  make_virtual_offset c u = Returns (c * 65536 + u).
Proof.
  intros Hc Hu. unfold make_virtual_offset.
  replace (u <? 0) with false by lia.
  replace (u >=? 65536) with false by lia.
  replace (c <? 0) with false by lia.
  replace (c >=? 281474976710656) with false by lia.
  simpl. rewrite lor_shiftl16 by lia. reflexivity.
Qed.

End PackBits.

(** ** C5, C6: the virtual-offset algebra *)

(** C5. Within the domain [0 <= c < 2^48], [0 <= u < 2^16],
    [split_virtual_offset] undoes [make_virtual_offset]; for every unsigned
    64-bit [v], [make_virtual_offset] applied to the two components of
    [split_virtual_offset v] returns [v]; and [make_virtual_offset] is
    strictly increasing in the block offset first and, at equal block
    offsets, in the within-block offset. *)
Theorem virtual_offset_laws :
  (forall c u, 0 <= c < 2 ^ 48 -> 0 <= u < 2 ^ 16 ->
     exists v, make_virtual_offset c u = Returns v
               /\ split_virtual_offset v = (c, u))
  /\ (forall v, 0 <= v < 2 ^ 64 ->
        make_virtual_offset (fst (split_virtual_offset v))
                            (snd (split_virtual_offset v)) = Returns v)
  /\ (forall c1 u1 c2 u2 v1 v2,
        make_virtual_offset c1 u1 = Returns v1 ->
        make_virtual_offset c2 u2 = Returns v2 ->
        c1 < c2 \/ (c1 = c2 /\ u1 < u2) -> v1 < v2).
Proof.
  split; [|split].
  - intros c u Hc Hu. exists (c * 65536 + u). split.
    + apply make_virtual_offset_in_range; lia.
    + rewrite split_virtual_offset_divmod. f_equal.
      * rewrite Z.div_add_l by lia. rewrite Z.div_small by lia. lia.
      * rewrite Z.add_comm, Z.mod_add by lia. apply Z.mod_small. lia.
  - intros v Hv. rewrite split_virtual_offset_divmod. simpl.
    pose proof (Z.mod_pos_bound v 65536 ltac:(lia)).
    assert (0 <= v / 65536 < 281474976710656).
    { split; [apply Z.div_pos; lia|].
      apply Z.div_lt_upper_bound; lia. }
    rewrite make_virtual_offset_in_range by lia.
    f_equal. pose proof (Z.div_mod v 65536 ltac:(lia)). lia.
  - intros c1 u1 c2 u2 v1 v2 H1 H2 Hlt.
    unfold make_virtual_offset in H1, H2.
    destruct ((u1 <? 0) || (u1 >=? 65536)) eqn:E1; [discriminate|].
    destruct ((c1 <? 0) || (c1 >=? 281474976710656)) eqn:E2; [discriminate|].
    destruct ((u2 <? 0) || (u2 >=? 65536)) eqn:E3; [discriminate|].
    destruct ((c2 <? 0) || (c2 >=? 281474976710656)) eqn:E4; [discriminate|].
    apply orb_false_elim in E1, E3.
    rewrite lor_shiftl16 in H1 by lia.
    rewrite lor_shiftl16 in H2 by lia.
    injection H1 as <-. injection H2 as <-. lia.
Qed.

(** C6. [make_virtual_offset c u] raises [ValueError] exactly when [c] or
    [u] is out of range, and returns [(c << 16) | u] otherwise;
    [make(0, 65536)] and [make(2^48, 0)] raise and [make(100000, 10)] is
    [6553600010]. *)
Theorem make_virtual_offset_range_check :
  (forall c u,
     (c < 0 \/ c >= 2 ^ 48 \/ u < 0 \/ u >= 2 ^ 16) ->
     make_virtual_offset c u = Raises ValueError)
  /\ (forall c u,
        ~ (c < 0 \/ c >= 2 ^ 48 \/ u < 0 \/ u >= 2 ^ 16) ->
        make_virtual_offset c u = Returns (Z.lor (Z.shiftl c 16) u))
  /\ make_virtual_offset 0 65536 = Raises ValueError
  /\ make_virtual_offset (2 ^ 48) 0 = Raises ValueError
  /\ make_virtual_offset 100000 10 = Returns 6553600010.
Proof.
  repeat split; try reflexivity.
  - intros c u H. unfold make_virtual_offset.
    destruct ((u <? 0) || (u >=? 65536)) eqn:E1; [reflexivity|].
    destruct ((c <? 0) || (c >=? 281474976710656)) eqn:E2; [reflexivity|].
    apply orb_false_elim in E1, E2. lia.
  - intros c u H. unfold make_virtual_offset.
    replace (u <? 0) with false by lia.
    replace (u >=? 65536) with false by lia.
    replace (c <? 0) with false by lia.
    replace (c >=? 281474976710656) with false by lia.
    reflexivity.
Qed.

(** The laws at work, on the offsets of the docstrings. *)
Lemma virtual_offset_laws_witness :
  (exists v, make_virtual_offset 18239 4 = Returns v
             /\ split_virtual_offset v = (18239, 4))
  /\ make_virtual_offset (fst (split_virtual_offset 1195311108))
                         (snd (split_virtual_offset 1195311108))
     = Returns 1195311108
  /\ 6553600010 < 1195311108 * 65536.
Proof.
  destruct virtual_offset_laws as (Hsplit & Hmake & Hmono).
  split; [apply Hsplit; lia|]. split; [apply Hmake; lia|].
  apply (Hmono 100000 10 1195311108 0); [reflexivity|reflexivity|lia].
Defined.

(** The range check at work. *)
Lemma make_virtual_offset_range_check_witness :
  make_virtual_offset (-1) 0 = Raises ValueError
  /\ make_virtual_offset 1 65535
     = Returns (Z.lor (Z.shiftl 1 16) 65535).
Proof.
  destruct make_virtual_offset_range_check as (Hbad & Hgood & _).
  split; [apply Hbad; lia|apply Hgood; lia].
Defined.

(** ** Bytes, runs of methods, and file handles *)

Import struct File.

Lemma Z_of_byte_of_Z z : 0 <= z < 256 -> Z_of_byte (byte_of_Z z) = z.
Proof.
  intros Hz. unfold Z_of_byte, byte_of_Z.
  destruct (Byte.of_N (Z.to_N z)) as [b|] eqn:E; simpl.
  - apply Byte.to_of_N in E. lia.
  - apply Byte.of_N_None_iff in E. lia.
Qed.

Lemma Z_of_byte_range b : 0 <= Z_of_byte b < 256.
Proof. unfold Z_of_byte. pose proof (Byte.to_N_bounded b). lia. Qed.

Lemma length_le_bytes n v : length (le_bytes n v) = n.
Proof. revert v. induction n; intros; simpl; [done|]. by rewrite IHn. Qed.

Lemma le_value_le_bytes n v :
  0 <= v < 256 ^ Z.of_nat n -> le_value (le_bytes n v) = v.
Proof.
  revert v. induction n as [|n IH]; intros v Hv.
  - simpl in *. lia.
  - cbn [le_bytes le_value].
    rewrite Nat2Z.inj_succ, Z.pow_succ_r in Hv by lia.
    rewrite Z_of_byte_of_Z by (apply Z.mod_pos_bound; lia).
    rewrite IH.
    + pose proof (Z.div_mod v 256 ltac:(lia)). lia.
    + split; [apply Z.div_pos; lia|]. apply Z.div_lt_upper_bound; lia.
Qed.


Lemma len_app {A} (a b : list A) : len (a ++ b) = len a + len b.
Proof. unfold len. rewrite length_app. lia. Qed.
Lemma len_nonneg {A} (a : list A) : 0 <= len a.
Proof. unfold len. lia. Qed.
Lemma len_nil_iff {A} (a : list A) : len a = 0 <-> a = [].
Proof. unfold len. destruct a; simpl; split; intros; try done; lia. Qed.

Section Run.
Context {S A B : Type}.
Lemma run_bind (m : M S A) (k : A -> M S B) s a s' :
  m s = Ok a s' -> (m ≫= k) s = k a s'.
Proof. intros H. unfold mbind, M_bind, bind. by rewrite H. Qed.
Lemma run_bind_raise (m : M S A) (k : A -> M S B) s e s' :
  m s = Raise e s' -> (m ≫= k) s = Raise e s'.
Proof. intros H. unfold mbind, M_bind, bind. by rewrite H. Qed.
Lemma bind_ok_inv (m : M S A) (k : A -> M S B) s b s'' :
  (m ≫= k) s = Ok b s'' -> exists a s', m s = Ok a s' /\ k a s' = Ok b s''.
Proof.
  unfold mbind, M_bind, bind. destruct (m s) as [a s'|e s']; [eauto|done].
Qed.
End Run.

Lemma read_step h x r n :
  closed h = false -> 0 <= position h -> rest h = x ++ r -> n = len x ->
  File.read n h = Ok x (set_position (position h + n) h)
  /\ rest (set_position (position h + n) h) = r.
Proof.
  intros Hc Hp Hr ->. unfold File.read, rest in *. rewrite Hc, Hr.
  replace (len x <? 0) with false by (pose proof (len_nonneg x); lia).
  assert (Z.to_nat (len x) = length x) as Hn by (unfold len; lia).
  rewrite Hn, take_app_length. split; [reflexivity|].
  simpl. rewrite Z2Nat.inj_add by (unfold len; lia).
  rewrite <- drop_drop, Hr, Hn. by rewrite drop_app_length.
Qed.

Lemma read_eof h n :
  closed h = false -> rest h = [] -> File.read n h = Ok [] h.
Proof.
  intros Hc Hr. unfold File.read, rest in *. rewrite Hc, Hr.
  rewrite take_nil.
  replace (if n <? 0 then [] else []) with ([] : bytes)
    by (by destruct (n <? 0)).
  destruct h; unfold set_position, len; simpl. do 2 f_equal. lia.
Qed.

Lemma write_at_end h data :
  at_end h -> File.write data h = Ok tt (append data h).
Proof.
  intros [Hc Hp]. unfold File.write, append. rewrite Hc.
  assert (Z.to_nat (position h) = length (content h)) as ->
    by (rewrite Hp; unfold len; lia).
  rewrite take_ge, drop_ge by lia.
  rewrite Nat.sub_diag. simpl. by rewrite app_nil_r.
Qed.

Lemma append_at_end h data : at_end h -> at_end (append data h).
Proof.
  intros [Hc Hp]. split; [done|]. simpl. rewrite len_app. lia.
Qed.

(** ** The block decoder on a block the writer built *)

Ltac solve_len :=
  unfold len; rewrite ?length_le_bytes; simpl; lia.

Ltac rd Hc :=
  lazymatch goal with
  | Hr : rest ?s = ?x ++ ?r |- context [(File.read ?n ≫= _) ?s] =>
      let Hrd := fresh "Hrd" in
      let Hr' := fresh "Hr" in
      destruct (read_step s x r n Hc ltac:(simpl; lia) Hr
                  ltac:(solve_len)) as [Hrd Hr'];
      rewrite (run_bind _ _ _ _ _ Hrd); clear Hrd Hr; cbv beta
  end.


Section DecodeFrame.
Context {zlib : Zlib} {laws : ZlibLaws zlib}.

Lemma unpack_H_le_bytes v :
  0 <= v <= 65535 -> unpack_H (le_bytes 2 v) = Returns v.
Proof.
  intros Hv. unfold unpack_H. rewrite length_le_bytes.
  rewrite bool_decide_eq_true_2 by done.
  rewrite le_value_le_bytes; [done|]. simpl. lia.
Qed.

Lemma unpack_I_le_bytes v :
  0 <= v <= 4294967295 -> unpack_I (le_bytes 4 v) = Returns v.
Proof.
  intros Hv. unfold unpack_I. rewrite length_le_bytes.
  rewrite bool_decide_eq_true_2 by done.
  rewrite le_value_le_bytes; [done|]. simpl. lia.
Qed.

Lemma land_mask32 v :
  Z.land v 4294967295 = v mod 4294967296.
Proof. change 4294967295 with (Z.ones 32). by rewrite Z.land_ones. Qed.

(** The bytes the decoder compares the stored CRC with. *)
Lemma crc_bytes_agree data :
  (if crc32 data <? 0 then pack_i (crc32 data) else pack_I (crc32 data))
  = Returns (le_bytes 4 (Z.land (crc32 data) 4294967295)).
Proof.
  pose proof (crc32_range data) as Hr. rewrite land_mask32.
  destruct (crc32 data <? 0) eqn:E;
    [apply Z.ltb_lt in E|apply Z.ltb_ge in E].
  - unfold pack_i.
    replace (-2147483648 <=? crc32 data) with true by lia.
    replace (crc32 data <=? 2147483647) with true by lia. done.
  - unfold pack_I.
    replace (0 <=? crc32 data) with true by lia.
    replace (crc32 data <=? 4294967295) with true by lia.
    rewrite Z.mod_small by lia. done.
Qed.

Lemma run_lift {S A B} (r : result A) (k : A -> M S B) s v :
  r = Returns v -> (lift r ≫= k) s = k v s.
Proof. by intros ->. Qed.

Lemma run_assert {S B} (b : bool) (k : unit -> M S B) s :
  b = true -> (assert_ b ≫= k) s = k tt s.
Proof. by intros ->. Qed.

Lemma set_position_twice p q h :
  set_position p (set_position q h) = set_position p h.
Proof. reflexivity. Qed.
Lemma position_set_position p h : position (set_position p h) = p.
Proof. reflexivity. Qed.

(** The extra area the writer emits: one [BC] subfield. *)
Lemma subfields_BC fuel h v r :
  closed h = false -> 0 <= position h -> 0 <= v <= 65535 ->
  rest h = [x42; x43] ++ [x02; x00] ++ le_bytes 2 v ++ r ->
  subfields (S fuel) 6 0 None h
  = Ok (6, Some (v + 1)) (set_position (position h + 6) h)
  /\ rest (set_position (position h + 6) h) = r.
Proof.
  intros Hc Hp Hv Hr. cbn [subfields].
  change (0 <? 6) with true. cbv iota.
  rd Hc. rd Hc.
  rewrite (run_lift _ _ _ 2 eq_refl).
  rd Hc.
  change (bytes_eqb [x42; x43] _bytes_BC) with true. cbv iota.
  rewrite run_assert by done.
  rewrite run_assert by done.
  rewrite (run_lift _ _ _ _ (unpack_H_le_bytes v Hv)).
  destruct fuel; cbn [subfields]; change (0 + (2 + 4) <? 6) with false;
    cbv iota; rewrite ?set_position_twice, ?position_set_position in *;
    replace (position h + 2 + 2 + 2) with (position h + 6) in * by lia;
    done.
Qed.

Lemma decode_frame text h c block post :
  closed h = false -> 0 <= position h ->
  rest h = block_frame c block ++ post ->
  decompress c = Returns block ->
  len c + 25 <= 65535 -> len block <= 4294967295 ->
  _load_bgzf_block text h
  = Ok (len c + 26, block) (set_position (position h + (len c + 26)) h)
  /\ rest (set_position (position h + (len c + 26)) h) = post.
Proof.
  intros Hc Hp Hr Hd Hlc Hlb.
  pose proof (len_nonneg c) as Hc0. pose proof (len_nonneg block) as Hb0.
  set (bsize := le_bytes 2 (len c + 25)) in *.
  set (crc := le_bytes 4 (Z.land (crc32 block) 4294967295)) in *.
  set (isize := le_bytes 4 (len block)) in *.
  assert (rest h = [x1f; x8b; x08; x04] ++ [x00; x00; x00; x00] ++ [x00]
                   ++ [xff] ++ [x06; x00] ++ [x42; x43] ++ [x02; x00]
                   ++ bsize ++ c ++ crc ++ isize ++ post) as Hr0.
  { rewrite Hr. unfold block_frame. fold bsize crc isize.
    rewrite <- !app_assoc. reflexivity. }
  clear Hr. unfold _load_bgzf_block.
  rd Hc.
  rewrite bool_decide_eq_false_2 by done.
  change (bytes_eqb [x1f; x8b; x08; x04] _bgzf_magic) with true.
  cbv iota beta delta [negb].
  rd Hc. rd Hc. rd Hc. rd Hc.
  rewrite (run_lift _ _ _ 6 eq_refl).
  change (Z.to_nat 6) with 6%nat.
  lazymatch goal with
  | Hr : rest ?s = _ |- _ =>
      destruct (subfields_BC 5 s (len c + 25) _ Hc ltac:(simpl; lia)
                  ltac:(lia) Hr) as [Hsub Hr']; clear Hr
  end.
  rewrite (run_bind _ _ _ _ _ Hsub). clear Hsub. cbv beta iota.
  rewrite run_assert by done.
  replace (len c + 25 + 1 - 1 - 6 - 19) with (len c) by lia.
  rd Hc.
  rewrite (run_lift _ _ _ _ Hd).
  rd Hc. rd Hc.
  rewrite (run_lift _ _ _ _ (unpack_I_le_bytes (len block) ltac:(lia))).
  rewrite run_assert by lia.
  rewrite (run_lift _ _ _ _ (crc_bytes_agree _)).
  rewrite run_assert by (by apply bool_decide_eq_true_2).
  rewrite ?set_position_twice, ?position_set_position in *.
  replace (position h + 4 + 4 + 1 + 1 + 2 + 6 + len c + 4 + 4)
    with (position h + (len c + 26)) in * by lia.
  replace (len c + 25 + 1) with (len c + 26) by lia.
  split; [by destruct text|done].
Qed.

Lemma bgzf_eof_frame : _bgzf_eof = block_frame [x03; x00] [].
Proof.
  unfold block_frame. rewrite crc32_empty. reflexivity.
Qed.

Lemma decode_eof text h :
  closed h = false -> 0 <= position h ->
  rest h = [] ->
  _load_bgzf_block text h = Raise StopIteration h.
Proof.
  intros Hc Hp Hr. unfold _load_bgzf_block.
  rewrite (run_bind _ _ _ _ _ (read_eof h 4 Hc Hr)). done.
Qed.

End DecodeFrame.

(** ** Cutting a byte sequence into blocks *)

Section Chunks.

Lemma slice_0 {A} (l : list A) n : slice l 0 n = take (Z.to_nat n) l.
Proof.
  unfold slice. change (Z.to_nat 0) with 0%nat.
  by rewrite Nat.sub_0_r, drop_0.
Qed.

Lemma slice_slice_from {A} (l : list A) n :
  slice l 0 n ++ slice_from l n = l.
Proof. rewrite slice_0. apply take_drop. Qed.

Lemma len_slice_from_block (b : bytes) :
  65536 <= len b -> len (slice_from b 65536) = len b - 65536.
Proof. unfold slice_from, len. rewrite length_drop. lia. Qed.

Lemma len_slice_block (b : bytes) :
  65536 <= len b -> len (slice b 0 65536) = 65536.
Proof. rewrite slice_0. unfold len. rewrite length_take. lia. Qed.

Lemma length_slice_from_lt (b : bytes) :
  65536 <= len b -> (length (slice_from b 65536) < length b)%nat.
Proof. unfold slice_from, len. rewrite length_drop. lia. Qed.

Lemma full_chunks_fuel f1 f2 b :
  (length b <= f1)%nat -> (length b <= f2)%nat ->
  full_chunks f1 b = full_chunks f2 b.
Proof.
  revert f2 b. induction f1 as [|f1 IH]; intros f2 b H1 H2.
  - destruct b; [|simpl in H1; lia].
    destruct f2; [done|]. done.
  - destruct f2 as [|f2].
    + destruct b; [done|simpl in H2; lia].
    + cbn [full_chunks]. destruct (len b >=? 65536) eqn:E; [|done].
      apply Z.geb_le in E. pose proof (length_slice_from_lt b E).
      f_equal. apply IH; lia.
Qed.

Lemma remainder_fuel f1 f2 b :
  (length b <= f1)%nat -> (length b <= f2)%nat ->
  remainder f1 b = remainder f2 b.
Proof.
  revert f2 b. induction f1 as [|f1 IH]; intros f2 b H1 H2.
  - destruct b; [|simpl in H1; lia].
    destruct f2; [done|]. done.
  - destruct f2 as [|f2].
    + destruct b; [done|simpl in H2; lia].
    + cbn [remainder]. destruct (len b >=? 65536) eqn:E; [|done].
      apply Z.geb_le in E. pose proof (length_slice_from_lt b E).
      apply IH; lia.
Qed.

Lemma chunks_remainder fuel b :
  concat (full_chunks fuel b) ++ remainder fuel b = b.
Proof.
  revert b. induction fuel as [|fuel IH]; intros b; [done|].
  cbn [full_chunks remainder]. destruct (len b >=? 65536); [|done].
  cbn [concat]. rewrite <- app_assoc, IH. apply slice_slice_from.
Qed.

Lemma remainder_small fuel b :
  (length b <= fuel)%nat -> len (remainder fuel b) < 65536.
Proof.
  revert b. induction fuel as [|fuel IH]; intros b Hf.
  - destruct b; [done|simpl in Hf; lia].
  - cbn [remainder]. destruct (len b >=? 65536) eqn:E.
    + apply Z.geb_le in E. pose proof (length_slice_from_lt b E).
      apply IH. lia.
    + rewrite Z.geb_leb in E. apply Z.leb_gt in E. lia.
Qed.

Lemma full_chunks_len fuel b :
  Forall (fun x => len x = 65536) (full_chunks fuel b).
Proof.
  revert b. induction fuel as [|fuel IH]; intros b; [constructor|].
  cbn [full_chunks]. destruct (len b >=? 65536) eqn:E; [|constructor].
  apply Z.geb_le in E. constructor; [by apply len_slice_block|apply IH].
Qed.

Lemma chunks_app n m k d r :
  (length d <= n)%nat -> (length (d ++ r) <= m)%nat ->
  (length (remainder n d ++ r) <= k)%nat ->
  full_chunks m (d ++ r)
  = full_chunks n d ++ full_chunks k (remainder n d ++ r)
  /\ remainder m (d ++ r) = remainder k (remainder n d ++ r).
Proof.
  revert m k d. induction n as [|n IH]; intros m k d Hn Hm Hk.
  - destruct d; [|simpl in Hn; lia]. simpl in *.
    split; [by apply full_chunks_fuel|by apply remainder_fuel].
  - cbn [full_chunks remainder] in *.
    destruct (len d >=? 65536) eqn:E.
    + apply Z.geb_le in E. pose proof (length_slice_from_lt d E) as Hlt.
      assert (65536 <= len (d ++ r)) as E'
        by (rewrite len_app; pose proof (len_nonneg r); lia).
      destruct m as [|m];
        [unfold len in E'; lia|].
      cbn [full_chunks remainder].
      replace (len (d ++ r) >=? 65536) with true by lia.
      assert (slice (d ++ r) 0 65536 = slice d 0 65536) as ->.
      { rewrite !slice_0. apply take_app_le. unfold len in E. lia. }
      assert (slice_from (d ++ r) 65536 = slice_from d 65536 ++ r) as Hd.
      { unfold slice_from. apply drop_app_le. unfold len in E. lia. }
      rewrite Hd.
      destruct (IH m k (slice_from d 65536)) as [H1 H2]; [lia| |done|].
      * rewrite <- Hd.
        pose proof (length_slice_from_lt (d ++ r) E'). lia.
      * rewrite H1, H2. done.
    + simpl. split; [by apply full_chunks_fuel|by apply remainder_fuel].
Qed.

Lemma blocks_of_concat b : concat (blocks_of b) = b.
Proof.
  unfold blocks_of. rewrite concat_app.
  etransitivity; [|apply (chunks_remainder (length b) b)]. f_equal.
  unfold last_block. case_bool_decide as E; [by rewrite E|].
  simpl. by rewrite app_nil_r.
Qed.

Lemma blocks_of_nonempty b : Forall (fun x => x <> []) (blocks_of b).
Proof.
  unfold blocks_of. apply Forall_app. split.
  - eapply Forall_impl; [apply full_chunks_len|].
    intros x Hx ->. done.
  - unfold last_block. case_bool_decide; [constructor|].
    by repeat constructor.
Qed.

Lemma blocks_of_len b : Forall (fun x => len x <= 65536) (blocks_of b).
Proof.
  unfold blocks_of. apply Forall_app. split.
  - eapply Forall_impl; [apply full_chunks_len|]. simpl. lia.
  - unfold last_block. case_bool_decide; [constructor|].
    repeat constructor.
    pose proof (remainder_small (length b) b). lia.
Qed.

End Chunks.

(** ** The writer *)

Ltac wsimpl :=
  cbn [BgzfWriter.set_buffer BgzfWriter.set_handle BgzfWriter._handle
       BgzfWriter._buffer BgzfWriter.compresslevel BgzfWriter._text] in *.

Section Writer.

Context {zlib : Zlib} {laws : ZlibLaws zlib}.
Import BgzfWriter.


Lemma set_handle_same w : set_handle (_handle w) w = w.
Proof. by destruct w. Qed.

Lemma pack_H_ok v : 0 <= v <= 65535 -> pack_H v = Returns (le_bytes 2 v).
Proof.
  intros Hv. unfold pack_H.
  replace (0 <=? v) with true by lia. by replace (v <=? 65535) with true by lia.
Qed.
Lemma pack_H_error v : 65535 < v -> pack_H v = Raises StructError.
Proof.
  intros Hv. unfold pack_H.
  replace (v <=? 65535) with false by lia. by rewrite andb_false_r.
Qed.
Lemma pack_I_ok v : 0 <= v <= 4294967295 -> pack_I v = Returns (le_bytes 4 v).
Proof.
  intros Hv. unfold pack_I.
  replace (0 <=? v) with true by lia.
  by replace (v <=? 4294967295) with true by lia.
Qed.

Lemma run_lift_raise {S A B} (r : result A) (k : A -> M S B) s e :
  r = Raises e -> (lift r ≫= k) s = Raise e s.
Proof. by intros ->. Qed.
Lemma run_assert_fail {S B} (b : bool) (k : unit -> M S B) s :
  b = false -> (assert_ b ≫= k) s = Raise AssertionError s.
Proof. by intros ->. Qed.
Lemma run_get {S B} (k : S -> M S B) s : (get ≫= k) s = k s s.
Proof. done. Qed.
Lemma run_modify {S B} (f : S -> S) (k : unit -> M S B) s :
  (modify f ≫= k) s = k tt (f s).
Proof. done. Qed.

(** What [_write_block] does on an open sink positioned at its end. *)
Lemma write_block_char block w :
  at_end (_handle w) ->
  _write_block block w =
  if len block <=? 65536 then
    match compress (compresslevel w) block with
    | Returns c =>
        if len c <? 65536 then
          if len c + 25 <=? 65535 then
            Ok tt (set_handle (append (block_frame c block) (_handle w)) w)
          else Raise StructError w
        else Raise AssertionError w
    | Raises e => Raise e w
    end
  else Raise AssertionError w.
Proof.
  intros Hend. pose proof Hend as [Hc Hp]. unfold _write_block.
  assert (on_handle File.tell w = Ok (position (_handle w)) w) as Htell.
  { unfold on_handle, File.tell. rewrite Hc. by rewrite set_handle_same. }
  rewrite (run_bind _ _ _ _ _ Htell).
  destruct (len block <=? 65536) eqn:Hlb;
    [rewrite run_assert by done|by rewrite run_assert_fail].
  rewrite run_get.
  destruct (compress (compresslevel w) block) as [c|e] eqn:Hcomp;
    [rewrite (run_lift _ _ _ c eq_refl)|by rewrite (run_lift_raise _ _ _ e)].
  destruct (len c <? 65536) eqn:Hlc;
    [rewrite run_assert by done|by rewrite run_assert_fail].
  rewrite (run_lift _ _ _ _ (crc_bytes_agree block)).
  pose proof (len_nonneg c). pose proof (len_nonneg block).
  destruct (len c + 25 <=? 65535) eqn:Hbs;
    [apply Z.leb_le in Hbs|apply Z.leb_gt in Hbs].
  - apply Z.leb_le in Hlb.
    rewrite (run_lift _ _ _ _ (pack_H_ok (len c + 25) ltac:(lia))).
    assert (0 <= Z.land (crc32 block) 4294967295 <= 4294967295) as Hcrc.
    { rewrite land_mask32.
      pose proof (Z.mod_pos_bound (crc32 block) 4294967296). lia. }
    rewrite (run_lift _ _ _ _ (pack_I_ok _ Hcrc)).
    rewrite (run_lift _ _ _ _ (pack_I_ok (len block) ltac:(lia))).
    unfold on_handle. rewrite (write_at_end _ _ Hend). done.
  - by rewrite (run_lift_raise _ _ _ _ (pack_H_error (len c + 25) Hbs)).
Qed.


Lemma append_nil h : append [] h = h.
Proof.
  destruct h. unfold append, set_position, set_content, len. simpl.
  f_equal; [apply app_nil_r|lia].
Qed.

Lemma append_app x y h : append (x ++ y) h = append y (append x h).
Proof.
  unfold append, set_position, set_content. simpl.
  rewrite len_app. f_equal; [by rewrite app_assoc|lia].
Qed.

Lemma write_block_fits b w :
  at_end (_handle w) -> fits (compresslevel w) b -> len b <= 65536 ->
  _write_block b w
  = Ok tt (set_handle (append (encode_block (compresslevel w) b)
                              (_handle w)) w).
Proof.
  intros Hend (c & Hc & Hlen) Hb. rewrite write_block_char by done.
  unfold encode_block, deflated. rewrite Hc.
  replace (len b <=? 65536) with true by lia.
  replace (len c <? 65536) with true by lia.
  by replace (len c + 25 <=? 65535) with true by lia.
Qed.

Lemma write_loop_run fuel w :
  at_end (_handle w) -> (length (_buffer w) <= fuel)%nat ->
  Forall (fits (compresslevel w)) (full_chunks fuel (_buffer w)) ->
  write_loop fuel w
  = Ok tt (set_buffer (remainder fuel (_buffer w))
             (set_handle
                (append (encode_blocks (compresslevel w)
                           (full_chunks fuel (_buffer w))) (_handle w)) w)).
Proof.
  revert w. induction fuel as [|fuel IH]; intros w Hend Hf Hfit.
  - destruct w as [tx h buf lvl]. simpl in *.
    destruct buf; [|simpl in Hf; lia].
    wsimpl. cbn [full_chunks remainder encode_blocks map concat].
    by rewrite append_nil.
  - cbn [write_loop full_chunks remainder] in *. rewrite run_get.
    destruct (len (_buffer w) >=? 65536) eqn:E.
    + apply Z.geb_le in E. apply Forall_cons in Hfit as [Hfit1 Hfit].
      rewrite (run_bind _ _ _ _ _
                 (write_block_fits _ w Hend Hfit1
                    ltac:(rewrite len_slice_block; lia))).
      rewrite run_get, run_modify.
      pose proof (length_slice_from_lt _ E).
      rewrite IH.
      * destruct w as [tx h buf lvl]. wsimpl. unfold encode_blocks.
        cbn [map concat]. by rewrite append_app.
      * by apply append_at_end.
      * simpl. lia.
      * done.
    + destruct w as [tx h buf lvl]. wsimpl.
      cbn [encode_blocks map concat]. by rewrite append_nil.
Qed.

Lemma write_run data w :
  at_end (_handle w) ->
  let d := _buffer w ++ data in
  Forall (fits (compresslevel w)) (full_chunks (length d) d) ->
  write data w
  = Ok tt (set_buffer (remainder (length d) d)
             (set_handle
                (append (encode_blocks (compresslevel w)
                           (full_chunks (length d) d)) (_handle w)) w)).
Proof.
  intros Hend d Hfit. unfold write, _as_bytes. rewrite run_get.
  fold (len (_buffer w) + len data). rewrite <- len_app. fold d.
  destruct (len d <? 65536) eqn:E.
  - apply Z.ltb_lt in E.
    assert (full_chunks (length d) d = []) as ->.
    { destruct (length d); [done|]. cbn [full_chunks].
      by replace (len d >=? 65536) with false by lia. }
    assert (remainder (length d) d = d) as ->.
    { destruct (length d); [done|]. cbn [remainder].
      by replace (len d >=? 65536) with false by lia. }
    destruct w as [tx h buf lvl]. wsimpl.
    cbn [encode_blocks map concat]. rewrite append_nil. done.
  - rewrite run_modify, run_get. cbn [_buffer set_buffer]. fold d.
    rewrite write_loop_run; [|done|done|done].
    by destruct w.
Qed.


Lemma write_all_run datas w :
  at_end (_handle w) -> len (_buffer w) < 65536 ->
  let d := _buffer w ++ concat datas in
  Forall (fits (compresslevel w)) (full_chunks (length d) d) ->
  write_all datas w
  = Ok tt (set_buffer (remainder (length d) d)
             (set_handle
                (append (encode_blocks (compresslevel w)
                           (full_chunks (length d) d)) (_handle w)) w)).
Proof.
  revert w. induction datas as [|x datas IH]; intros w Hend Hb d Hfit.
  - subst d. cbn [concat] in *. rewrite app_nil_r in *.
    assert (full_chunks (length (_buffer w)) (_buffer w) = []) as ->.
    { destruct (length (_buffer w)); [done|]. cbn [full_chunks].
      by replace (len (_buffer w) >=? 65536) with false by lia. }
    assert (remainder (length (_buffer w)) (_buffer w) = _buffer w) as ->.
    { destruct (length (_buffer w)); [done|]. cbn [remainder].
      by replace (len (_buffer w) >=? 65536) with false by lia. }
    destruct w. wsimpl. cbn [encode_blocks map concat write_all].
    by rewrite append_nil.
  - cbn [write_all concat] in *.
    set (d1 := _buffer w ++ x).
    destruct (chunks_app (length d1) (length d)
                (length (remainder (length d1) d1 ++ concat datas))
                d1 (concat datas)) as [Hch Hrem]; [done| |done|].
    { subst d d1. by rewrite app_assoc. }
    assert (d = d1 ++ concat datas) as Hd
      by (subst d d1; by rewrite app_assoc).
    rewrite <- Hd in Hch, Hrem. rewrite Hch in Hfit.
    apply Forall_app in Hfit as [Hfit1 Hfit2].
    rewrite (run_bind _ _ _ _ _ (write_run x w Hend Hfit1)). fold d1.
    rewrite IH; wsimpl.
    + rewrite Hch, Hrem. unfold encode_blocks.
      rewrite map_app, concat_app, append_app. by destruct w.
    + by apply append_at_end.
    + by apply remainder_small.
    + done.
Qed.

Lemma flush_loop_small fuel w :
  len (_buffer w) < 65536 -> flush_loop fuel w = Ok tt w.
Proof.
  intros Hb. destruct fuel; cbn [flush_loop]; rewrite run_get;
    by replace (len (_buffer w) >=? 65536) with false by lia.
Qed.

Lemma on_handle_write data w :
  at_end (_handle w) ->
  on_handle (File.write data) w
  = Ok tt (set_handle (append data (_handle w)) w).
Proof. intros Hend. unfold on_handle. by rewrite write_at_end. Qed.

Lemma on_handle_flush w :
  closed (_handle w) = false -> on_handle File.flush w = Ok tt w.
Proof.
  intros Hc. unfold on_handle, File.flush. rewrite Hc.
  by rewrite set_handle_same.
Qed.

Lemma flush_run w :
  at_end (_handle w) -> len (_buffer w) < 65536 ->
  fits (compresslevel w) (_buffer w) ->
  flush w
  = Ok tt (set_buffer []
             (set_handle (append (encode_block (compresslevel w) (_buffer w))
                            (_handle w)) w)).
Proof.
  intros Hend Hb Hfit. unfold flush. rewrite run_get.
  rewrite (run_bind _ _ _ _ _ (flush_loop_small _ w Hb)), run_get.
  rewrite (run_bind _ _ _ _ _ (write_block_fits _ w Hend Hfit ltac:(lia))).
  rewrite run_modify. rewrite on_handle_flush; [done|].
  wsimpl. by destruct Hend.
Qed.

Lemma close_run w :
  at_end (_handle w) -> len (_buffer w) < 65536 ->
  Forall (fits (compresslevel w)) (last_block (_buffer w)) ->
  close w
  = Ok tt (set_buffer []
             (set_handle
                (set_closed true
                   (append (encode_blocks (compresslevel w)
                              (last_block (_buffer w)) ++ _bgzf_eof)
                      (_handle w))) w)).
Proof.
  intros Hend Hb Hfit. unfold close, last_block in *. rewrite run_get.
  assert (forall w1 : t, at_end (_handle w1) ->
            (on_handle (File.write _bgzf_eof);; on_handle File.flush;;
             on_handle File.close) w1
            = Ok tt (set_handle
                       (set_closed true (append _bgzf_eof (_handle w1)))
                       w1)) as Htail.
  { intros w1 H1.
    rewrite (run_bind _ _ _ _ _ (on_handle_write _ w1 H1)).
    rewrite (run_bind _ _ _ _ _
               (on_handle_flush
                  (set_handle (append _bgzf_eof (_handle w1)) w1)
                  (proj1 (append_at_end _ _bgzf_eof H1)))).
    done. }
  case_bool_decide as E; cbn [negb].
  - rewrite (run_bind (ret tt) _ _ _ _ eq_refl).
    rewrite Htail by done. cbn [encode_blocks map concat app].
    destruct w. wsimpl. by subst.
  - apply Forall_cons in Hfit as [Hfit _].
    rewrite (run_bind _ _ _ _ _ (flush_run w Hend Hb Hfit)).
    rewrite Htail by (by apply append_at_end).
    wsimpl. unfold encode_blocks. cbn [map concat].
    rewrite app_nil_r, append_app. done.
Qed.

End Writer.

(** ** Decoding what a writer wrote *)

Section DecodeStream.
Context {zlib : Zlib} {laws : ZlibLaws zlib}.

Lemma tell_open h : closed h = false -> File.tell h = Ok (position h) h.
Proof. intros Hc. unfold File.tell. by rewrite Hc. Qed.

Lemma load_blocks_eof fuel h :
  closed h = false -> 0 <= position h -> rest h = [] ->
  load_blocks fuel h = Ok [] h.
Proof.
  intros Hc Hp Hr.
  destruct fuel; cbn [load_blocks]; rewrite (tell_open h Hc);
    by rewrite (decode_eof false h Hc Hp Hr).
Qed.

Lemma fits_decompress level b :
  fits level b ->
  decompress (deflated level b) = Returns b
  /\ len (deflated level b) + 25 <= 65535.
Proof.
  intros (c & Hc & Hlen). unfold deflated. rewrite Hc.
  split; [by eapply decompress_compress|lia].
Qed.

Lemma len_block_frame c b : len (block_frame c b) = len c + 26.
Proof.
  unfold block_frame. rewrite !len_app. unfold len.
  rewrite !length_le_bytes. simpl. lia.
Qed.

Lemma len_encode_blocks_cons level b bs :
  len (encode_blocks level (b :: bs))
  = len (deflated level b) + 26 + len (encode_blocks level bs).
Proof.
  unfold encode_blocks. cbn [map concat]. rewrite len_app.
  unfold encode_block. by rewrite len_block_frame.
Qed.

Lemma load_blocks_run level bs fuel h :
  closed h = false -> 0 <= position h ->
  rest h = encode_blocks level bs ++ _bgzf_eof ->
  Forall (fits level) bs -> Forall (fun b => len b <= 65536) bs ->
  (length bs < fuel)%nat ->
  load_blocks fuel h
  = Ok (entries_from level (position h) bs)
       (set_position (position h + (len (encode_blocks level bs) + 28)) h).
Proof.
  revert fuel h. induction bs as [|b bs IH];
    intros fuel h Hc Hp Hr Hfit Hlen Hfuel.
  - destruct fuel as [|fuel]; [simpl in Hfuel; lia|].
    cbn [load_blocks entries_from]. rewrite (tell_open h Hc).
    cbn [encode_blocks map concat app] in Hr. rewrite bgzf_eof_frame in Hr.
    rewrite <- (app_nil_r (block_frame _ _)) in Hr.
    destruct (decode_frame false h _ _ _ Hc Hp Hr decompress_empty_fixed)
      as [Hd Hr']; [done..|].
    rewrite Hd. change (len [x03; x00] + 26) with 28 in *.
    rewrite (run_bind _ _ _ _ _
               (load_blocks_eof fuel (set_position (position h + 28) h)
                  Hc ltac:(simpl; lia) Hr')).
    done.
  - destruct fuel as [|fuel]; [simpl in Hfuel; lia|].
    apply Forall_cons in Hfit as [Hfit1 Hfit].
    apply Forall_cons in Hlen as [Hlen1 Hlen].
    destruct (fits_decompress _ _ Hfit1) as [Hdec Hsz].
    cbn [load_blocks entries_from]. rewrite (tell_open h Hc).
    unfold encode_blocks in Hr. cbn [map concat] in Hr.
    rewrite <- app_assoc in Hr. fold (encode_blocks level bs) in Hr.
    assert (len b <= 4294967295) as Hb32 by (cbv beta in Hlen1; lia).
    destruct (decode_frame false h _ _ _ Hc Hp Hr Hdec Hsz Hb32)
      as [Hd Hr'].
    rewrite Hd.
    pose proof (len_nonneg (deflated level b)).
    assert (0 <= position h + (len (deflated level b) + 26)) as Hp' by lia.
    assert (length bs < fuel)%nat as Hfuel' by (simpl in Hfuel; lia).
    rewrite (run_bind _ _ _ _ _
               (IH fuel (set_position
                           (position h + (len (deflated level b) + 26)) h)
                  Hc Hp' Hr' Hfit Hlen Hfuel')).
    rewrite len_encode_blocks_cons, set_position_twice,
      position_set_position.
    unfold mret, M_ret, ret. do 2 f_equal. lia.
Qed.

Lemma entries_from_data level p bs :
  map snd (entries_from level p bs) = bs ++ [[]].
Proof.
  revert p. induction bs as [|b bs IH]; intros p; [done|].
  cbn [entries_from map app]. by rewrite IH.
Qed.

End DecodeStream.

(** ** The stored-block instance of zlib is lawful *)

Section Stored.
Import StoredZlib.

Lemma length_stored_block final b :
  length (stored_block final b) = (5 + length b)%nat.
Proof.
  unfold stored_block. cbn [length]. rewrite !length_app, !length_le_bytes.
  lia.
Qed.

Lemma length_deflate_stored fuel b :
  (length b + 5 <= length (deflate_stored fuel b))%nat.
Proof.
  revert b. induction fuel as [|fuel IH]; intros b; cbn [deflate_stored].
  - rewrite length_stored_block. lia.
  - destruct (len b <=? 65535) eqn:E.
    + rewrite length_stored_block. lia.
    + apply Z.leb_gt in E. rewrite length_app, length_stored_block.
      specialize (IH (slice_from b 65535)).
      rewrite slice_0, length_take. unfold slice_from in *.
      rewrite length_drop in IH. unfold len in E. lia.
Qed.

Lemma inflate_stored_block_final fuel b :
  len b <= 65535 ->
  inflate_stored fuel (stored_block true b) = Returns b.
Proof.
  intros Hb. pose proof (len_nonneg b).
  assert (inflate_stored fuel
            (x01 :: le_bytes 2 (len b) ++ le_bytes 2 (65535 - len b) ++ b)
          = Returns b); [|done].
  pose proof (le_value_le_bytes 2 (len b) ltac:(simpl; lia)) as H1.
  pose proof (le_value_le_bytes 2 (65535 - len b) ltac:(simpl; lia)) as H2.
  cbn [le_bytes app] in *.
  destruct fuel; cbn [inflate_stored]; rewrite H1, H2;
    replace (65535 - len b =? 65535 - len b) with true by lia;
    replace (len b <? len b) with false by lia; cbn [negb];
    rewrite bool_decide_eq_true_2 by done;
    rewrite slice_0; unfold len; rewrite Nat2Z.id; by rewrite firstn_all.
Qed.

Lemma inflate_stored_block_more fuel b s :
  len b = 65535 ->
  inflate_stored (S fuel) (stored_block false b ++ s)
  = match inflate_stored fuel s with
    | Returns d => Returns (b ++ d)
    | Raises e => Raises e
    end.
Proof.
  intros Hb.
  assert (inflate_stored (S fuel)
            (x00 :: le_bytes 2 (len b)
                 ++ le_bytes 2 (65535 - len b) ++ b ++ s)
          = match inflate_stored fuel s with
            | Returns d => Returns (b ++ d)
            | Raises e => Raises e
            end) as Hgoal.
  { pose proof (le_value_le_bytes 2 (len b) ltac:(simpl; lia)) as H1.
    pose proof (le_value_le_bytes 2 (65535 - len b) ltac:(simpl; lia)) as H2.
    cbn [le_bytes app] in *. cbn [inflate_stored]. rewrite H1, H2.
    replace (65535 - len b =? 65535 - len b) with true by lia.
    replace (len (b ++ s) <? len b) with false
      by (rewrite len_app; pose proof (len_nonneg s); lia).
    cbn [negb]. rewrite bool_decide_eq_false_2 by done.
    rewrite bool_decide_eq_true_2 by done.
    rewrite slice_0. unfold slice_from, len.
    rewrite Nat2Z.id, take_app_length, drop_app_length. done. }
  rewrite <- Hgoal. unfold stored_block.
  cbn [app]. by rewrite <- !app_assoc.
Qed.

Lemma inflate_deflate_stored fuel fuel' b :
  (length b <= fuel)%nat -> (length b <= fuel')%nat ->
  inflate_stored fuel' (deflate_stored fuel b) = Returns b.
Proof.
  revert fuel' b. induction fuel as [|fuel IH]; intros fuel' b Hf Hf'.
  - destruct b; [|simpl in Hf; lia]. by apply inflate_stored_block_final.
  - cbn [deflate_stored]. destruct (len b <=? 65535) eqn:E.
    + apply Z.leb_le in E. by apply inflate_stored_block_final.
    + apply Z.leb_gt in E.
      destruct fuel' as [|fuel']; [unfold len in E; lia|].
      assert (len (slice b 0 65535) = 65535) as Hl.
      { rewrite slice_0. unfold len in *. rewrite length_take. lia. }
      rewrite inflate_stored_block_more by done.
      rewrite IH.
      * by rewrite slice_slice_from.
      * unfold slice_from, len in *. rewrite length_drop. lia.
      * unfold slice_from, len in *. rewrite length_drop. lia.
Qed.

Lemma inflate_stored_raises fuel s e :
  inflate_stored fuel s = Raises e -> e = ZlibError.
Proof.
  revert s. induction fuel as [|fuel IH]; intros s;
    destruct s as [|hdr [|l0 [|l1 [|n0 [|n1 s]]]]];
    cbn [inflate_stored]; try (by intros [= <-]);
    repeat (case_match; try (by intros [= <-]); try done).
  intros [= <-]. by eapply IH.
Qed.

Lemma stored_zlib_laws : ZlibLaws StoredZlib.zlib.
Proof.
  split.
  - intros level b c. cbn [compress decompress zlib]. unfold deflate.
    destruct ((-1 <=? level) && (level <=? 9)); [|done].
    intros [= <-]. unfold inflate.
    pose proof (length_deflate_stored (length b) b) as Hlen.
    rewrite bool_decide_eq_false_2.
    + apply inflate_deflate_stored; lia.
    + intros Heq. rewrite Heq in Hlen. simpl in Hlen. lia.
  - reflexivity.
  - intros b. cbn [crc32 zlib]. unfold crc32_signed, crc32_unsigned.
    match goal with
    | |- context [?x mod 4294967296] =>
        pose proof (Z.mod_pos_bound x 4294967296 ltac:(lia))
    end.
    destruct (_ >=? _) eqn:E; lia.
  - reflexivity.
  - intros level b e. cbn [compress zlib]. unfold deflate.
    by destruct ((-1 <=? level) && (level <=? 9)); [|intros [= <-]].
  - intros b e. cbn [decompress zlib]. unfold inflate.
    case_bool_decide; [done|]. apply inflate_stored_raises.
Qed.

End Stored.

(** ** C1: what a writer wrote decodes to what it was fed *)

Section RoundTrip.

Context {zlib : Zlib} {laws : ZlibLaws zlib}.

Lemma length_encode_blocks level bs :
  (length bs <= length (encode_blocks level bs))%nat.
Proof.
  induction bs as [|b bs IH]; [done|].
  pose proof (len_encode_blocks_cons level b bs) as H.
  pose proof (len_nonneg (deflated level b)).
  unfold len in *. cbn [length]. lia.
Qed.

Lemma entries_from_last level p bs :
  exists blocks,
    entries_from level p bs
    = blocks ++ [(p + len (encode_blocks level bs), 28, [])]
    /\ map snd blocks = bs.
Proof.
  revert p. induction bs as [|b bs IH]; intros p.
  - exists []. split; [|done]. cbn [entries_from app].
    change (len (encode_blocks level [])) with 0. by rewrite Z.add_0_r.
  - destruct (IH (p + (len (deflated level b) + 26)))
      as (blocks & Hb & <-).
    eexists ((_, _, b) :: blocks). split; [|done].
    cbn [entries_from app]. rewrite Hb, len_encode_blocks_cons.
    rewrite !Z.add_assoc. reflexivity.
Qed.

(** A handle opened for reading at offset [p] of the bytes [c]. *)
Lemma rest_reopen c x p md :
  p = len c ->
  rest {| content := c ++ x; position := p; closed := false; mode := md |}
  = x.
Proof.
  intros ->. unfold rest, len. cbn [position content].
  by rewrite Nat2Z.id, drop_app_length.
Qed.

End RoundTrip.

(** C1 (as amended). Take an open writer with an empty buffer on a sink
    positioned at its end, and byte strings [datas] with concatenation [B],
    such that each of the blocks [B] is cut into (the successive pieces of
    65536 bytes and what remains, if not empty) deflates to at most 65510
    bytes.  Then writing [datas] and closing returns, and decoding block
    after block what was added to the sink gives blocks whose data
    concatenate to [B], then one last block of 28 bytes without data, which
    is the EOF block and ends the sink, then the end of the stream; when [B]
    is empty, exactly the 28 bytes of the EOF block were added. *)
Theorem writer_round_trip {zlib : Zlib} {laws : ZlibLaws zlib}
    (w : BgzfWriter.t) (datas : list bytes) :
  at_end (BgzfWriter._handle w) ->
  BgzfWriter._buffer w = [] ->
  Forall (fits (BgzfWriter.compresslevel w)) (blocks_of (concat datas)) ->
  exists w' blocks p h',
    (BgzfWriter.write_all datas;; BgzfWriter.close) w = Ok tt w'
    /\ load_blocks (S (length (content (BgzfWriter._handle w'))))
         {| content := content (BgzfWriter._handle w');
            position := position (BgzfWriter._handle w);
            closed := false; mode := "rb" |}
       = Ok (blocks ++ [(p, 28, [])]) h'
    /\ concat (map snd blocks) = concat datas
    /\ rest h' = []
    /\ slice (content (BgzfWriter._handle w')) p (p + 28) = _bgzf_eof
    /\ p + 28 = len (content (BgzfWriter._handle w'))
    /\ (concat datas = [] ->
        content (BgzfWriter._handle w')
        = content (BgzfWriter._handle w) ++ _bgzf_eof).
Proof.
  intros Hend Hbuf Hfit.
  set (B := concat datas) in *.
  set (level := BgzfWriter.compresslevel w) in *.
  pose proof Hfit as Hfit'. unfold blocks_of in Hfit'.
  apply Forall_app in Hfit' as [Hfull Hlast].
  assert (BgzfWriter._buffer w ++ concat datas = B) as HB
    by (by rewrite Hbuf).
  pose proof (write_all_run datas w Hend
                ltac:(by rewrite Hbuf)) as Hw.
  cbv zeta in Hw. rewrite HB in Hw. specialize (Hw Hfull).
  set (w1 := BgzfWriter.set_buffer _ _) in Hw.
  assert (at_end (BgzfWriter._handle w1)) as Hend1
    by (by apply append_at_end).
  pose proof (close_run w1 Hend1
                (remainder_small _ _ (le_n _)) Hlast) as Hc.
  set (w2 := BgzfWriter.set_buffer _ _) in Hc.
  assert (content (BgzfWriter._handle w2)
          = content (BgzfWriter._handle w)
            ++ encode_blocks level (blocks_of B) ++ _bgzf_eof) as Hcontent.
  { subst w2 w1. wsimpl. cbn [content set_closed append set_position
                                set_content].
    unfold blocks_of, encode_blocks.
    rewrite map_app, concat_app, <- !app_assoc. done. }
  set (h := {| content := content (BgzfWriter._handle w2);
               position := position (BgzfWriter._handle w);
               closed := false; mode := "rb" |}).
  destruct Hend as [Hopen Hpos].
  assert (rest h = encode_blocks level (blocks_of B) ++ _bgzf_eof) as Hrest.
  { subst h. rewrite Hcontent. by apply rest_reopen. }
  pose proof (len_nonneg (content (BgzfWriter._handle w))) as Hc0.
  pose proof (load_blocks_run level (blocks_of B)
                (S (length (content (BgzfWriter._handle w2)))) h
                eq_refl ltac:(cbn [position h]; lia) Hrest Hfit
                (blocks_of_len B)) as Hload.
  destruct (entries_from_last level (position h) (blocks_of B))
    as (blocks & Hentries & Hdata).
  rewrite Hentries in Hload.
  pose proof (len_nonneg (encode_blocks level (blocks_of B))) as He0.
  eexists w2, blocks, _, _. split_and!.
  - by rewrite (run_bind _ _ _ _ _ Hw).
  - apply Hload. rewrite Hcontent, !length_app.
    pose proof (length_encode_blocks level (blocks_of B)). lia.
  - rewrite Hdata. apply blocks_of_concat.
  - unfold rest. cbn [position content set_position h].
    apply drop_ge. rewrite Hcontent, !length_app. unfold len in *.
    simpl length. lia.
  - cbn [position h]. rewrite Hcontent, Hpos. unfold slice.
    rewrite app_assoc.
    replace (Z.to_nat (len (content (BgzfWriter._handle w))
                       + len (encode_blocks level (blocks_of B))))
      with (length (content (BgzfWriter._handle w)
                    ++ encode_blocks level (blocks_of B)))
      by (rewrite length_app; unfold len; lia).
    rewrite drop_app_length. apply take_ge.
    rewrite length_app. unfold len, _bgzf_eof. simpl length. lia.
  - cbn [position h]. rewrite Hcontent, Hpos, !len_app. unfold len at 5.
    simpl. lia.
  - intros HBnil. rewrite Hcontent, HBnil. done.
Qed.

(** The theorem at work: ["hello\n"] written to a new file at level 0. *)
Lemma writer_round_trip_witness :
  exists w' blocks p h',
    (@BgzfWriter.write_all StoredZlib.zlib [hello];;
     @BgzfWriter.close StoredZlib.zlib) writer0 = Ok tt w'
    /\ @load_blocks StoredZlib.zlib
         (S (length (content (BgzfWriter._handle w'))))
         {| content := content (BgzfWriter._handle w');
            position := position (BgzfWriter._handle writer0);
            closed := false; mode := "rb" |}
       = Ok (blocks ++ [(p, 28, [])]) h'
    /\ concat (map snd blocks) = concat [hello]
    /\ rest h' = []
    /\ slice (content (BgzfWriter._handle w')) p (p + 28) = _bgzf_eof
    /\ p + 28 = len (content (BgzfWriter._handle w'))
    /\ (concat [hello] = [] ->
        content (BgzfWriter._handle w')
        = content (BgzfWriter._handle writer0) ++ _bgzf_eof).
Proof.
  apply (@writer_round_trip StoredZlib.zlib stored_zlib_laws writer0 [hello]).
  - split; reflexivity.
  - reflexivity.
  - change (blocks_of (concat [hello])) with [hello].
    constructor; [|constructor].
    eexists. split; [reflexivity|]. vm_compute. discriminate.
Defined.

Section TooLarge.

Context {zlib : Zlib} {laws : ZlibLaws zlib}.
Import BgzfWriter.

Lemma write_loop_first_raises fuel w e :
  65536 <= len (_buffer w) ->
  _write_block (slice (_buffer w) 0 65536) w = Raise e w ->
  write_loop (S fuel) w = Raise e w.
Proof.
  intros Hlen Hwb. cbn [write_loop]. rewrite run_get.
  replace (len (_buffer w) >=? 65536) with true by lia.
  by rewrite (run_bind_raise _ _ _ _ _ Hwb).
Qed.

Lemma write_raises_block_too_large data w c :
  at_end (_handle w) ->
  65536 <= len (_buffer w ++ data) ->
  compress (compresslevel w) (slice (_buffer w ++ data) 0 65536)
  = Returns c ->
  65536 <= len c ->
  write data w
  = Raise AssertionError (set_buffer (_buffer w ++ data) w).
Proof.
  intros Hend Hlen Hc Hbig. unfold write, _as_bytes. rewrite run_get.
  fold (len (_buffer w) + len data). rewrite <- len_app.
  replace (len (_buffer w ++ data) <? 65536) with false by lia.
  rewrite run_modify, run_get.
  set (w1 := set_buffer (_buffer w ++ data) w).
  assert (length (_buffer w1) = S (pred (length (_buffer w1)))) as ->
    by (unfold len in Hlen; subst w1; wsimpl; lia).
  apply write_loop_first_raises; [done|].
  rewrite write_block_char by done.
  subst w1. wsimpl. rewrite Hc, len_slice_block by done.
  replace (65536 <=? 65536) with true by lia.
  by replace (len c <? 65536) with false by lia.
Qed.

End TooLarge.

(** The claim C1 as it is written fails: at compression level [0], where
    blocks are stored, [65536] bytes do not fit one block, and the writer
    raises. *)
Lemma writer_round_trip_counterexample :
  ZlibLaws StoredZlib.zlib
  /\ (@BgzfWriter.write StoredZlib.zlib (replicate (Z.to_nat 65536) x00);;
      @BgzfWriter.close StoredZlib.zlib) writer0
     = Raise AssertionError
         (BgzfWriter.set_buffer (replicate (Z.to_nat 65536) x00) writer0).
Proof.
  split; [apply stored_zlib_laws|].
  set (B := replicate (Z.to_nat 65536) x00).
  assert (len B = 65536) as HB
    by (unfold len, B; rewrite length_replicate; lia).
  apply run_bind_raise.
  apply (@write_raises_block_too_large StoredZlib.zlib stored_zlib_laws B
           writer0
           (StoredZlib.deflate_stored (length (slice B 0 65536))
              (slice B 0 65536))).
  - split; reflexivity.
  - change (BgzfWriter._buffer writer0 ++ B) with B. lia.
  - reflexivity.
  - pose proof (length_deflate_stored (length (slice B 0 65536))
                  (slice B 0 65536)) as Hl.
    pose proof (len_slice_block B ltac:(lia)) as Hs.
    unfold len in *. lia.
Qed.

(** ** C7: no block of more than 65536 bytes reaches the sink *)

Section Emitted.

Context {zlib : Zlib} {laws : ZlibLaws zlib}.
Import BgzfWriter.

Lemma preserves_bind {A B} P (m : M t A) (k : A -> M t B) :
  preserves P m -> (forall a, preserves P (k a)) -> preserves P (m ≫= k).
Proof.
  intros Hm Hk w Hw. specialize (Hm w Hw).
  unfold mbind, M_bind, bind. destruct (m w) as [a w'|e w']; [|done].
  by apply Hk.
Qed.

Lemma preserves_get {B} P (k : t -> M t B) :
  (forall s, preserves P (k s)) -> preserves P (get ≫= k).
Proof. intros Hk w Hw. rewrite run_get. by apply Hk. Qed.

Lemma preserves_ret {A} P (a : A) : preserves P (mret a).
Proof. by intros w Hw. Qed.

Lemma preserves_raise {A} P e : preserves P (raise e : M t A).
Proof. intros w Hw. exact Hw. Qed.

Lemma preserves_assert P b : preserves P (assert_ b).
Proof. destruct b; intros w Hw; exact Hw. Qed.

Lemma preserves_lift {A} P (r : result A) : preserves P (lift r).
Proof. destruct r; intros w Hw; exact Hw. Qed.

Lemma preserves_lift_bind {A B} P (r : result A) (k : A -> M t B) :
  (forall v, r = Returns v -> preserves P (k v)) ->
  preserves P (lift r ≫= k).
Proof.
  destruct r as [v|e]; intros H w Hw; [by apply (H v eq_refl)|exact Hw].
Qed.

Lemma preserves_set_buffer P b : preserves P (modify (set_buffer b)).
Proof. intros w Hw. exact Hw. Qed.

Lemma preserves_on_handle {A} (P : file -> Prop) (m : M file A) :
  (forall h, P h -> P (state_of (m h))) -> preserves P (on_handle m).
Proof.
  intros Hm w Hw. specialize (Hm _ Hw). unfold on_handle.
  by destruct (m (_handle w)).
Qed.

Lemma emitted_refl h : position h = len (content h) -> emitted h h.
Proof.
  intros Hp. split; [done|]. exists []. by rewrite app_nil_r.
Qed.

Lemma emitted_write h0 f h :
  is_block f -> emitted h0 h -> emitted h0 (state_of (File.write f h)).
Proof.
  intros Hf [Hp (frames & Hc & Hall)].
  destruct (closed h) eqn:Hcl.
  - unfold File.write. rewrite Hcl. by split; [|exists frames].
  - rewrite (write_at_end h f (conj Hcl Hp)). cbn [state_of].
    split; [by apply append_at_end|].
    exists (frames ++ [f]). split.
    + cbn [append content set_position set_content].
      rewrite Hc, concat_app. cbn [concat].
      by rewrite app_nil_r, app_assoc.
    + apply Forall_app. by split; [|repeat constructor].
Qed.

Lemma emitted_tell h0 h : emitted h0 h -> emitted h0 (state_of (File.tell h)).
Proof. intros H. unfold File.tell. by destruct (closed h). Qed.

Lemma emitted_flush h0 h :
  emitted h0 h -> emitted h0 (state_of (File.flush h)).
Proof. intros H. unfold File.flush. by destruct (closed h). Qed.

Lemma emitted_close h0 h :
  emitted h0 h -> emitted h0 (state_of (File.close h)).
Proof. by intros H. Qed.

Lemma pack_H_inv v b : pack_H v = Returns b -> b = le_bytes 2 v /\ v <= 65535.
Proof.
  unfold pack_H. destruct (0 <=? v) eqn:E1; [|done].
  destruct (v <=? 65535) eqn:E2; [|done].
  intros [= <-]. split; [done|lia].
Qed.

Lemma pack_I_inv v b : pack_I v = Returns b -> b = le_bytes 4 v.
Proof.
  unfold pack_I. destruct ((0 <=? v) && (v <=? 4294967295)); [|done].
  by intros [= <-].
Qed.

Lemma write_block_emitted h0 block :
  preserves (emitted h0) (_write_block block).
Proof.
  unfold _write_block.
  apply preserves_bind;
    [apply preserves_on_handle, emitted_tell|intros _].
  apply preserves_bind; [apply preserves_assert|intros _].
  apply preserves_get; intros w.
  apply preserves_lift_bind; intros c _.
  apply preserves_bind; [apply preserves_assert|intros _].
  apply preserves_lift_bind; intros _ _.
  apply preserves_lift_bind; intros bsize [-> Hbs]%pack_H_inv.
  apply preserves_lift_bind; intros crc ->%pack_I_inv.
  apply preserves_lift_bind; intros isize ->%pack_I_inv.
  apply preserves_on_handle. intros h Hh. apply emitted_write; [|done].
  exists c, block. split; [done|lia].
Qed.

Lemma write_loop_emitted h0 fuel :
  preserves (emitted h0) (write_loop fuel).
Proof.
  induction fuel as [|fuel IH]; cbn [write_loop];
    apply preserves_get; intros w;
    destruct (len (_buffer w) >=? 65536);
    try apply preserves_ret; try apply preserves_raise.
  apply preserves_bind; [apply write_block_emitted|intros _].
  apply preserves_get; intros w'.
  apply preserves_bind; [apply preserves_set_buffer|intros _]. done.
Qed.

Lemma flush_loop_emitted h0 fuel :
  preserves (emitted h0) (flush_loop fuel).
Proof.
  induction fuel as [|fuel IH]; cbn [flush_loop];
    apply preserves_get; intros w;
    destruct (len (_buffer w) >=? 65536);
    try apply preserves_ret; try apply preserves_raise.
  apply preserves_bind; [apply write_block_emitted|intros _].
  apply preserves_get; intros w'.
  apply preserves_bind; [apply preserves_set_buffer|intros _]. done.
Qed.

Lemma write_emitted h0 data : preserves (emitted h0) (write data).
Proof.
  unfold write. apply preserves_get; intros w.
  destruct (_ <? _); [apply preserves_set_buffer|].
  apply preserves_bind; [apply preserves_set_buffer|intros _].
  apply preserves_get; intros w'. apply write_loop_emitted.
Qed.

Lemma flush_emitted h0 : preserves (emitted h0) flush.
Proof.
  unfold flush. apply preserves_get; intros w.
  apply preserves_bind; [apply flush_loop_emitted|intros _].
  apply preserves_get; intros w'.
  apply preserves_bind; [apply write_block_emitted|intros _].
  apply preserves_bind; [apply preserves_set_buffer|intros _].
  apply preserves_on_handle. intros h. apply emitted_flush.
Qed.

Lemma bgzf_eof_is_block : is_block _bgzf_eof.
Proof. exists [x03; x00], []. split; [apply bgzf_eof_frame|done]. Qed.

Lemma close_emitted h0 : preserves (emitted h0) close.
Proof.
  unfold close. apply preserves_get; intros w.
  apply preserves_bind;
    [destruct (negb _); [apply flush_emitted|apply preserves_ret]
    |intros _].
  apply preserves_bind;
    [apply preserves_on_handle; intros h;
     apply emitted_write, bgzf_eof_is_block|intros _].
  apply preserves_bind;
    [apply preserves_on_handle; intros h; apply emitted_flush|intros _].
  apply preserves_on_handle; intros h; apply emitted_close.
Qed.

Lemma after_writer_ops_emitted h0 ops w :
  emitted h0 (_handle w) -> emitted h0 (_handle (after_writer_ops ops w)).
Proof.
  revert w. induction ops as [|o ops IH]; intros w Hw; [done|].
  cbn [after_writer_ops foldl]. apply IH.
  destruct o; [apply write_emitted|apply flush_emitted|apply close_emitted];
    done.
Qed.

Lemma bsize_field_block_frame c b :
  len c + 26 <= 65536 -> bsize_field (block_frame c b) = len c + 26.
Proof.
  intros Hc. pose proof (len_nonneg c).
  unfold bsize_field, slice.
  change (Z.to_nat 18 - Z.to_nat 16)%nat with 2%nat.
  change (Z.to_nat 16) with 16%nat.
  unfold block_frame, _bgzf_header. cbn [app drop]. rewrite drop_0.
  rewrite take_app_length' by (by rewrite length_le_bytes).
  rewrite le_value_le_bytes by (simpl; lia). lia.
Qed.

Lemma is_block_size f :
  is_block f -> len f <= 65536 /\ bsize_field f = len f.
Proof.
  intros (c & b & -> & Hc).
  rewrite len_block_frame, bsize_field_block_frame by done. lia.
Qed.

End Emitted.

(** C7. On an open sink positioned at its end, [_write_block] on a block
    of at most 65536 bytes that deflates to [c] raises and leaves the
    writer and its sink as they were when [len c + 26 > 65536], and adds
    one block of exactly [len c + 26] bytes otherwise; and whatever write,
    flush and close operations follow, all that reaches the sink are whole
    blocks of at most 65536 bytes whose BSIZE field is their length. *)
Theorem write_block_size_limit {zlib : Zlib} {laws : ZlibLaws zlib}
    (w : BgzfWriter.t) (block c : bytes) :
  at_end (BgzfWriter._handle w) ->
  len block <= 65536 ->
  compress (BgzfWriter.compresslevel w) block = Returns c ->
  BgzfWriter._write_block block w
  = (if len c + 26 <=? 65536 then
       Ok tt (BgzfWriter.set_handle
                (append (block_frame c block) (BgzfWriter._handle w)) w)
     else Raise (if len c <? 65536 then StructError else AssertionError) w)
  /\ len (block_frame c block) = len c + 26
  /\ forall ops,
       exists frames,
         content (BgzfWriter._handle (after_writer_ops ops w))
         = content (BgzfWriter._handle w) ++ concat frames
         /\ Forall (fun f => len f <= 65536 /\ bsize_field f = len f) frames.
Proof.
  intros Hend Hb Hc. split; [|split].
  - rewrite write_block_char by done. rewrite Hc.
    replace (len block <=? 65536) with true by lia.
    destruct (len c <? 65536) eqn:E1;
      [apply Z.ltb_lt in E1|apply Z.ltb_ge in E1].
    + replace (len c + 25 <=? 65535) with (len c + 26 <=? 65536) by lia.
      done.
    + by replace (len c + 26 <=? 65536) with false by lia.
  - apply len_block_frame.
  - intros ops.
    destruct (after_writer_ops_emitted (BgzfWriter._handle w) ops w)
      as [_ (frames & Hcontent & Hall)];
      [apply emitted_refl, Hend|].
    exists frames. split; [done|].
    eapply Forall_impl; [exact Hall|]. apply is_block_size.
Qed.

(** The theorem at work: the block of ["hello\n"] on a new file. *)
Lemma write_block_size_limit_witness :
  @BgzfWriter._write_block StoredZlib.zlib hello writer0
  = (if len (StoredZlib.deflate_stored 6 hello) + 26 <=? 65536 then
       Ok tt (BgzfWriter.set_handle
                (append (@block_frame StoredZlib.zlib
                           (StoredZlib.deflate_stored 6 hello) hello)
                   (BgzfWriter._handle writer0)) writer0)
     else Raise (if len (StoredZlib.deflate_stored 6 hello) <? 65536
                 then StructError else AssertionError) writer0)
  /\ len (@block_frame StoredZlib.zlib
            (StoredZlib.deflate_stored 6 hello) hello)
     = len (StoredZlib.deflate_stored 6 hello) + 26
  /\ forall ops,
       exists frames,
         content (BgzfWriter._handle
                    (@after_writer_ops StoredZlib.zlib ops writer0))
         = content (BgzfWriter._handle writer0) ++ concat frames
         /\ Forall (fun f => len f <= 65536 /\ bsize_field f = len f) frames.
Proof.
  apply (@write_block_size_limit StoredZlib.zlib stored_zlib_laws
           writer0 hello (StoredZlib.deflate_stored 6 hello)).
  - split; reflexivity.
  - vm_compute. discriminate.
  - reflexivity.
Defined.

(** ** C8: the writer's [tell] *)

(** C8 does not hold of the code: [tell] looks up the attribute [handle],
    which no writer has, and raises [AttributeError] whatever the state of
    the writer. *)
Theorem writer_tell_raises {zlib : Zlib} (w : BgzfWriter.t) :
  BgzfWriter.getattr w "handle" = None
  /\ BgzfWriter.tell w = Raise AttributeError w.
Proof.
  assert (BgzfWriter.getattr w "handle" = None) as H by reflexivity.
  split; [done|]. unfold BgzfWriter.tell. rewrite run_get. by rewrite H.
Qed.

(** ** C9: a reader on a handle that is already open *)

(** C9 does not hold of the code: with [fileobj] given, and whatever the
    other arguments, [__init__] raises.  It asserts that [mode] is [None],
    which the default ["r"] is not, and then calls [mode.lower()], which
    [None] does not have. *)
Theorem reader_init_fileobj_raises {zlib : Zlib}
    (fs : gmap string bytes) (filename mode : option string) (f : file)
    (max_cache : Z) :
  BgzfReader.__init__ fs filename mode (Some f) max_cache
  = Raises (if max_cache <? 1 then ValueError
            else match filename, mode with
                 | None, None =>
                     if Str.contains "b" (Str.lower (File.mode f))
                     then AttributeError else AssertionError
                 | _, _ => AssertionError
                 end).
Proof.
  unfold BgzfReader.__init__. destruct (max_cache <? 1); [done|].
  destruct filename, mode; try done.
  cbn [bool_decide andb negb]. rewrite !bool_decide_eq_true_2 by done.
  cbn [andb negb]. by destruct (Str.contains _ _).
Qed.

(** ** The reader *)

Ltac rsimpl :=
  cbn [BgzfReader.set_handle BgzfReader.set_buffers
       BgzfReader.set_block_start_offset BgzfReader.set_block_raw_length
       BgzfReader.set_buffer BgzfReader.set_within_block_offset
       BgzfReader._text BgzfReader._newline BgzfReader._handle
       BgzfReader.max_cache BgzfReader._buffers
       BgzfReader._block_start_offset BgzfReader._block_raw_length
       BgzfReader._buffer BgzfReader._within_block_offset] in *.

Section Reader.

Context {zlib : Zlib}.
Import BgzfReader.

Lemma reader_set_handle_same r : set_handle (_handle r) r = r.
Proof. by destruct r. Qed.

Lemma reader_tell_handle r :
  closed (_handle r) = false ->
  on_handle File.tell r = Ok (position (_handle r)) r.
Proof.
  intros Hc. unfold on_handle, File.tell. rewrite Hc.
  by rewrite reader_set_handle_same.
Qed.

Lemma reader_seek_handle p r :
  closed (_handle r) = false -> 0 <= p ->
  on_handle (File.seek p) r
  = Ok tt (set_handle (set_position p (_handle r)) r).
Proof.
  intros Hc Hp. unfold on_handle, File.seek. rewrite Hc.
  by replace (p <? 0) with false by lia.
Qed.

Lemma evict_below fuel r :
  Z.of_nat (size (_buffers r)) < max_cache r -> evict fuel r = Ok tt r.
Proof.
  intros H. destruct fuel; cbn [evict];
    by replace (_ >=? _) with false by lia.
Qed.

(** Loading a block where the file ends. *)
Lemma load_block_at_eof s r :
  closed (_handle r) = false -> 0 <= s ->
  _block_start_offset r <> Some s ->
  _buffers r !! s = None ->
  Z.of_nat (size (_buffers r)) < max_cache r ->
  drop (Z.to_nat s) (content (_handle r)) = [] ->
  _load_block (Some s) r
  = Ok tt (set_buffers (<[s := ([], 0)]> (_buffers r))
             (set_block_raw_length (Some 0)
                (set_within_block_offset 0
                   (set_buffer []
                      (set_block_start_offset (Some s)
                         (set_handle (set_position s (_handle r)) r)))))).
Proof.
  intros Hc Hs Hne Hnone Hsize Hdrop. unfold _load_block.
  rewrite run_get. rewrite (run_bind (ret s) _ _ _ _ eq_refl).
  rewrite bool_decide_eq_false_2 by done. rewrite Hnone.
  rewrite (run_bind _ _ _ _ _ (evict_below _ r Hsize)).
  rewrite (run_bind _ _ _ _ _ (reader_seek_handle s r Hc Hs)).
  rewrite (run_bind _ _ _ _ _
             (reader_tell_handle
                (set_handle (set_position s (_handle r)) r) Hc)).
  rsimpl. rewrite position_set_position, run_modify.
  assert (try_load_bgzf_block
            (set_block_start_offset (Some s)
               (set_handle (set_position s (_handle r)) r))
          = Ok (0, [])
              (set_block_start_offset (Some s)
                 (set_handle (set_position s (_handle r)) r))) as Htry.
  { unfold try_load_bgzf_block. rsimpl.
    rewrite (decode_eof _ (set_position s (_handle r)) Hc Hs Hdrop).
    done. }
  rewrite (run_bind _ _ _ _ _ Htry). cbv beta iota.
  rewrite !run_modify, run_get. done.
Qed.

End Reader.

(** ** The files of the examples *)

(** The bytes of [hello_bgz] and [two_bgz] are what the writer wrote. *)
Lemma example_files_written :
  hello_bgz = written hello /\ two_bgz = written ab ++ written cd.
Proof. split; vm_compute; reflexivity. Qed.

(** [reader_hello] and [reader_two] are the readers [__init__] returns on
    these files. *)
Lemma example_readers_init :
  @BgzfReader.__init__ StoredZlib.zlib fs0 (Some "hello.bgz"%string)
    (Some "rb"%string) None 100 = Returns reader_hello
  /\ @BgzfReader.__init__ StoredZlib.zlib fs0 (Some "two.bgz"%string)
       (Some "rb"%string) None 100 = Returns reader_two.
Proof. split; vm_compute; reflexivity. Qed.

(** ** C10: a reader on an empty file *)

(** C10. Opening by name, in a read mode and with [max_cache >= 1], a file
    of zero bytes gives a reader: its buffer is empty, its block starts at
    offset [0], where the file is positioned, and has raw length [0];
    [tell] returns [0] and [read n] returns the empty string for every
    [n >= 0], leaving the reader as it is. *)
Theorem reader_on_empty_source {zlib : Zlib}
    (fs : gmap string bytes) (name mode : string) (max_cache : Z) :
  fs !! name = Some [] ->
  1 <= max_cache ->
  Str.contains "w" (Str.lower mode) = false ->
  Str.contains "a" (Str.lower mode) = false ->
  exists r,
    BgzfReader.__init__ fs (Some name) (Some mode) None max_cache = Returns r
    /\ BgzfReader._buffer r = []
    /\ BgzfReader._block_raw_length r = Some 0
    /\ BgzfReader._block_start_offset r = Some 0
    /\ position (BgzfReader._handle r) = 0
    /\ BgzfReader.tell r = Ok 0 r
    /\ forall n, 0 <= n -> BgzfReader.read n r = Ok [] r.
Proof.
  intros Hfs Hmax Hw Ha.
  unfold BgzfReader.__init__.
  replace (max_cache <? 1) with false by lia.
  rewrite Hw, Ha. cbn [orb]. unfold File.open_rb. rewrite Hfs.
  set (self := BgzfReader.Build_t _ _ _ _ _ _ _ _ _).
  rewrite (run_bind _ _ _ _ _ (reader_tell_handle self eq_refl)).
  rewrite (load_block_at_eof 0 self eq_refl (Z.le_refl 0));
    [|done|apply lookup_empty|subst self; rsimpl; rewrite map_size_empty; lia
     |done].
  eexists. split; [reflexivity|].
  split; [done|]. split; [done|]. split; [done|]. split; [done|].
  split; [done|].
  intros n Hn. unfold BgzfReader.read.
  destruct (Z.to_nat n) as [|fuel] eqn:Hfuel.
  - assert (n = 0) as -> by lia. done.
  - cbn [BgzfReader.read_rec].
    replace (n <? 0) with false by lia.
    replace (n =? 0) with false by lia.
    rewrite run_get. rsimpl. change (len (@nil byte)) with 0.
    replace (0 + n <=? 0) with false by lia.
    done.
Qed.

(** The theorem at work: the empty file [empty.bgz], opened ["rb"]. *)
Lemma reader_on_empty_source_witness :
  exists r,
    @BgzfReader.__init__ StoredZlib.zlib fs0 (Some "empty.bgz"%string)
      (Some "rb"%string) None 100 = Returns r
    /\ BgzfReader._buffer r = []
    /\ BgzfReader._block_raw_length r = Some 0
    /\ BgzfReader._block_start_offset r = Some 0
    /\ position (BgzfReader._handle r) = 0
    /\ BgzfReader.tell r = Ok 0 r
    /\ forall n, 0 <= n -> @BgzfReader.read StoredZlib.zlib n r = Ok [] r.
Proof.
  apply (@reader_on_empty_source StoredZlib.zlib fs0 "empty.bgz" "rb" 100).
  - reflexivity.
  - lia.
  - reflexivity.
  - reflexivity.
Defined.

(** ** C2: where the reader says it is *)

Section Tell.

Context {zlib : Zlib}.
Import BgzfReader.

Lemma shiftl16_split x :
  split_virtual_offset (Z.shiftl x 16) = (x, 0).
Proof.
  rewrite split_virtual_offset_divmod, Z.shiftl_mul_pow2 by lia.
  change (2 ^ 16) with 65536.
  by rewrite Z.div_mul, Z.mod_mul by lia.
Qed.

Lemma len_slice_to_end {A} (l : list A) a n :
  0 <= a -> 0 <= n -> a + n = len l ->
  slice l a (a + n) = slice_from l a /\ len (slice l a (a + n)) = n.
Proof.
  intros Ha Hn Hl. unfold slice, slice_from, len in *.
  rewrite take_ge by (rewrite length_drop; lia).
  split; [done|]. rewrite length_drop. lia.
Qed.

Lemma read_within_block fuel n r :
  0 <= _within_block_offset r -> 0 < n ->
  _within_block_offset r + n <= len (_buffer r) ->
  read_rec fuel n r
  = Ok (slice (_buffer r) (_within_block_offset r)
          (_within_block_offset r + n))
       (set_within_block_offset (_within_block_offset r + n) r).
Proof.
  intros Hw Hn Hle.
  assert (read_rec fuel n r
          = (r ← get;
             if _within_block_offset r + n <=? len (_buffer r) then
               let data := slice (_buffer r) (_within_block_offset r)
                             (_within_block_offset r + n) in
               modify (set_within_block_offset
                         (_within_block_offset r + n));;
               assert_ (negb (bool_decide (data = [])));;
               ret data
             else raise RecursionLimit) r) as ->.
  { destruct fuel; cbn [read_rec];
      replace (n <? 0) with false by lia;
      replace (n =? 0) with false by lia;
      rewrite !run_get;
      by replace (_ <=? _) with true by lia. }
  rewrite run_get. replace (_ <=? _) with true by lia.
  cbv zeta. rewrite run_modify.
  rewrite run_assert; [done|].
  rewrite bool_decide_eq_false_2; [done|].
  intros Hnil. apply (f_equal length) in Hnil.
  unfold slice, len in *. rewrite length_take, length_drop in Hnil.
  simpl in Hnil. lia.
Qed.

End Tell.

(** C2. On a reader whose block is loaded, [tell] returns
    [(block_start + block_raw_length) << 16] when [within_block > 0] and
    [within_block = len(buffer)], and [(block_start << 16) | within_block]
    otherwise.  And a [read] of the [n > 0] bytes left in the block returns
    them and leaves the reader where [tell] returns the offset of the next
    block, with offset [0] within it. *)
Theorem reader_tell_canonical {zlib : Zlib}
    (r : BgzfReader.t) (block_start block_raw_length : Z) :
  BgzfReader._block_start_offset r = Some block_start ->
  BgzfReader._block_raw_length r = Some block_raw_length ->
  BgzfReader.tell r
  = Ok (if (0 <? BgzfReader._within_block_offset r)
           && (BgzfReader._within_block_offset r
               =? len (BgzfReader._buffer r))
        then Z.shiftl (block_start + block_raw_length) 16
        else Z.lor (Z.shiftl block_start 16)
                   (BgzfReader._within_block_offset r)) r
  /\ forall n,
       0 <= BgzfReader._within_block_offset r -> 0 < n ->
       BgzfReader._within_block_offset r + n = len (BgzfReader._buffer r) ->
       let r' := BgzfReader.set_within_block_offset
                   (BgzfReader._within_block_offset r + n) r in
       BgzfReader.read n r
       = Ok (slice_from (BgzfReader._buffer r)
               (BgzfReader._within_block_offset r)) r'
       /\ BgzfReader.tell r'
          = Ok (Z.shiftl (block_start + block_raw_length) 16) r'
       /\ split_virtual_offset (Z.shiftl (block_start + block_raw_length) 16)
          = (block_start + block_raw_length, 0).
Proof.
  intros Hbs Hrl. split.
  - unfold BgzfReader.tell. rewrite run_get, Hbs, Hrl.
    by destruct (_ && _).
  - intros n Hw Hn Hlen r'. split; [|split].
    + unfold BgzfReader.read.
      rewrite read_within_block by lia.
      by destruct (len_slice_to_end (BgzfReader._buffer r)
                     (BgzfReader._within_block_offset r) n) as [-> _];
        [lia..|].
    + unfold BgzfReader.tell. rewrite run_get. subst r'. rsimpl.
      rewrite Hbs, Hrl.
      replace (0 <? _) with true by lia.
      by replace (_ =? _) with true by lia.
    + apply shiftl16_split.
Qed.

(** The theorem at work: reading the six bytes of the only data block of
    [hello.bgz], which is 37 bytes long, leaves the reader at [37 << 16]. *)
Lemma reader_tell_canonical_witness :
  BgzfReader.tell reader_hello = Ok 0 reader_hello
  /\ @BgzfReader.read StoredZlib.zlib 6 reader_hello
     = Ok hello (BgzfReader.set_within_block_offset 6 reader_hello)
  /\ BgzfReader.tell (BgzfReader.set_within_block_offset 6 reader_hello)
     = Ok 2424832 (BgzfReader.set_within_block_offset 6 reader_hello)
  /\ split_virtual_offset 2424832 = (37, 0).
Proof.
  destruct (@reader_tell_canonical StoredZlib.zlib reader_hello 0 37
              eq_refl eq_refl) as [Htell Hread].
  split; [exact Htell|].
  apply (Hread 6); [reflexivity|reflexivity|reflexivity].
Defined.

(** ** C3: seeking *)

Section Seek.

Context {zlib : Zlib}.
Import BgzfReader.

Lemma on_handle_ok_inv {A} (m : M file A) r a r' :
  on_handle m r = Ok a r' ->
  exists h', m (_handle r) = Ok a h' /\ r' = set_handle h' r.
Proof.
  unfold on_handle. destruct (m (_handle r)) as [a' h'|e h']; [|done].
  intros [= <- <-]. eauto.
Qed.

Lemma try_load_ok_inv r x r' :
  try_load_bgzf_block r = Ok x r' -> exists h', r' = set_handle h' r.
Proof.
  unfold try_load_bgzf_block.
  destruct (_load_bgzf_block _ _) as [[bs d] h'|e h'].
  - intros [= <- <-]. eauto.
  - destruct e; try done. intros [= <- <-]. eauto.
Qed.

Lemma evict_block_start fuel r r' :
  evict fuel r = Ok tt r' ->
  _block_start_offset r' = _block_start_offset r
  /\ _handle r' = _handle r.
Proof.
  revert r. induction fuel as [|fuel IH]; intros r; cbn [evict];
    destruct (_ >=? _); try done; try (by intros [= <-]).
  intros (u & r1 & Hpop & Hrest)%bind_ok_inv.
  apply IH in Hrest as [-> ->]. unfold popitem in Hpop.
  destruct (map_to_list (_buffers r)) as [|[k v] l]; [done|].
  by injection Hpop as _ <-.
Qed.

(** After a block was loaded at an offset, that offset is where the
    current block starts: the assertion in [seek] holds. *)
Lemma load_block_start s r r' :
  _load_block (Some s) r = Ok tt r' -> _block_start_offset r' = Some s.
Proof.
  unfold _load_block. rewrite run_get.
  rewrite (run_bind (ret s) _ _ _ _ eq_refl).
  case_bool_decide as Hcur; [by intros [= <-]|].
  destruct (_buffers r !! s) as [[buf raw]|]; [by intros [= <-]|].
  intros (u1 & r1 & Hev & H)%bind_ok_inv.
  apply bind_ok_inv in H as (u2 & r2 & Hseek & H).
  apply bind_ok_inv in H as (p & r3 & Htell & H).
  rewrite run_modify in H.
  apply bind_ok_inv in H as ([bs buf] & r4 & Htry & H).
  rewrite !run_modify, run_get in H. injection H as <-.
  apply try_load_ok_inv in Htry as [h4 ->]. rsimpl. f_equal.
  apply on_handle_ok_inv in Hseek as (h2 & Hseek & ->).
  apply on_handle_ok_inv in Htell as (h3 & Htell & ->).
  unfold File.seek in Hseek. unfold File.tell in Htell. rsimpl.
  destruct (closed (_handle r1)); [done|].
  destruct (s <? 0); [done|]. injection Hseek as Hh2.
  destruct (closed h2); [done|]. injection Htell as Hp _.
  by subst.
Qed.

End Seek.

(** C3 (as amended). Let [coff] and [uoff] be the two parts of the virtual
    offset [v], and let the block at [coff] be loaded: either it is the
    current block, or [_load_block] returns on it.  Then [seek v] returns
    [v] with [within_block] set to [uoff] when [uoff < len(buffer)], or
    when [uoff = 0] and the buffer is empty; it raises [ValueError]
    otherwise, that is as soon as [uoff >= len(buffer)] for a buffer that
    is not empty. *)
Theorem reader_seek_bound {zlib : Zlib} (r r1 : BgzfReader.t) (v : Z) :
  let coff := fst (split_virtual_offset v) in
  let uoff := snd (split_virtual_offset v) in
  (BgzfReader._block_start_offset r = Some coff /\ r1 = r)
  \/ (BgzfReader._block_start_offset r <> Some coff
      /\ BgzfReader._load_block (Some coff) r = Ok tt r1) ->
  BgzfReader.seek v r
  = if (uoff <? len (BgzfReader._buffer r1))
       || ((uoff =? 0) && (len (BgzfReader._buffer r1) =? 0))
    then Ok v (BgzfReader.set_within_block_offset uoff r1)
    else Raise ValueError r1.
Proof.
  intros coff uoff Hload. unfold BgzfReader.seek.
  change (Z.shiftr v 16) with coff.
  change (Z.lxor v (Z.shiftl coff 16)) with uoff.
  rewrite run_get.
  assert (forall r0 : BgzfReader.t,
            (r ← get;
             if (uoff >=? len (BgzfReader._buffer r))
                && negb ((uoff =? 0) && (len (BgzfReader._buffer r) =? 0))
             then raise ValueError
             else modify (BgzfReader.set_within_block_offset uoff);; ret v)
              r0
            = if (uoff <? len (BgzfReader._buffer r0))
                 || ((uoff =? 0) && (len (BgzfReader._buffer r0) =? 0))
              then Ok v (BgzfReader.set_within_block_offset uoff r0)
              else Raise ValueError r0) as Htail.
  { intros r0. rewrite run_get.
    destruct (uoff <? len (BgzfReader._buffer r0)) eqn:E1.
    - by replace (uoff >=? len (BgzfReader._buffer r0)) with false by lia.
    - replace (uoff >=? len (BgzfReader._buffer r0)) with true by lia.
      by destruct ((uoff =? 0) && (len (BgzfReader._buffer r0) =? 0)). }
  destruct Hload as [[Hcur ->]|[Hcur Hload]].
  - rewrite bool_decide_eq_true_2 by done. cbn [negb].
    rewrite (run_bind (ret tt) _ _ _ _ eq_refl). apply Htail.
  - rewrite bool_decide_eq_false_2 by done. cbn [negb].
    assert ((BgzfReader._load_block (Some coff);;
             r2 ← get;
             assert_ (bool_decide
                        (Some coff = BgzfReader._block_start_offset r2)))
              r = Ok tt r1) as Hstep.
    { rewrite (run_bind _ _ _ _ _ Hload), run_get.
      rewrite (load_block_start _ _ _ Hload).
      by rewrite bool_decide_eq_true_2. }
    rewrite (run_bind _ _ _ _ _ Hstep). apply Htail.
Qed.

(** The theorem at work: [seek(2)] in the block of [hello.bgz]. *)
Lemma reader_seek_bound_witness :
  @BgzfReader.seek StoredZlib.zlib 2 reader_hello
  = Ok 2 (BgzfReader.set_within_block_offset 2 reader_hello).
Proof.
  apply (@reader_seek_bound StoredZlib.zlib reader_hello reader_hello 2).
  left. split; reflexivity.
Defined.

(** The claim C3 as it is written fails: on the file with the six bytes of
    ["hello\n"] in the block at offset [0], the virtual offset [6] has
    [uoff = 6 <= len(buffer)], and [seek] raises. *)
Lemma reader_seek_counterexample :
  @BgzfReader.__init__ StoredZlib.zlib fs0 (Some "hello.bgz"%string)
    (Some "rb"%string) None 100 = Returns reader_hello
  /\ split_virtual_offset 6 = (0, 6)
  /\ BgzfReader._block_start_offset reader_hello = Some 0
  /\ len (BgzfReader._buffer reader_hello) = 6
  /\ @BgzfReader.seek StoredZlib.zlib 6 reader_hello
     = Raise ValueError reader_hello.
Proof.
  split; [vm_compute; reflexivity|]. repeat split.
Qed.

(** ** C4: a read across an empty block *)

(** C4 does not hold of the code.  The file [two.bgz] holds the block of
    ["ab"], an empty block, the block of ["cd"] and an empty block.  A
    [read(4)] from its start returns ["ab"] only: it stops at the empty
    block that is not the last one, where two more bytes follow, which the
    next [read(2)] returns. *)
Theorem read_stops_at_empty_block :
  @BgzfReader.__init__ StoredZlib.zlib fs0 (Some "two.bgz"%string)
    (Some "rb"%string) None 100 = Returns reader_two
  /\ (exists h,
        @BgzfBlocks StoredZlib.zlib
          {| content := two_bgz; position := 0;
             closed := false; mode := "rb" |}
        = Ok [(0, 33, 0, 2); (33, 28, 2, 0); (61, 33, 2, 2); (94, 28, 4, 0)]
             h)
  /\ exists r r',
       @BgzfReader.read StoredZlib.zlib 4 reader_two = Ok ab r
       /\ BgzfReader._block_start_offset r = Some 33
       /\ @BgzfReader.read StoredZlib.zlib 2 r = Ok cd r'.
Proof.
  split; [vm_compute; reflexivity|].
  split; [eexists; vm_compute; reflexivity|].
  eexists _, _. split; [vm_compute; reflexivity|].
  split; vm_compute; reflexivity.
Qed.

(** ** The bounds of the loops are large enough *)

Section Fuel.

Context {S : Type}.

Lemma within_fuel_bind {A B} (m : M S A) (k : A -> M S B) s :
  within_fuel m s ->
  (forall a s', m s = Ok a s' -> within_fuel (k a) s') ->
  within_fuel (m ≫= k) s.
Proof.
  intros Hm Hk s'. unfold mbind, M_bind, bind.
  destruct (m s) as [a s1|e s1] eqn:E; [by apply Hk|].
  intros [= -> ->]. by apply (Hm s').
Qed.

Lemma within_fuel_ret {A} (a : A) s : within_fuel (mret a : M S A) s.
Proof. by intros s'. Qed.

Lemma within_fuel_raise {A} e s :
  e <> RecursionLimit -> within_fuel (raise e : M S A) s.
Proof. intros He s' [= ->]. done. Qed.

Lemma within_fuel_get s : within_fuel (get : M S S) s.
Proof. by intros s'. Qed.

Lemma within_fuel_modify f s : within_fuel (modify f : M S unit) s.
Proof. by intros s'. Qed.

Lemma within_fuel_assert b s : within_fuel (assert_ b : M S unit) s.
Proof. by destruct b; intros s'. Qed.

Lemma within_fuel_lift {A} (r : result A) s :
  r <> Raises RecursionLimit -> within_fuel (lift r : M S A) s.
Proof. destruct r as [a|e]; intros Hr s'; [done|]. by intros [= ->]. Qed.

End Fuel.

Section FuelFile.

Lemma within_fuel_read n h : within_fuel (File.read n) h.
Proof. intros s'. unfold File.read. by destruct (closed h). Qed.

Lemma within_fuel_seek p h : within_fuel (File.seek p) h.
Proof.
  intros s'. unfold File.seek. by destruct (closed h), (p <? 0).
Qed.

Lemma within_fuel_tell h : within_fuel File.tell h.
Proof. intros s'. unfold File.tell. by destruct (closed h). Qed.

Lemma within_fuel_write d h : within_fuel (File.write d) h.
Proof. intros s'. unfold File.write. by destruct (closed h). Qed.

Lemma within_fuel_flush h : within_fuel File.flush h.
Proof. intros s'. unfold File.flush. by destruct (closed h). Qed.

Lemma within_fuel_close h : within_fuel File.close h.
Proof. by intros s'. Qed.

Lemma pack_not_limit_H v : pack_H v <> Raises RecursionLimit.
Proof. unfold pack_H. by destruct (_ && _). Qed.
Lemma pack_not_limit_I v : pack_I v <> Raises RecursionLimit.
Proof. unfold pack_I. by destruct (_ && _). Qed.
Lemma pack_not_limit_i v : pack_i v <> Raises RecursionLimit.
Proof. unfold pack_i. by destruct (_ && _). Qed.
Lemma unpack_not_limit_H b : unpack_H b <> Raises RecursionLimit.
Proof. unfold unpack_H. by destruct (bool_decide _). Qed.
Lemma unpack_not_limit_I b : unpack_I b <> Raises RecursionLimit.
Proof. unfold unpack_I. by destruct (bool_decide _). Qed.

Lemma le_value_nonneg b : 0 <= le_value b.
Proof.
  induction b as [|x b IH]; cbn [le_value]; [lia|].
  pose proof (Z_of_byte_range x). lia.
Qed.

Lemma unpack_H_nonneg b v : unpack_H b = Returns v -> 0 <= v.
Proof.
  unfold unpack_H. destruct (bool_decide _); [|done].
  intros [= <-]. apply le_value_nonneg.
Qed.

Lemma read_on_refl h : read_on h h.
Proof. by repeat split. Qed.

Lemma read_on_trans h1 h2 h3 : read_on h1 h2 -> read_on h2 h3 -> read_on h1 h3.
Proof.
  intros (Hc1 & Hp1 & Hb1) (Hc2 & Hp2 & Hb2). rewrite Hc1 in *.
  repeat split; [congruence|lia|]. intros H. apply Hb2. lia.
Qed.

Lemma read_read_on n h d h' :
  File.read n h = Ok d h' -> 0 <= position h ->
  read_on h h' /\ position h' = position h + len d
  /\ (d <> [] -> position h' <= len (content h)).
Proof.
  unfold File.read. destruct (closed h); [done|]. intros [= <- <-] Hp.
  set (d := if n <? 0 then _ else _).
  assert (length d <= length (content h) - Z.to_nat (position h))%nat as Hd.
  { subst d. destruct (n <? 0); [|rewrite length_take];
      rewrite length_drop; lia. }
  repeat split; cbn [content position set_position]; unfold len in *;
    try lia.
  intros Hne. destruct d; [done|]. simpl in *. lia.
Qed.

Lemma lift_ok_inv {S A} (r : result A) (s s' : S) a :
  lift r s = Ok a s' -> r = Returns a /\ s' = s.
Proof. destruct r; [|done]. by intros [= -> ->]. Qed.

Lemma assert_ok_inv {S} b (s s' : S) u :
  assert_ b s = Ok u s' -> b = true /\ s' = s.
Proof. destruct b; [|done]. by intros [= _ ->]. Qed.

End FuelFile.

Section FuelDecoder.

Context {zlib : Zlib} {laws : ZlibLaws zlib}.

Lemma decompress_not_limit b : decompress b <> Raises RecursionLimit.
Proof. intros H. by apply decompress_raises in H. Qed.

Lemma compress_not_limit level b : compress level b <> Raises RecursionLimit.
Proof. intros H. by apply compress_raises in H. Qed.

Lemma subfields_within_fuel fuel extra x bs h :
  extra - x <= Z.of_nat fuel -> within_fuel (subfields fuel extra x bs) h.
Proof.
  revert x bs h. induction fuel as [|fuel IH]; intros x bs h Hf;
    cbn [subfields]; destruct (x <? extra) eqn:E;
    try apply within_fuel_ret; [lia|].
  apply within_fuel_bind; [apply within_fuel_read|intros id h1 _].
  apply within_fuel_bind; [apply within_fuel_read|intros b h2 _].
  apply within_fuel_bind;
    [apply within_fuel_lift, unpack_not_limit_H|intros v h3 Hv].
  apply lift_ok_inv in Hv as [Hv%unpack_H_nonneg _].
  apply within_fuel_bind; [apply within_fuel_read|intros d h4 _].
  destruct (bytes_eqb id _bytes_BC).
  - apply within_fuel_bind; [apply within_fuel_assert|intros _ h5 _].
    apply within_fuel_bind; [apply within_fuel_assert|intros _ h6 _].
    apply within_fuel_bind;
      [apply within_fuel_lift, unpack_not_limit_H|intros v' h7 _].
    apply IH. lia.
  - apply IH. lia.
Qed.

Lemma load_bgzf_block_within_fuel text h :
  within_fuel (_load_bgzf_block text) h.
Proof.
  unfold _load_bgzf_block.
  apply within_fuel_bind; [apply within_fuel_read|intros magic h1 _].
  destruct (bool_decide _); [by apply within_fuel_raise|].
  destruct (negb _); [by apply within_fuel_raise|].
  apply within_fuel_bind; [apply within_fuel_read|intros ? ? _].
  apply within_fuel_bind; [apply within_fuel_read|intros ? ? _].
  apply within_fuel_bind; [apply within_fuel_read|intros ? ? _].
  apply within_fuel_bind; [apply within_fuel_read|intros b ? _].
  apply within_fuel_bind;
    [apply within_fuel_lift, unpack_not_limit_H|intros extra ? _].
  apply within_fuel_bind; [apply subfields_within_fuel; lia|].
  intros [x_len [block_size|]] ? _;
    (apply within_fuel_bind; [apply within_fuel_assert|intros _ ? _]);
    [|by apply within_fuel_raise].
  apply within_fuel_bind; [apply within_fuel_read|intros raw ? _].
  apply within_fuel_bind;
    [apply within_fuel_lift, decompress_not_limit|intros data ? _].
  apply within_fuel_bind; [apply within_fuel_read|intros ? ? _].
  apply within_fuel_bind; [apply within_fuel_read|intros ? ? _].
  apply within_fuel_bind;
    [apply within_fuel_lift, unpack_not_limit_I|intros ? ? _].
  apply within_fuel_bind; [apply within_fuel_assert|intros _ ? _].
  apply within_fuel_bind;
    [apply within_fuel_lift; destruct (_ <? _);
     [apply pack_not_limit_i|apply pack_not_limit_I]|intros ? ? _].
  apply within_fuel_bind; [apply within_fuel_assert|intros _ ? _].
  destruct text; apply within_fuel_ret.
Qed.

End FuelDecoder.

Section Progress.

Context {zlib : Zlib} {laws : ZlibLaws zlib}.

Lemma advancing_bind {A B} (m : M file A) (k : A -> M file B) :
  advancing m -> (forall a, advancing (k a)) -> advancing (m ≫= k).
Proof.
  intros Hm Hk h b h' Hp (a & h1 & H1 & H2)%bind_ok_inv.
  pose proof (Hm _ _ _ Hp H1) as Hon.
  eapply read_on_trans; [exact Hon|].
  eapply Hk; [|exact H2]. destruct Hon as (_ & ? & _). lia.
Qed.

Lemma advancing_ret {A} (a : A) : advancing (mret a).
Proof. intros h a' h' _ [= _ <-]. apply read_on_refl. Qed.

Lemma advancing_raise {A} e : advancing (raise e : M file A).
Proof. by intros h a' h' _. Qed.

Lemma advancing_lift {A} (r : result A) : advancing (lift r).
Proof. intros h a h' _ [_ ->]%lift_ok_inv. apply read_on_refl. Qed.

Lemma advancing_assert b : advancing (assert_ b).
Proof. intros h a h' _ [_ ->]%assert_ok_inv. apply read_on_refl. Qed.

Lemma advancing_read n : advancing (File.read n).
Proof. intros h d h' Hp H. by apply read_read_on in H as [? _]. Qed.

Lemma subfields_advancing fuel extra x bs :
  advancing (subfields fuel extra x bs).
Proof.
  revert x bs. induction fuel as [|fuel IH]; intros x bs;
    cbn [subfields]; destruct (x <? extra);
    try apply advancing_ret; try apply advancing_raise.
  apply advancing_bind; [apply advancing_read|intros id].
  apply advancing_bind; [apply advancing_read|intros b].
  apply advancing_bind; [apply advancing_lift|intros v].
  apply advancing_bind; [apply advancing_read|intros d].
  destruct (bytes_eqb id _bytes_BC); [|apply IH].
  apply advancing_bind; [apply advancing_assert|intros _].
  apply advancing_bind; [apply advancing_assert|intros _].
  apply advancing_bind; [apply advancing_lift|intros v']. apply IH.
Qed.

(** A block that was decoded took at least its four bytes of magic from
    the file. *)
Lemma load_bgzf_block_progress text h x h' :
  0 <= position h -> _load_bgzf_block text h = Ok x h' ->
  content h' = content h
  /\ position h + 4 <= position h' <= len (content h).
Proof.
  intros Hp. unfold _load_bgzf_block.
  intros (magic & h1 & Hrd & H)%bind_ok_inv.
  apply read_read_on in Hrd as (Hon1 & Hp1 & Hin1); [|done].
  case_bool_decide as Hnil; [done|].
  destruct (bytes_eqb magic _bgzf_magic) eqn:Hmagic; [|done].
  cbn [negb] in H. apply bool_decide_eq_true in Hmagic. subst magic.
  change (len _bgzf_magic) with 4 in Hp1. specialize (Hin1 Hnil).
  assert (read_on h1 h') as (Hc & Hle & Hin).
  { revert H.
    apply (advancing_bind (File.read 4)); [apply advancing_read| |lia].
    intros ?. apply advancing_bind; [apply advancing_read|intros ?].
    apply advancing_bind; [apply advancing_read|intros ?].
    apply advancing_bind; [apply advancing_read|intros ?].
    apply advancing_bind; [apply advancing_lift|intros ?].
    apply advancing_bind; [apply subfields_advancing|].
    intros [x_len [block_size|]];
      (apply advancing_bind; [apply advancing_assert|intros _]);
      [|apply advancing_raise].
    apply advancing_bind; [apply advancing_read|intros ?].
    apply advancing_bind; [apply advancing_lift|intros ?].
    apply advancing_bind; [apply advancing_read|intros ?].
    apply advancing_bind; [apply advancing_read|intros ?].
    apply advancing_bind; [apply advancing_lift|intros ?].
    apply advancing_bind; [apply advancing_assert|intros _].
    apply advancing_bind; [apply advancing_lift|intros ?].
    apply advancing_bind; [apply advancing_assert|intros _].
    destruct text; apply advancing_ret. }
  destruct Hon1 as (Hc1 & _ & _). rewrite Hc1 in *.
  split; [done|]. lia.
Qed.

Lemma load_blocks_within_fuel fuel h :
  0 <= position h ->
  len (content h) - position h < 4 * Z.of_nat fuel + 4 ->
  within_fuel (load_blocks fuel) h.
Proof.
  revert h. induction fuel as [|fuel IH]; intros h Hp Hf s';
    cbn [load_blocks]; unfold File.tell;
    destruct (closed h); try done;
    pose proof (load_bgzf_block_within_fuel false h) as Hwf;
    destruct (_load_bgzf_block false h) as [[bl d] h1|e h1] eqn:E;
    try (destruct e; try done; by specialize (Hwf h1)).
  - apply load_bgzf_block_progress in E; [lia|done].
  - apply load_bgzf_block_progress in E as [Hc Hpos]; [|done].
    assert (within_fuel (load_blocks fuel) h1) as Hrec
        by (apply IH; rewrite ?Hc; lia).
    unfold mbind, M_bind, bind.
    pose proof (Hrec s') as Hs'.
    destruct (load_blocks fuel h1) as [blocks h2|e h2]; [done|].
    intros [= -> ->]. done.
Qed.

Lemma BgzfBlocks_within_fuel h :
  0 <= position h -> within_fuel BgzfBlocks h.
Proof.
  intros Hp. unfold BgzfBlocks.
  apply within_fuel_bind; [|intros; apply within_fuel_ret].
  apply load_blocks_within_fuel; [done|]. unfold len. lia.
Qed.

End Progress.

Section FuelReader.

Context {zlib : Zlib} {laws : ZlibLaws zlib}.
Import BgzfReader.

Lemma within_fuel_get_bind {S B} (k : S -> M S B) s :
  within_fuel (k s) s -> within_fuel (get ≫= k) s.
Proof. intros H s'. rewrite run_get. apply H. Qed.

Lemma within_fuel_reader_on_handle {A} (m : M file A) r :
  within_fuel m (_handle r) -> within_fuel (on_handle m) r.
Proof.
  intros Hm s'. unfold on_handle.
  pose proof (Hm (_handle s')) as H.
  destruct (m (_handle r)) as [a h|e h]; [done|].
  intros [= -> <-]. rsimpl. done.
Qed.

Lemma popitem_size r u r' :
  popitem r = Ok u r' -> S (size (_buffers r')) = size (_buffers r).
Proof.
  unfold popitem.
  destruct (map_to_list (_buffers r)) as [|[k v] l] eqn:E; [done|].
  intros [= _ <-]. rsimpl.
  assert (_buffers r !! k = Some v) as Hk.
  { apply elem_of_map_to_list. rewrite E. by left. }
  rewrite map_size_delete, Hk.
  assert (size (_buffers r) <> 0%nat); [|cbn; lia].
  eapply map_size_ne_0_lookup_2. by rewrite Hk.
Qed.

Lemma evict_within_fuel fuel r :
  (size (_buffers r) < fuel)%nat -> within_fuel (evict fuel) r.
Proof.
  revert r. induction fuel as [|fuel IH]; intros r Hf; [lia|].
  intros s'. cbn [evict].
  destruct (Z.of_nat (size (_buffers r)) >=? max_cache r); [|done].
  revert s'. change (within_fuel (popitem;; evict fuel) r).
  apply within_fuel_bind.
  - intros s'. unfold popitem.
    by destruct (map_to_list (_buffers r)) as [|[k v] l].
  - intros u r' Hpop. apply IH. apply popitem_size in Hpop. lia.
Qed.

Lemma try_load_within_fuel r : within_fuel try_load_bgzf_block r.
Proof.
  intros s'. unfold try_load_bgzf_block.
  pose proof (load_bgzf_block_within_fuel (_text r) (_handle r)
                (_handle s')) as H.
  destruct (_load_bgzf_block _ _) as [[bs d] h|e h]; [done|].
  destruct e; try done.
  intros [= <-]. rsimpl. done.
Qed.

Lemma load_block_within_fuel so r : within_fuel (_load_block so) r.
Proof.
  unfold _load_block.
  apply within_fuel_get_bind.
  assert (forall s, within_fuel
            (if bool_decide (Some s = _block_start_offset r) then
               modify (set_within_block_offset 0)
             else
               match _buffers r !! s with
               | Some (buffer, raw_length) =>
                   modify (set_buffer buffer);;
                   modify (set_block_raw_length (Some raw_length));;
                   modify (set_within_block_offset 0);;
                   modify (set_block_start_offset (Some s))
               | None =>
                   evict (S (size (_buffers r)));;
                   on_handle (File.seek s);;
                   p ← on_handle File.tell;
                   modify (set_block_start_offset (Some p));;
                   '(block_size, buffer) ← try_load_bgzf_block;
                   modify (set_buffer buffer);;
                   modify (set_within_block_offset 0);;
                   modify (set_block_raw_length (Some block_size));;
                   r ← get;
                   modify (set_buffers
                             (<[p := (buffer, block_size)]> (_buffers r)))
               end) r) as Hbody; [intros s|].
  2: { destruct so as [s|]; [apply (Hbody s)|].
       destruct (_block_start_offset r) as [a|];
         [|by apply within_fuel_raise].
       destruct (_block_raw_length r) as [b|];
         [apply (Hbody (a + b))|by apply within_fuel_raise]. }
  destruct (bool_decide _); [apply within_fuel_modify|].
  destruct (_buffers r !! s) as [[buf raw]|].
  - repeat (apply within_fuel_bind; [apply within_fuel_modify|intros ? ? _]).
    apply within_fuel_modify.
  - apply within_fuel_bind; [apply evict_within_fuel; lia|].
    intros _ r2 _.
    apply within_fuel_bind;
      [apply within_fuel_reader_on_handle, within_fuel_seek|intros _ ? _].
    apply within_fuel_bind;
      [apply within_fuel_reader_on_handle, within_fuel_tell|intros p ? _].
    apply within_fuel_bind; [apply within_fuel_modify|intros _ ? _].
    apply within_fuel_bind; [apply try_load_within_fuel|intros [bs buf] ? _].
    repeat (apply within_fuel_bind; [apply within_fuel_modify|intros ? ? _]).
    apply within_fuel_bind; [apply within_fuel_get|intros ? ? _].
    apply within_fuel_modify.
Qed.

Lemma load_block_within so r r' :
  _load_block so r = Ok tt r' -> _within_block_offset r' = 0.
Proof.
  unfold _load_block. rewrite run_get.
  intros (s & r1 & _ & Hbody)%bind_ok_inv. revert Hbody.
  case_bool_decide as Hcur; [by intros [= <-]|].
  destruct (_buffers r !! s) as [[buf raw]|].
  - rewrite !run_modify. by intros [= <-].
  - intros (u2 & r2 & _ & Hbody)%bind_ok_inv.
    apply bind_ok_inv in Hbody as (u3 & r3 & _ & Hbody).
    apply bind_ok_inv in Hbody as (p & r4 & _ & Hbody).
    rewrite run_modify in Hbody.
    apply bind_ok_inv in Hbody as ([bs buf] & r5 & _ & Hbody).
    rewrite !run_modify, run_get in Hbody. by injection Hbody as <-.
Qed.

Lemma read_rec_within_fuel fuel size r :
  size <= Z.of_nat fuel
  \/ (_within_block_offset r = 0 /\ _buffer r <> []
      /\ size - 1 <= Z.of_nat fuel) ->
  within_fuel (read_rec fuel size) r.
Proof.
  revert size r. induction fuel as [|fuel IH]; intros size r Hf;
    cbn [read_rec];
    (destruct (size <? 0) eqn:E1; [by apply within_fuel_raise|]);
    (destruct (size =? 0) eqn:E2; [apply within_fuel_ret|]);
    apply within_fuel_get_bind;
    (destruct (_within_block_offset r + size <=? len (_buffer r)) eqn:E3;
     [apply within_fuel_bind; [apply within_fuel_modify|intros _ ? _];
      apply within_fuel_bind; [apply within_fuel_assert|intros _ ? _];
      apply within_fuel_ret|]);
    (apply within_fuel_bind; [apply load_block_within_fuel|]);
    intros [] r1 Hload; apply load_block_within in Hload;
    apply within_fuel_get_bind;
    (destruct (bool_decide (_buffer r1 = [])) eqn:E4;
     [apply within_fuel_ret|]);
    (destruct (negb _); [|apply within_fuel_ret]);
    apply bool_decide_eq_false in E4.
  - exfalso. destruct Hf as [Hf|(Hw & Hne & Hf)]; [lia|].
    assert (0 < len (_buffer r)); [|lia].
    pose proof (len_nonneg (_buffer r)).
    destruct (_buffer r); [done|]. unfold len in *. simpl. lia.
  - apply within_fuel_bind; [|intros; apply within_fuel_ret].
    apply IH. right. split; [done|]. split; [done|].
    pose proof (len_nonneg (slice_from (_buffer r) (_within_block_offset r))).
    destruct Hf as [Hf|(Hw & Hne & Hf)]; [lia|].
    rewrite Hw in *. unfold slice_from. change (Z.to_nat 0) with 0%nat.
    rewrite drop_0.
    assert (0 < len (_buffer r)); [|lia].
    destruct (_buffer r); [done|]. unfold len. simpl. lia.
Qed.

Lemma read_within_fuel size r : within_fuel (read size) r.
Proof. apply read_rec_within_fuel. left. lia. Qed.

Lemma seek_within_fuel v r : within_fuel (seek v) r.
Proof.
  unfold seek. apply within_fuel_get_bind.
  apply within_fuel_bind.
  { destruct (negb _); [|apply within_fuel_ret].
    apply within_fuel_bind; [apply load_block_within_fuel|intros _ ? _].
    apply within_fuel_get_bind. apply within_fuel_assert. }
  intros _ r1 _. apply within_fuel_get_bind.
  destruct (_ && _); [by apply within_fuel_raise|].
  apply within_fuel_bind; [apply within_fuel_modify|intros _ ? _].
  apply within_fuel_ret.
Qed.

Lemma init_within_fuel fs filename mode fileobj max_cache :
  __init__ fs filename mode fileobj max_cache <> Raises RecursionLimit.
Proof.
  unfold __init__. destruct (max_cache <? 1); [done|].
  match goal with
  | |- context [match ?handle with Returns _ => _ | Raises _ => _ end] =>
      assert (handle <> Raises RecursionLimit) as Hh;
      [|destruct handle as [h|e]; [|congruence]]
  end.
  { destruct fileobj as [f|].
    - by repeat case_match.
    - destruct mode as [m|]; [|done].
      destruct (_ || _); [done|]. destruct filename as [name|]; [|done].
      unfold File.open_rb. by destruct (fs !! name). }
  destruct mode as [m|]; [|done].
  match goal with
  | |- context [?m ?s] =>
      lazymatch m with
      | (on_handle File.tell ≫= _) =>
          assert (within_fuel m s) as Hwf
      end
  end.
  { apply within_fuel_bind;
      [apply within_fuel_reader_on_handle, within_fuel_tell|intros p ? _].
    apply load_block_within_fuel. }
  match goal with
  | |- context [match ?o with Ok _ _ => _ | Raise _ _ => _ end] =>
      destruct o as [u r|e r] eqn:E; [done|]
  end.
  intros [= ->]. by apply (Hwf r).
Qed.

End FuelReader.

Section FuelWriter.

Context {zlib : Zlib} {laws : ZlibLaws zlib}.
Import BgzfWriter.

Lemma within_fuel_writer_on_handle {A} (m : M file A) w :
  within_fuel m (_handle w) -> within_fuel (on_handle m) w.
Proof.
  intros Hm s'. unfold on_handle.
  pose proof (Hm (_handle s')) as H.
  destruct (m (_handle w)) as [a h|e h]; [done|].
  intros [= -> <-]. wsimpl. done.
Qed.

Lemma writer_on_handle_buffer {A} (m : M file A) w a w' :
  on_handle m w = Ok a w' -> _buffer w' = _buffer w.
Proof.
  unfold on_handle. destruct (m (_handle w)); [|done]. by intros [= _ <-].
Qed.

Lemma write_block_within_fuel block w : within_fuel (_write_block block) w.
Proof.
  unfold _write_block.
  apply within_fuel_bind;
    [apply within_fuel_writer_on_handle, within_fuel_tell|intros ? ? _].
  apply within_fuel_bind; [apply within_fuel_assert|intros _ ? _].
  apply within_fuel_get_bind.
  apply within_fuel_bind;
    [apply within_fuel_lift, compress_not_limit|intros c ? _].
  apply within_fuel_bind; [apply within_fuel_assert|intros _ ? _].
  apply within_fuel_bind;
    [apply within_fuel_lift; destruct (_ <? _);
     [apply pack_not_limit_i|apply pack_not_limit_I]|intros ? ? _].
  apply within_fuel_bind;
    [apply within_fuel_lift, pack_not_limit_H|intros ? ? _].
  apply within_fuel_bind;
    [apply within_fuel_lift, pack_not_limit_I|intros ? ? _].
  apply within_fuel_bind;
    [apply within_fuel_lift, pack_not_limit_I|intros ? ? _].
  apply within_fuel_writer_on_handle, within_fuel_write.
Qed.

Lemma write_block_buffer block w u w' :
  _write_block block w = Ok u w' -> _buffer w' = _buffer w.
Proof.
  unfold _write_block.
  intros (? & w1 & H1%writer_on_handle_buffer & H)%bind_ok_inv.
  apply bind_ok_inv in H as (? & w2 & [_ ->]%assert_ok_inv & H).
  rewrite run_get in H.
  apply bind_ok_inv in H as (? & w3 & [_ ->]%lift_ok_inv & H).
  apply bind_ok_inv in H as (? & w4 & [_ ->]%assert_ok_inv & H).
  apply bind_ok_inv in H as (? & w5 & [_ ->]%lift_ok_inv & H).
  apply bind_ok_inv in H as (? & w6 & [_ ->]%lift_ok_inv & H).
  apply bind_ok_inv in H as (? & w7 & [_ ->]%lift_ok_inv & H).
  apply bind_ok_inv in H as (? & w8 & [_ ->]%lift_ok_inv & H).
  apply writer_on_handle_buffer in H. congruence.
Qed.

Lemma write_loop_within_fuel fuel w :
  (length (_buffer w) <= fuel)%nat -> within_fuel (write_loop fuel) w.
Proof.
  revert w. induction fuel as [|fuel IH]; intros w Hf;
    cbn [write_loop]; apply within_fuel_get_bind;
    destruct (len (_buffer w) >=? 65536) eqn:E;
    try apply within_fuel_ret.
  - unfold len in E. lia.
  - apply within_fuel_bind; [apply write_block_within_fuel|].
    intros _ w1 Hb%write_block_buffer. apply within_fuel_get_bind.
    apply within_fuel_bind; [apply within_fuel_modify|].
    intros _ w2 [= _ <-]. apply IH. wsimpl. rewrite Hb.
    pose proof (length_slice_from_lt (_buffer w) ltac:(lia)). lia.
Qed.

Lemma flush_loop_within_fuel fuel w :
  (length (_buffer w) <= fuel)%nat -> within_fuel (flush_loop fuel) w.
Proof.
  revert w. induction fuel as [|fuel IH]; intros w Hf;
    cbn [flush_loop]; apply within_fuel_get_bind;
    destruct (len (_buffer w) >=? 65536) eqn:E;
    try apply within_fuel_ret.
  - unfold len in E. lia.
  - apply within_fuel_bind; [apply write_block_within_fuel|].
    intros _ w1 Hb%write_block_buffer. apply within_fuel_get_bind.
    apply within_fuel_bind; [apply within_fuel_modify|].
    intros _ w2 [= _ <-]. apply IH. wsimpl. rewrite Hb.
    unfold slice_from, len in *. rewrite length_drop. lia.
Qed.

Lemma write_within_fuel data w : within_fuel (write data) w.
Proof.
  unfold write. apply within_fuel_get_bind.
  destruct (_ <? _); [apply within_fuel_modify|].
  apply within_fuel_bind; [apply within_fuel_modify|intros _ w1 _].
  apply within_fuel_get_bind. by apply write_loop_within_fuel.
Qed.

Lemma flush_within_fuel w : within_fuel flush w.
Proof.
  unfold flush. apply within_fuel_get_bind.
  apply within_fuel_bind; [by apply flush_loop_within_fuel|intros _ ? _].
  apply within_fuel_get_bind.
  apply within_fuel_bind; [apply write_block_within_fuel|intros _ ? _].
  apply within_fuel_bind; [apply within_fuel_modify|intros _ ? _].
  apply within_fuel_writer_on_handle, within_fuel_flush.
Qed.

Lemma close_within_fuel w : within_fuel close w.
Proof.
  unfold close. apply within_fuel_get_bind.
  apply within_fuel_bind;
    [destruct (negb _); [apply flush_within_fuel|apply within_fuel_ret]
    |intros _ ? _].
  apply within_fuel_bind;
    [apply within_fuel_writer_on_handle, within_fuel_write|intros _ ? _].
  apply within_fuel_bind;
    [apply within_fuel_writer_on_handle, within_fuel_flush|intros _ ? _].
  apply within_fuel_writer_on_handle, within_fuel_close.
Qed.

End FuelWriter.

(** No operation stops for lack of fuel: the recursion of [read] and the
    loops of the decoder, of the cache and of the writer end within the
    bounds the definitions give them. *)
Theorem fuel_is_enough {zlib : Zlib} {laws : ZlibLaws zlib} :
  (forall fs filename mode fileobj max_cache,
     BgzfReader.__init__ fs filename mode fileobj max_cache
     <> Raises RecursionLimit)
  /\ (forall size r, within_fuel (BgzfReader.read size) r)
  /\ (forall v r, within_fuel (BgzfReader.seek v) r)
  /\ (forall data w, within_fuel (BgzfWriter.write data) w)
  /\ (forall w, within_fuel BgzfWriter.flush w)
  /\ (forall w, within_fuel BgzfWriter.close w)
  /\ (forall h, 0 <= position h -> within_fuel BgzfBlocks h).
Proof.
  repeat split.
  - apply init_within_fuel.
  - intros size r. apply read_within_fuel.
  - intros v r. apply seek_within_fuel.
  - intros data w. apply write_within_fuel.
  - apply flush_within_fuel.
  - apply close_within_fuel.
  - apply BgzfBlocks_within_fuel.
Qed.

(** ** Some block of 65536 bytes does not fit, whatever zlib does *)

Section Counting.

Local Open Scope nat_scope.

Lemma all_bytes_length : length all_bytes = 256.
Proof. vm_compute. reflexivity. Qed.

Lemma all_bytes_complete b : b ∈ all_bytes.
Proof.
  unfold all_bytes. apply list_elem_of_omap. exists (Byte.to_nat b).
  split; [|apply Byte.of_to_nat].
  apply elem_of_seq. pose proof (Byte.to_nat_bounded b). lia.
Qed.

Lemma all_bytes_NoDup : NoDup all_bytes.
Proof. apply (bool_decide_unpack _). vm_compute. exact I. Qed.

Lemma length_concat_map {A B} (f : A -> list B) (l : list A) k :
  (forall a, length (f a) = k) -> length (concat (map f l)) = length l * k.
Proof.
  intros Hf. induction l as [|a l IH]; [done|].
  cbn [map concat length]. rewrite length_app, Hf, IH. lia.
Qed.

Lemma elem_of_concat_map {A B} (f : A -> list B) (l : list A) x :
  x ∈ concat (map f l) <-> exists a, a ∈ l /\ x ∈ f a.
Proof.
  induction l as [|a l IH]; cbn [map concat].
  - split; [by intros ?%elem_of_nil|by intros (a & ?%elem_of_nil & _)].
  - rewrite elem_of_app, IH. split.
    + intros [Hx|(a' & Ha' & Hx)]; [exists a|exists a'];
        (split; [|done]); [by left|by right].
    + intros (a' & [->|Ha']%elem_of_cons & Hx); [by left|right; eauto].
Qed.

Lemma NoDup_concat_map {A B} (f : A -> list B) (l : list A) :
  NoDup l -> (forall a, NoDup (f a)) ->
  (forall a a' x, a <> a' -> x ∈ f a -> x ∈ f a' -> False) ->
  NoDup (concat (map f l)).
Proof.
  intros Hl Hf Hdisj. induction Hl as [|a l Ha Hl IH]; [constructor|].
  cbn [map concat]. apply NoDup_app. split; [apply Hf|]. split; [|done].
  intros x Hx (a' & Ha' & Hx')%elem_of_concat_map.
  apply (Hdisj a a' x); [|done..]. by intros ->.
Qed.

Lemma words_length n : length (words n) = 256 ^ n.
Proof.
  induction n as [|n IH]; [done|]. cbn [words].
  rewrite (length_concat_map _ _ (256 ^ n)), all_bytes_length.
  - by rewrite Nat.pow_succ_r'.
  - intros b. by rewrite length_map.
Qed.

Lemma elem_of_words n w : w ∈ words n <-> length w = n.
Proof.
  revert w. induction n as [|n IH]; intros w; cbn [words].
  - rewrite list_elem_of_singleton. by destruct w.
  - rewrite elem_of_concat_map. split.
    + intros (b & _ & (w' & -> & Hw')%list_elem_of_fmap).
      apply IH in Hw'. simpl. lia.
    + destruct w as [|b w]; [done|]. intros [= Hw].
      exists b. split; [apply all_bytes_complete|].
      apply list_elem_of_fmap. exists w. split; [done|]. by apply IH.
Qed.

Lemma words_NoDup n : NoDup (words n).
Proof.
  induction n as [|n IH]; cbn [words]; [apply NoDup_singleton|].
  apply NoDup_concat_map; [apply all_bytes_NoDup| |].
  - intros b. apply NoDup_fmap_2; [|done]. by intros ?? [=].
  - intros b b' x Hne (w & -> & _)%list_elem_of_fmap
      (w' & [= ? ?] & _)%list_elem_of_fmap. done.
Qed.

Lemma elem_of_shorter m w : length w < m -> w ∈ shorter m.
Proof.
  induction m as [|m IH]; [lia|]. intros Hw. cbn [shorter].
  apply elem_of_app. destruct (decide (length w = m)) as [Heq|Hne].
  - right. by apply elem_of_words.
  - left. apply IH. lia.
Qed.

Lemma shorter_length m : length (shorter m) < 256 ^ m.
Proof.
  induction m as [|m IH]; [simpl; lia|]. cbn [shorter].
  rewrite length_app, words_length, Nat.pow_succ_r'. lia.
Qed.

(** No one-to-one function takes all the strings of length [n] to
    strings of a length below [m <= n]. *)
Lemma no_injection_to_shorter (f : bytes -> bytes) n m :
  m <= n ->
  (forall x y, x ∈ words n -> y ∈ words n -> f x = f y -> x = y) ->
  (forall x, x ∈ words n -> length (f x) < m) -> False.
Proof.
  intros Hmn Hinj Hshort.
  assert (NoDup (f <$> words n)) as Hnd
    by (apply NoDup_fmap_2_strong; [done|apply words_NoDup]).
  assert (f <$> words n ⊆+ shorter m) as Hsub.
  { apply NoDup_submseteq; [done|].
    intros y (x & -> & Hx)%list_elem_of_fmap.
    by apply elem_of_shorter, Hshort. }
  apply submseteq_length in Hsub.
  rewrite length_fmap, words_length in Hsub.
  pose proof (shorter_length m).
  pose proof (Nat.pow_le_mono_r 256 m n ltac:(lia) Hmn). lia.
Qed.

End Counting.

Section NoFit.

Context {zlib : Zlib} {laws : ZlibLaws zlib}.

Lemma fits_decidable level b : {fits level b} + {~ fits level b}.
Proof.
  unfold fits. destruct (compress level b) as [c|e].
  - destruct (decide (len c + 26 <= 65536)) as [Hle|Hgt].
    + left. by exists c.
    + right. intros (c' & [= <-] & Hle). done.
  - right. by intros (c' & ? & _).
Qed.

(** Deflating cannot shorten every block: for each compression level,
    some block of 65536 bytes does not deflate to 65510 bytes or less. *)
Lemma some_block_does_not_fit level :
  exists block, len block = 65536 /\ ~ fits level block.
Proof.
  destruct (Forall_Exists_dec (fits level) (fun b => ~ fits level b)
              (fits_decidable level) (words (Z.to_nat 65536)))
    as [Hall|Hex].
  - exfalso. rewrite Forall_forall in Hall.
    apply (no_injection_to_shorter (deflated level)
             (Z.to_nat 65536) (Z.to_nat 65511)); [lia| |].
    + intros x y Hx%Hall Hy%Hall Heq.
      apply fits_decompress in Hx as [Hx _].
      apply fits_decompress in Hy as [Hy _].
      rewrite Heq, Hy in Hx. by injection Hx.
    + intros x Hx%Hall. apply fits_decompress in Hx as [_ Hx].
      unfold len in Hx. lia.
  - apply Exists_exists in Hex as (block & Hin & Hno).
    exists block. split; [|done].
    apply elem_of_words in Hin. unfold len. lia.
Qed.

(** X19: so a writer, at whatever level, raises on some input of 65536
    bytes, before anything was written. *)
Lemma writer_raises_on_some_input (w : BgzfWriter.t) :
  at_end (BgzfWriter._handle w) -> BgzfWriter._buffer w = [] ->
  exists B e,
    len B = 65536
    /\ (BgzfWriter.write B;; BgzfWriter.close) w
       = Raise e (BgzfWriter.set_buffer B w).
Proof.
  intros Hend Hbuf.
  destruct (some_block_does_not_fit (BgzfWriter.compresslevel w))
    as (B & HB & Hno).
  assert (slice B 0 65536 = B) as Hslice.
  { rewrite slice_0. apply take_ge. unfold len in HB. lia. }
  assert (exists e,
            BgzfWriter._write_block B (BgzfWriter.set_buffer B w)
            = Raise e (BgzfWriter.set_buffer B w)) as [e He].
  { rewrite write_block_char by done. wsimpl.
    replace (len B <=? 65536) with true by lia.
    destruct (compress (BgzfWriter.compresslevel w) B) as [c|e] eqn:Hc;
      [|by eexists].
    destruct (len c <? 65536) eqn:E1; [|by eexists].
    destruct (len c + 25 <=? 65535) eqn:E2; [|by eexists].
    exfalso. apply Hno. exists c. split; [done|lia]. }
  exists B, e. split; [done|]. apply run_bind_raise.
  unfold BgzfWriter.write, _as_bytes. rewrite run_get, Hbuf.
  cbn [app]. fold (len (@nil byte) + len B).
  replace (len [] + len B <? 65536) with false
    by (change (len (@nil byte)) with 0; lia).
  rewrite run_modify, run_get. wsimpl.
  assert (length B = S (pred (length B))) as ->
    by (unfold len in HB; lia).
  apply write_loop_first_raises; wsimpl; [lia|]. by rewrite Hslice.
Qed.

End NoFit.

(** With the stored-block zlib, from a new writer. *)
Lemma writer_raises_on_some_input_witness :
  exists B e,
    len B = 65536
    /\ (@BgzfWriter.write StoredZlib.zlib B;; @BgzfWriter.close StoredZlib.zlib)
         writer0
       = Raise e (BgzfWriter.set_buffer B writer0).
Proof.
  apply (@writer_raises_on_some_input StoredZlib.zlib stored_zlib_laws
           writer0).
  - split; reflexivity.
  - reflexivity.
Defined.

(** ** The reader keeps its invariant *)

Section ReaderInvariant.

Context {zlib : Zlib}.
Import BgzfReader.

Lemma load_block_ok so r r' :
  _load_block so r = Ok tt r' ->
  _block_start_offset r = None \/ reader_ok r ->
  reader_ok r'.
Proof.
  unfold _load_block. rewrite run_get.
  intros (s & r1 & Hs & Hbody)%bind_ok_inv Hr.
  assert (r1 = r) as ->.
  { clear -Hs. destruct so; [by injection Hs|].
    destruct (_block_start_offset r), (_block_raw_length r);
      try done; by injection Hs. }
  clear Hs. revert Hbody.
  case_bool_decide as Hcur.
  - intros [= <-]. destruct Hr as [Hnone|(Hbs & Hrl & Hw)]; [congruence|].
    split_and!; rsimpl; try done; try lia; apply len_nonneg.
  - destruct (_buffers r !! s) as [[buf raw]|].
    + rewrite !run_modify. intros [= <-].
      split_and!; rsimpl; try done; try lia; apply len_nonneg.
    + intros (u2 & r2 & _ & Hbody)%bind_ok_inv.
      apply bind_ok_inv in Hbody as (u3 & r3 & _ & Hbody).
      apply bind_ok_inv in Hbody as (p & r4 & _ & Hbody).
      rewrite run_modify in Hbody.
      apply bind_ok_inv in Hbody as ([bs buf] & r5 & Htry & Hbody).
      apply try_load_ok_inv in Htry as [h5 ->].
      rewrite !run_modify, run_get in Hbody. injection Hbody as <-.
      split_and!; rsimpl; try done; try lia; apply len_nonneg.
Qed.

Lemma seek_ok v r v' r' :
  seek v r = Ok v' r' -> reader_ok r -> reader_ok r'.
Proof.
  unfold seek. rewrite run_get.
  intros (u & r1 & Hload & Htail)%bind_ok_inv Hr.
  assert (reader_ok r1) as (Hbs & Hrl & Hw).
  { destruct (negb _); [|by injection Hload as _ <-].
    apply bind_ok_inv in Hload as ([] & r2 & Hload & Hassert).
    rewrite run_get in Hassert. apply assert_ok_inv in Hassert as [_ ->].
    eapply load_block_ok; [exact Hload|by right]. }
  rewrite run_get in Htail.
  set (uoff := Z.lxor v (Z.shiftl (Z.shiftr v 16) 16)) in *.
  assert (0 <= uoff).
  { subst uoff. rewrite lxor_shiftr_shiftl16.
    apply Z.mod_pos_bound. lia. }
  destruct (uoff >=? len (_buffer r1)) eqn:E1;
    destruct ((uoff =? 0) && (len (_buffer r1) =? 0)) eqn:E2;
    cbn [andb negb] in Htail; try done;
    rewrite run_modify in Htail; injection Htail as _ <-;
    repeat split; rsimpl; try done; lia.
Qed.

Lemma read_rec_ok fuel size r d r' :
  read_rec fuel size r = Ok d r' -> reader_ok r -> reader_ok r'.
Proof.
  revert size r d. induction fuel as [|fuel IH]; intros size r d;
    cbn [read_rec];
    (destruct (size <? 0) eqn:E1; [done|]);
    (destruct (size =? 0) eqn:E2; [by intros [= _ <-]|]);
    rewrite run_get;
    (destruct (_within_block_offset r + size <=? len (_buffer r)) eqn:E3;
     [rewrite run_modify;
      intros (u & r1 & [_ ->]%assert_ok_inv & [= _ <-])%bind_ok_inv
             (Hbs & Hrl & Hw);
      repeat split; rsimpl; try done; lia|]);
    intros ([] & r1 & Hload & Htail)%bind_ok_inv Hr;
    rewrite run_get in Htail;
    (assert (reader_ok r1) as Hr1
       by (eapply load_block_ok; [exact Hload|by right]));
    (destruct (bool_decide (_buffer r1 = [])); [by injection Htail as _ <-|]);
    (destruct (negb _); [|by injection Htail as _ <-]).
  - done.
  - apply bind_ok_inv in Htail as (rest & r2 & Hrec & [= _ <-]).
    by eapply IH.
Qed.

Lemma init_ok fs filename mode fileobj max_cache r :
  __init__ fs filename mode fileobj max_cache = Returns r -> reader_ok r.
Proof.
  unfold __init__. destruct (max_cache <? 1); [done|].
  match goal with
  | |- context [match ?handle with Returns _ => _ | Raises _ => _ end] =>
      destruct handle as [h|e]; [|done]
  end.
  destruct mode as [m|]; [|done].
  match goal with
  | |- context [match ?o with Ok _ _ => _ | Raise _ _ => _ end] =>
      destruct o as [[] r1|e r1] eqn:E; [|done]
  end.
  intros [= <-].
  apply bind_ok_inv in E as (p & r0 & Htell & Hload).
  apply on_handle_ok_inv in Htell as (h' & _ & ->).
  eapply load_block_ok; [exact Hload|by left].
Qed.

End ReaderInvariant.

(** After [__init__], and after every [seek] and [read] that returns, a
    block is loaded and [0 <= within_block <= len(buffer)]. *)
Theorem reader_invariant {zlib : Zlib} :
  (forall fs filename mode fileobj max_cache r,
     BgzfReader.__init__ fs filename mode fileobj max_cache = Returns r ->
     reader_ok r)
  /\ (forall v r v' r',
        reader_ok r -> BgzfReader.seek v r = Ok v' r' -> reader_ok r')
  /\ (forall size r d r',
        reader_ok r -> BgzfReader.read size r = Ok d r' -> reader_ok r').
Proof.
  split; [|split].
  - apply init_ok.
  - intros v r v' r' Hr Hs. by eapply seek_ok.
  - intros size r d r' Hr Hs. by eapply read_rec_ok.
Qed.

(** * Further properties of the code *)

(** ** What a read tells about the file *)

Section ReadInversion.

Lemma same_file_refl h : same_file h h.
Proof. by repeat split. Qed.

Lemma same_file_trans h1 h2 h3 :
  same_file h1 h2 -> same_file h2 h3 -> same_file h1 h3.
Proof. intros (? & ? & ?) (? & ? & ?). repeat split; congruence. Qed.

Lemma same_file_sym h1 h2 : same_file h1 h2 -> same_file h2 h1.
Proof. intros (? & ? & ?). by repeat split. Qed.

Lemma same_file_set_position p h : same_file h (set_position p h).
Proof. by repeat split. Qed.

Lemma set_position_same_file p h h' :
  same_file h h' -> set_position p h' = set_position p h.
Proof.
  destruct h, h'. intros (Hc & Hcl & Hm). simpl in *. by subst.
Qed.

Lemma slice_take_drop {A} (l : list A) a n :
  0 <= a -> 0 <= n ->
  take (Z.to_nat n) (drop (Z.to_nat a) l) = slice l a (a + n).
Proof. intros Ha Hn. unfold slice. f_equal. lia. Qed.

(** A read of [n >= 0] bytes: it is complete when it does not reach the
    end of the file, and a read that returns something did not start at
    the end. *)
Lemma read_inv n h d h' :
  File.read n h = Ok d h' -> 0 <= n -> 0 <= position h ->
  same_file h h'
  /\ position h' = position h + len d /\ len d <= n
  /\ (position h' < len (content h) \/ len d = n ->
      len d = n
      /\ d = slice (content h) (position h) (position h + n))
  /\ (d <> [] ->
      position h < len (content h) /\ position h' <= len (content h)).
Proof.
  unfold File.read. destruct (closed h) eqn:Hc; [done|].
  intros H Hn Hp. replace (n <? 0) with false in H by lia.
  injection H as <- <-.
  remember (take (Z.to_nat n) (drop (Z.to_nat (position h)) (content h)))
    as d eqn:Ed.
  assert (length d
          = Nat.min (Z.to_nat n)
              (length (content h) - Z.to_nat (position h))) as Hd
    by (subst d; by rewrite length_take, length_drop).
  destruct (Nat.min_spec (Z.to_nat n)
              (length (content h) - Z.to_nat (position h)))
    as [[Hlt Hm]|[Hlt Hm]]; rewrite Hm in Hd; clear Hm;
    (split; [apply same_file_set_position|]).
  all: cbn [position set_position content]; unfold len in *.
  all: split; [done|]; split; [lia|]; split.
  all: try (intros Hne; destruct d; [done|]; cbn [length] in *; lia).
  all: intros H; assert (length d = Z.to_nat n) as Hfull by lia.
  all: split; [lia|].
  all: rewrite Ed; by rewrite slice_take_drop.
Qed.

(** [read] with a negative size takes all that is left. *)
Lemma read_neg_inv n h d h' :
  File.read n h = Ok d h' -> n < 0 -> 0 <= position h ->
  same_file h h' /\ len (content h) <= position h'.
Proof.
  unfold File.read. destruct (closed h) eqn:Hc; [done|].
  intros H Hn Hp. replace (n <? 0) with true in H by lia.
  injection H as <- <-.
  split; [apply same_file_set_position|].
  cbn [position set_position]. unfold len. rewrite length_drop. lia.
Qed.

Lemma unpack_H_inv b v :
  unpack_H b = Returns v -> len b = 2 /\ v = le_value b /\ 0 <= v <= 65535.
Proof.
  unfold unpack_H. case_bool_decide as Hl; [|done]. intros [= <-].
  split; [unfold len; lia|]. split; [done|].
  destruct b as [|x [|y [|z b]]]; try done. cbn [le_value].
  pose proof (Z_of_byte_range x). pose proof (Z_of_byte_range y). lia.
Qed.

Lemma unpack_I_inv b v :
  unpack_I b = Returns v -> len b = 4 /\ v = le_value b.
Proof.
  unfold unpack_I. case_bool_decide as Hl; [|done]. intros [= <-].
  split; [unfold len; lia|done].
Qed.

Lemma len_nonempty {A} (l : list A) : 0 < len l -> l <> [].
Proof. destruct l; [unfold len; simpl; lia|done]. Qed.

End ReadInversion.

(** ** What a block that decodes tells about the file *)

(** The facts of [read_inv] about the read [R], with the content of the
    file written as [c]. *)
Ltac rinv R c Hc Hc' Hpos Hfull Hne :=
  let Hsf := fresh "Hsf" in
  let Hlen := fresh "Hlen" in
  let Hnn := fresh "Hnn" in
  lazymatch type of R with
  | File.read _ _ = Ok ?d _ => pose proof (len_nonneg d) as Hnn
  end;
  apply read_inv in R as (Hsf & Hpos & Hlen & Hfull & Hne); [|lia|lia];
  pose proof Hsf as (Hc' & _ & _); rewrite Hc in Hc', Hfull, Hne.

Section DecodeInversion.

Context {zlib : Zlib}.

Lemma subfields_inv fuel extra x bs h x' bs' h' :
  subfields fuel extra x bs h = Ok (x', bs') h' -> 0 <= position h ->
  same_file h h' /\ position h <= position h' /\ x <= x' /\ extra <= x'
  /\ (position h' < len (content h) -> position h' = position h + (x' - x))
  /\ match bs with
     | Some v => bs' = Some v
     | None => forall v, bs' = Some v -> x + 6 <= x' /\ 1 <= v <= 65536
     end.
Proof.
  revert x bs h. induction fuel as [|fuel IH]; intros x bs h;
    cbn [subfields]; destruct (x <? extra) eqn:E; try done.
  1,3: intros [= <- <- <-] Hp; split; [apply same_file_refl|];
       repeat split; try lia; by destruct bs.
  intros H Hp. remember (content h) as c eqn:Hc. symmetry in Hc.
  apply bind_ok_inv in H as (id & h1 & R1 & H).
  apply bind_ok_inv in H as (b & h2 & R2 & H).
  apply bind_ok_inv in H as (slen & ? & L1 & H).
  apply lift_ok_inv in L1 as [L1 ->].
  apply unpack_H_inv in L1 as (Lb & _ & Hslen).
  apply bind_ok_inv in H as (sdata & h3 & R3 & H).
  rinv R1 c Hc Hc1 Hpos1 Hfull1 Hne1.
  rinv R2 c Hc1 Hc2 Hpos2 Hfull2 Hne2.
  rinv R3 c Hc2 Hc3 Hpos3 Hfull3 Hne3.
  assert (same_file h h3) as Hsf3
    by (eapply same_file_trans; [|done]; by eapply same_file_trans).
  assert (forall bs1,
            match bs1 with
            | Some v => bs' = Some v
            | None => forall v, bs' = Some v ->
                                x + (slen + 4) + 6 <= x' /\ 1 <= v <= 65536
            end ->
            x + (slen + 4) <= x' ->
            (bs = bs1 \/ (bs = None /\ slen = 2
                          /\ exists v, bs1 = Some v /\ 1 <= v <= 65536)) ->
            match bs with
            | Some v => bs' = Some v
            | None => forall v, bs' = Some v -> x + 6 <= x' /\ 1 <= v <= 65536
            end) as Hbs.
  { intros bs1 H1 Hx [->|(-> & Hs & v & -> & Hv)].
    - destruct bs1; [done|]. intros v Hv. specialize (H1 v Hv). lia.
    - intros v' Hv'. rewrite H1 in Hv'. injection Hv' as <-. lia. }
  assert (forall bs1,
            subfields fuel extra (x + (slen + 4)) bs1 h3 = Ok (x', bs') h' ->
            (bs = bs1 \/ (bs = None /\ slen = 2
                          /\ exists v, bs1 = Some v /\ 1 <= v <= 65536)) ->
            same_file h h' /\ position h <= position h' /\ x <= x'
            /\ extra <= x'
            /\ (position h' < len c -> position h' = position h + (x' - x))
            /\ match bs with
               | Some v => bs' = Some v
               | None => forall v, bs' = Some v ->
                                   x + 6 <= x' /\ 1 <= v <= 65536
               end) as Hrec.
  { intros bs1 Hsub Hrel.
    apply IH in Hsub as (Hsf' & Hp' & Hx' & He' & Hex' & Hbs'); [|lia].
    rewrite Hc3 in Hex'.
    split; [by eapply same_file_trans|]. split; [lia|]. split; [lia|].
    split; [done|]. split; [|by eapply Hbs].
    intros Hlt. specialize (Hex' Hlt).
    destruct Hfull1 as [Hl1 _]; [left; lia|].
    destruct Hfull2 as [Hl2 _]; [left; lia|].
    destruct Hfull3 as [Hl3 _]; [left; lia|]. lia. }
  destruct (bytes_eqb id _bytes_BC).
  - apply bind_ok_inv in H as (? & ? & A1 & H).
    apply assert_ok_inv in A1 as [A1 ->].
    apply bind_ok_inv in H as (? & ? & A2 & H).
    apply assert_ok_inv in A2 as [A2 ->].
    apply bool_decide_eq_true in A2. subst bs.
    apply bind_ok_inv in H as (v & ? & L2 & H).
    apply lift_ok_inv in L2 as [L2 ->].
    apply unpack_H_inv in L2 as (_ & _ & Hv).
    apply Z.eqb_eq in A1.
    apply (Hrec _ H). right. split; [done|]. split; [done|].
    exists (v + 1). split; [done|lia].
  - apply (Hrec _ H). by left.
Qed.

(** A block that decodes is all in the file: the handle has advanced by
    the block size, which is what the fields of the block add up to, and
    the two trailing fields are the CRC-32 and the length of the data. *)
Lemma load_bgzf_block_ok_inv text h bs data h' :
  _load_bgzf_block text h = Ok (bs, data) h' -> 0 <= position h ->
  same_file h h'
  /\ position h' = position h + bs
  /\ position h + bs <= len (content h)
  /\ 26 <= bs <= 65536
  /\ slice (content h) (position h) (position h + 4) = _bgzf_magic
  /\ exists extra_len crc,
       extra_len = le_value (slice (content h) (position h + 10)
                                   (position h + 12))
       /\ 6 <= extra_len <= bs - 20
       /\ decompress (slice (content h) (position h + 12 + extra_len)
                            (position h + bs - 8)) = Returns data
       /\ (if crc32 data <? 0 then pack_i (crc32 data)
           else pack_I (crc32 data)) = Returns crc
       /\ slice (content h) (position h + bs - 8) (position h + bs - 4)
          = crc
       /\ le_value (slice (content h) (position h + bs - 4)
                          (position h + bs)) = len data.
Proof.
  intros H Hp. remember (content h) as c eqn:Hc. symmetry in Hc.
  remember (position h) as p eqn:Ep. pose proof (len_nonneg c) as Hc0'.
  unfold _load_bgzf_block in H.
  apply bind_ok_inv in H as (magic & h1 & R1 & H).
  case_bool_decide as Hnil; [done|].
  destruct (bytes_eqb magic _bgzf_magic) eqn:Hmagic; [|done].
  cbn [negb] in H. apply bool_decide_eq_true in Hmagic.
  apply bind_ok_inv in H as (mt & h2 & R2 & H).
  apply bind_ok_inv in H as (xfl & h3 & R3 & H).
  apply bind_ok_inv in H as (os & h4 & R4 & H).
  apply bind_ok_inv in H as (b & h5 & R5 & H).
  apply bind_ok_inv in H as (extra & ? & L1 & H).
  apply lift_ok_inv in L1 as [L1 ->].
  apply unpack_H_inv in L1 as (Lb & Hextra & Hex).
  apply bind_ok_inv in H as ([x bsz] & h6 & Sub & H).
  apply bind_ok_inv in H as (? & ? & A1 & H).
  apply assert_ok_inv in A1 as [A1 ->]. apply Z.eqb_eq in A1. subst x.
  destruct bsz as [bsz|]; [|done].
  apply bind_ok_inv in H as (raw & h7 & R7 & H).
  apply bind_ok_inv in H as (data' & ? & L2 & H).
  apply lift_ok_inv in L2 as [L2 ->].
  apply bind_ok_inv in H as (ecrc & h8 & R8 & H).
  apply bind_ok_inv in H as (b2 & h9 & R9 & H).
  apply bind_ok_inv in H as (esize & ? & L3 & H).
  apply lift_ok_inv in L3 as [L3 ->].
  apply unpack_I_inv in L3 as (Lb2 & Hesize).
  apply bind_ok_inv in H as (? & ? & A2 & H).
  apply assert_ok_inv in A2 as [A2 ->]. apply Z.eqb_eq in A2.
  apply bind_ok_inv in H as (crc & ? & L4 & H).
  apply lift_ok_inv in L4 as [L4 ->].
  apply bind_ok_inv in H as (? & ? & A3 & H).
  apply assert_ok_inv in A3 as [A3 ->]. apply bool_decide_eq_true in A3.
  assert (bs = bsz /\ data = data' /\ h' = h9) as (-> & -> & ->)
    by (destruct text; by injection H as <- <- <-).
  clear H.
  rinv R1 c Hc Hc1 Hpos1 Hfull1 Hne1.
  rinv R2 c Hc1 Hc2 Hpos2 Hfull2 Hne2.
  rinv R3 c Hc2 Hc3 Hpos3 Hfull3 Hne3.
  rinv R4 c Hc3 Hc4 Hpos4 Hfull4 Hne4.
  rinv R5 c Hc4 Hc5 Hpos5 Hfull5 Hne5.
  apply subfields_inv in Sub as (Hsf6 & Hp6 & _ & _ & Hex6 & Hbsz);
    [|lia].
  pose proof Hsf6 as (Hc6 & _ & _). rewrite Hc5 in Hc6, Hex6.
  specialize (Hbsz bsz eq_refl).
  destruct (Z_lt_le_dec (bsz - 1 - extra - 19) 0) as [Hneg|Hge].
  { exfalso. apply read_neg_inv in R7 as (Hsf7 & Hp7); [|lia|lia].
    pose proof Hsf7 as (Hc7 & _ & _). rewrite Hc6 in Hc7, Hp7.
    rinv R8 c Hc7 Hc8 Hpos8 Hfull8 Hne8.
    rinv R9 c Hc8 Hc9 Hpos9 Hfull9 Hne9.
    destruct Hne9 as [Hlt _]; [apply len_nonempty; lia|]. lia. }
  rinv R7 c Hc6 Hc7 Hpos7 Hfull7 Hne7.
  rinv R8 c Hc7 Hc8 Hpos8 Hfull8 Hne8.
  rinv R9 c Hc8 Hc9 Hpos9 Hfull9 Hne9.
  destruct Hne9 as [Hlt8 Hle9]; [apply len_nonempty; lia|].
  destruct Hfull1 as [_ Em]; [left; lia|].
  destruct Hfull2 as [E2 _]; [left; lia|].
  destruct Hfull3 as [E3 _]; [left; lia|].
  destruct Hfull4 as [E4 _]; [left; lia|].
  destruct Hfull5 as [E5 Eb]; [left; lia|].
  specialize (Hex6 ltac:(lia)).
  destruct Hfull7 as [E7 Eraw]; [left; lia|].
  destruct Hfull8 as [E8 Eecrc]; [left; lia|].
  destruct Hfull9 as [E9 Eb2]; [right; lia|].
  assert (len magic = 4) as Emagic by (by rewrite Hmagic).
  assert (position h1 = p + 4) as P1 by lia.
  assert (position h5 = p + 12) as P5 by lia.
  assert (position h6 = p + 12 + extra) as P6 by lia.
  assert (position h7 = p + bsz - 8) as P7 by lia.
  assert (position h8 = p + bsz - 4) as P8 by lia.
  assert (position h9 = p + bsz) as P9 by lia.
  subst p. split.
  { repeat (eapply same_file_trans; [|eassumption]).
    apply same_file_refl. }
  split; [done|]. split; [lia|]. split; [lia|].
  split; [by rewrite <- Em, Hmagic|].
  exists extra, crc. split.
  { rewrite Hextra, Eb. f_equal. f_equal; lia. }
  split; [lia|]. split.
  { rewrite <- L2, Eraw. f_equal. f_equal; lia. }
  split; [done|]. split.
  { rewrite <- A3, Eecrc. f_equal; lia. }
  rewrite <- A2, Hesize, Eb2. f_equal. f_equal; lia.
Qed.

End DecodeInversion.

(** ** Which exceptions a method raises, and what it leaves *)

Section Raises.

Context {S : Type}.

Lemma raises_in_bind {A B} P (m : M S A) (k : A -> M S B) s :
  raises_in P m s ->
  (forall a s', m s = Ok a s' -> raises_in P (k a) s') ->
  raises_in P (m ≫= k) s.
Proof.
  intros Hm Hk e s'. unfold mbind, M_bind, bind.
  destruct (m s) as [a s1|e1 s1] eqn:E; [by apply Hk|].
  intros [= -> ->]. by eapply Hm.
Qed.

Lemma raises_in_ret {A} P (a : A) s : raises_in P (mret a : M S A) s.
Proof. by intros e s'. Qed.

Lemma raises_in_raise {A} (P : exn -> Prop) e s :
  P e -> raises_in P (raise e : M S A) s.
Proof. by intros He e' s' [= <- _]. Qed.

Lemma raises_in_assert (P : exn -> Prop) b s :
  P AssertionError -> raises_in P (assert_ b : M S unit) s.
Proof. intros He. destruct b; intros e s'; [done|]. by intros [= <- _]. Qed.

Lemma raises_in_lift {A} (P : exn -> Prop) (r : result A) s :
  (forall e, r = Raises e -> P e) -> raises_in P (lift r : M S A) s.
Proof.
  intros Hr. destruct r as [a|e]; intros e' s'; [done|].
  intros [= <- _]. by apply Hr.
Qed.

Lemma raises_in_get P s : raises_in P (get : M S S) s.
Proof. by intros e s'. Qed.

Lemma raises_in_modify P f s : raises_in P (modify f : M S unit) s.
Proof. by intros e s'. Qed.

Lemma relates_bind {A B} (R : S -> S -> Prop) (m : M S A) (k : A -> M S B) :
  (forall s1 s2 s3, R s1 s2 -> R s2 s3 -> R s1 s3) ->
  relates R m -> (forall a, relates R (k a)) -> relates R (m ≫= k).
Proof.
  intros Htrans Hm Hk s. unfold mbind, M_bind, bind.
  specialize (Hm s). destruct (m s) as [a s1|e s1]; [|done].
  eapply Htrans; [exact Hm|apply Hk].
Qed.

Lemma relates_pure {A} (R : S -> S -> Prop) (m : M S A) :
  (forall s, R s s) -> (forall s, state_of (m s) = s) -> relates R m.
Proof. intros Hrefl Hm s. rewrite Hm. apply Hrefl. Qed.

End Raises.

Section RaisesFile.

Lemma raises_in_read P n h : closed h = false -> raises_in P (File.read n) h.
Proof. intros Hc e h'. unfold File.read. by rewrite Hc. Qed.

Lemma read_open n h d h' :
  File.read n h = Ok d h' -> closed h = false /\ closed h' = false.
Proof.
  unfold File.read. destruct (closed h) eqn:Hc; [done|].
  by intros [= _ <-].
Qed.

Lemma relates_read n : relates same_file (File.read n).
Proof.
  intros h. unfold File.read. destruct (closed h); cbn [state_of];
    [apply same_file_refl|apply same_file_set_position].
Qed.

Lemma relates_same_file_bind {A B} (m : M file A) (k : A -> M file B) :
  relates same_file m -> (forall a, relates same_file (k a)) ->
  relates same_file (m ≫= k).
Proof. apply relates_bind. apply same_file_trans. Qed.

Lemma relates_same_file_pure {A} (m : M file A) :
  (forall h, state_of (m h) = h) -> relates same_file m.
Proof. apply relates_pure. apply same_file_refl. Qed.

Lemma relates_lift {A} (r : result A) : relates same_file (lift r).
Proof. apply relates_same_file_pure. intros h. by destruct r. Qed.

Lemma relates_assert b : relates same_file (assert_ b).
Proof. apply relates_same_file_pure. intros h. by destruct b. Qed.

Lemma relates_ret {A} (a : A) : relates same_file (mret a).
Proof. by apply relates_same_file_pure. Qed.

Lemma relates_raise {A} e : relates same_file (raise e : M file A).
Proof. by apply relates_same_file_pure. Qed.

End RaisesFile.

Section RaisesDecoder.

Context {zlib : Zlib}.

Lemma subfields_same_file fuel extra x bs :
  relates same_file (subfields fuel extra x bs).
Proof.
  revert x bs. induction fuel as [|fuel IH]; intros x bs;
    cbn [subfields]; destruct (x <? extra);
    try apply relates_ret; try apply relates_raise.
  apply relates_same_file_bind; [apply relates_read|intros id].
  apply relates_same_file_bind; [apply relates_read|intros b].
  apply relates_same_file_bind; [apply relates_lift|intros v].
  apply relates_same_file_bind; [apply relates_read|intros d].
  destruct (bytes_eqb id _bytes_BC); [|apply IH].
  apply relates_same_file_bind; [apply relates_assert|intros _].
  apply relates_same_file_bind; [apply relates_assert|intros _].
  apply relates_same_file_bind; [apply relates_lift|intros v'].
  apply IH.
Qed.

(** Decoding only moves the handle, also when it raises. *)
Lemma load_bgzf_block_same_file text :
  relates same_file (_load_bgzf_block text).
Proof.
  unfold _load_bgzf_block.
  apply relates_same_file_bind; [apply relates_read|intros magic].
  destruct (bool_decide _); [apply relates_raise|].
  destruct (negb _); [apply relates_raise|].
  do 4 (apply relates_same_file_bind; [apply relates_read|intros ?]).
  apply relates_same_file_bind; [apply relates_lift|intros extra].
  apply relates_same_file_bind; [apply subfields_same_file|].
  intros [x_len [block_size|]];
    (apply relates_same_file_bind; [apply relates_assert|intros _]);
    [|apply relates_raise].
  apply relates_same_file_bind; [apply relates_read|intros raw].
  apply relates_same_file_bind; [apply relates_lift|intros data].
  do 2 (apply relates_same_file_bind; [apply relates_read|intros ?]).
  apply relates_same_file_bind; [apply relates_lift|intros ?].
  apply relates_same_file_bind; [apply relates_assert|intros _].
  apply relates_same_file_bind; [apply relates_lift|intros ?].
  apply relates_same_file_bind; [apply relates_assert|intros _].
  destruct text; apply relates_ret.
Qed.

End RaisesDecoder.

(** ** The exceptions of the block decoder *)

Section DecoderExceptions.

Context {zlib : Zlib} {laws : ZlibLaws zlib}.

Lemma unpack_H_damaged b e : unpack_H b = Raises e -> damaged e.
Proof.
  unfold unpack_H. destruct (bool_decide _); [done|].
  intros [= <-]. by left.
Qed.

Lemma unpack_I_damaged b e : unpack_I b = Raises e -> damaged e.
Proof.
  unfold unpack_I. destruct (bool_decide _); [done|].
  intros [= <-]. by left.
Qed.

Lemma pack_crc_damaged v e :
  (if v <? 0 then pack_i v else pack_I v) = Raises e -> damaged e.
Proof.
  unfold pack_i, pack_I. destruct (v <? 0), (_ && _); try done.
  all: intros [= <-]; by left.
Qed.

Lemma decompress_damaged b e : decompress b = Raises e -> damaged e.
Proof. intros ->%decompress_raises. right. by right. Qed.

Lemma subfields_raises fuel extra x bs h :
  closed h = false -> extra - x <= Z.of_nat fuel ->
  raises_in damaged (subfields fuel extra x bs) h.
Proof.
  revert x bs h. induction fuel as [|fuel IH]; intros x bs h Hc Hf;
    cbn [subfields]; destruct (x <? extra) eqn:E;
    try apply raises_in_ret; [lia|].
  apply raises_in_bind; [by apply raises_in_read|intros id h1 R1].
  apply read_open in R1 as [_ Hc1].
  apply raises_in_bind; [by apply raises_in_read|intros b h2 R2].
  apply read_open in R2 as [_ Hc2].
  apply raises_in_bind;
    [apply raises_in_lift, unpack_H_damaged|intros v h3 Hv].
  apply lift_ok_inv in Hv as [Hv%unpack_H_nonneg ->].
  apply raises_in_bind; [by apply raises_in_read|intros d h4 R4].
  apply read_open in R4 as [_ Hc4].
  assert (damaged AssertionError) as Ha by (right; by left).
  destruct (bytes_eqb id _bytes_BC).
  - apply raises_in_bind; [by apply raises_in_assert|intros ? h5 A1].
    apply assert_ok_inv in A1 as [_ ->].
    apply raises_in_bind; [by apply raises_in_assert|intros ? h6 A2].
    apply assert_ok_inv in A2 as [_ ->].
    apply raises_in_bind;
      [apply raises_in_lift, unpack_H_damaged|intros v' h7 Hv'].
    apply lift_ok_inv in Hv' as [_ ->].
    apply IH; [done|lia].
  - apply IH; [done|lia].
Qed.

Lemma subfields_open fuel extra x bs h res h' :
  subfields fuel extra x bs h = Ok res h' ->
  closed h = false -> closed h' = false.
Proof.
  intros H Hc. pose proof (subfields_same_file fuel extra x bs h) as Hs.
  rewrite H in Hs. destruct Hs as (_ & Hc' & _). cbn in Hc'. congruence.
Qed.

(** Once the magic number was read, what is raised is the exception of
    a damaged block. *)
Lemma load_bgzf_block_raises_inv text h e h' :
  _load_bgzf_block text h = Raise e h' ->
  (closed h = true /\ e = ValueError)
  \/ (closed h = false /\ rest h = [] /\ e = StopIteration)
  \/ (closed h = false /\ rest h <> []
      /\ take 4 (rest h) <> _bgzf_magic /\ e = ValueError)
  \/ (closed h = false /\ take 4 (rest h) = _bgzf_magic /\ damaged e).
Proof.
  unfold _load_bgzf_block. destruct (closed h) eqn:Hc.
  { intros H. left. split; [done|]. revert H.
    unfold mbind, M_bind, bind, File.read. rewrite Hc. by intros [= <- _]. }
  intros H. right.
  assert (File.read 4 h
          = Ok (take 4 (rest h))
               (set_position (position h + len (take 4 (rest h))) h)) as R1.
  { unfold File.read, rest. by rewrite Hc. }
  rewrite (run_bind _ _ _ _ _ R1) in H.
  case_bool_decide as Hnil.
  { left. injection H as <- _. split; [done|]. split; [|done].
    destruct (rest h); [done|]. done. }
  right.
  destruct (bytes_eqb (take 4 (rest h)) _bgzf_magic) eqn:Hmagic;
    cbn [negb] in H.
  2: { left. injection H as <- _. split; [done|]. split.
       - intros Hr. by rewrite Hr in Hnil.
       - split; [|done]. by apply bool_decide_eq_false in Hmagic. }
  right. apply bool_decide_eq_true in Hmagic.
  split; [done|]. split; [done|]. revert e h' H.
  set (h1 := set_position _ h). assert (closed h1 = false) as Hc1 by done.
  clearbody h1. clear R1.
  change (raises_in damaged
            (gzip_mod_time ← File.read 4;
             gzip_extra_flags ← File.read 1;
             gzip_os ← File.read 1;
             b ← File.read 2;
             extra_len ← lift (unpack_H b);
             '(x_len, block_size) ←
               subfields (Z.to_nat extra_len) extra_len 0 None;
             assert_ (x_len =? extra_len);;
             match block_size with
             | None => raise AssertionError
             | Some block_size =>
                 let deflate_size := block_size - 1 - extra_len - 19 in
                 raw ← File.read deflate_size;
                 data ← lift (decompress raw);
                 expected_crc ← File.read 4;
                 b ← File.read 4;
                 expected_size ← lift (unpack_I b);
                 assert_ (expected_size =? len data);;
                 let crc := crc32 data in
                 crc ← lift (if crc <? 0 then pack_i crc else pack_I crc);
                 assert_ (bytes_eqb expected_crc crc);;
                 if text then ret (block_size, _as_string data)
                 else ret (block_size, data)
             end) h1).
  assert (damaged AssertionError) as Ha by (right; by left).
  apply raises_in_bind; [by apply raises_in_read|intros ? h2 [_ Hc2]%read_open].
  apply raises_in_bind; [by apply raises_in_read|intros ? h3 [_ Hc3]%read_open].
  apply raises_in_bind; [by apply raises_in_read|intros ? h4 [_ Hc4]%read_open].
  apply raises_in_bind; [by apply raises_in_read|intros b h5 [_ Hc5]%read_open].
  apply raises_in_bind;
    [apply raises_in_lift, unpack_H_damaged|intros extra ? [_ ->]%lift_ok_inv].
  apply raises_in_bind; [apply subfields_raises; [done|lia]|].
  intros [x_len [block_size|]] h6 Hsub;
    apply subfields_open in Hsub; [|done| |done];
    (apply raises_in_bind;
     [by apply raises_in_assert|intros ? ? [_ ->]%assert_ok_inv]);
    [|by apply raises_in_raise].
  apply raises_in_bind; [by apply raises_in_read|intros raw h7 [_ Hc7]%read_open].
  apply raises_in_bind;
    [apply raises_in_lift, decompress_damaged|intros data ? [_ ->]%lift_ok_inv].
  apply raises_in_bind; [by apply raises_in_read|intros ? h8 [_ Hc8]%read_open].
  apply raises_in_bind; [by apply raises_in_read|intros ? h9 [_ Hc9]%read_open].
  apply raises_in_bind;
    [apply raises_in_lift, unpack_I_damaged|intros ? ? [_ ->]%lift_ok_inv].
  apply raises_in_bind;
    [by apply raises_in_assert|intros ? ? [_ ->]%assert_ok_inv].
  apply raises_in_bind;
    [apply raises_in_lift, pack_crc_damaged|intros ? ? [_ ->]%lift_ok_inv].
  apply raises_in_bind;
    [by apply raises_in_assert|intros ? ? [_ ->]%assert_ok_inv].
  destruct text; apply raises_in_ret.
Qed.

End DecoderExceptions.

(** ** The block decoder: what it accepts and what it raises *)

Section Fields.

Lemma byte_of_Z_of_byte x : byte_of_Z (Z_of_byte x) = x.
Proof.
  unfold byte_of_Z, Z_of_byte. rewrite N2Z.id.
  by rewrite Byte.of_to_N.
Qed.

(** A field of [n] bytes is the little-endian form of its value. *)
Lemma le_bytes_le_value b : le_bytes (length b) (le_value b) = b.
Proof.
  induction b as [|x b IH]; [done|]. cbn [length le_bytes le_value].
  pose proof (Z_of_byte_range x) as Hx.
  pose proof (le_value_nonneg b) as Hb.
  replace ((Z_of_byte x + 256 * le_value b) mod 256) with (Z_of_byte x)
    by (Z.div_mod_to_equations; lia).
  replace ((Z_of_byte x + 256 * le_value b) / 256) with (le_value b)
    by (Z.div_mod_to_equations; lia).
  by rewrite byte_of_Z_of_byte, IH.
Qed.

Lemma length_slice {A} (l : list A) a b :
  0 <= a <= b -> b <= len l ->
  length (slice l a b) = Z.to_nat (b - a).
Proof.
  intros Ha Hl. unfold slice, len in *.
  rewrite length_take, length_drop. lia.
Qed.

End Fields.

(** X1: a block that [_load_bgzf_block] returns lies wholly in the file.
    The handle has moved on by exactly the block size that is returned,
    which is between 26 and 65536, it has not passed the end of the file,
    and the file is as it was. *)
Theorem load_bgzf_block_advances {zlib : Zlib} (text : bool) (h h' : file)
    (block_size : Z) (data : bytes) :
  0 <= position h ->
  _load_bgzf_block text h = Ok (block_size, data) h' ->
  same_file h h'
  /\ position h' = position h + block_size
  /\ position h' <= len (content h)
  /\ 26 <= block_size <= 65536.
Proof.
  intros Hp H.
  apply load_bgzf_block_ok_inv in H as (Hsf & Hpos & Hle & Hbs & _);
    [|done].
  split; [done|]. split; [done|]. split; [lia|done].
Qed.

(** One block of the example file. *)
Lemma load_bgzf_block_advances_witness :
  same_file source_hello (set_position 37 source_hello)
  /\ position (set_position 37 source_hello) = position source_hello + 37
  /\ position (set_position 37 source_hello) <= len (content source_hello)
  /\ 26 <= 37 <= 65536.
Proof.
  apply (@load_bgzf_block_advances StoredZlib.zlib false source_hello
           (set_position 37 source_hello) 37 hello).
  - simpl. lia.
  - vm_compute. reflexivity.
Defined.

(** X2: the decoder returns only data that the block vouches for.  The
    block starts with the four magic bytes; its last eight bytes are the
    CRC-32 of the data returned and their length, both as 32-bit
    little-endian numbers; and the data are what the bytes between the
    extra field and those eight inflate to. *)
Theorem load_bgzf_block_checks {zlib : Zlib} {laws : ZlibLaws zlib}
    (text : bool) (h h' : file) (block_size : Z) (data : bytes) :
  0 <= position h ->
  _load_bgzf_block text h = Ok (block_size, data) h' ->
  slice (content h) (position h) (position h + 4) = _bgzf_magic
  /\ slice (content h) (position h + block_size - 8)
           (position h + block_size - 4)
     = le_bytes 4 (Z.land (crc32 data) 4294967295)
  /\ slice (content h) (position h + block_size - 4)
           (position h + block_size)
     = le_bytes 4 (len data)
  /\ exists extra_len,
       extra_len = le_value (slice (content h) (position h + 10)
                                   (position h + 12))
       /\ 6 <= extra_len <= block_size - 20
       /\ decompress (slice (content h) (position h + 12 + extra_len)
                            (position h + block_size - 8))
          = Returns data.
Proof.
  intros Hp H.
  apply load_bgzf_block_ok_inv in H
    as (_ & _ & Hle & Hbs & Hmagic & extra & crc & He & Hex & Hd & Hcrc
        & Hs1 & Hs2); [|done].
  split; [done|]. split.
  { rewrite Hs1. rewrite crc_bytes_agree in Hcrc. by injection Hcrc. }
  split; [|by exists extra].
  rewrite <- Hs2.
  set (b := slice _ _ _).
  assert (length b = 4%nat) as Hl.
  { subst b. rewrite length_slice; lia. }
  rewrite <- (le_bytes_le_value b) at 1. by rewrite Hl.
Qed.

(** The block of the example file: its CRC-32 and length fields. *)
Lemma load_bgzf_block_checks_witness :
  slice hello_bgz 0 4 = _bgzf_magic
  /\ slice hello_bgz 29 33
     = le_bytes 4 (Z.land (StoredZlib.crc32_signed hello) 4294967295)
  /\ slice hello_bgz 33 37 = le_bytes 4 6
  /\ exists extra_len,
       extra_len = le_value (slice hello_bgz 10 12)
       /\ 6 <= extra_len <= 37 - 20
       /\ StoredZlib.inflate (slice hello_bgz (0 + 12 + extra_len) 29)
          = Returns hello.
Proof.
  apply (@load_bgzf_block_checks StoredZlib.zlib stored_zlib_laws false
           source_hello (set_position 37 source_hello) 37 hello).
  - simpl. lia.
  - vm_compute. reflexivity.
Defined.

(** X3: the exceptions of [_load_bgzf_block].  On a closed handle it is
    [ValueError]; at the end of the file it is [StopIteration], and only
    there; when the next four bytes, or the fewer that are left, are not
    the magic number it is [ValueError]; and past the magic number it is
    the exception of a damaged block: [struct.error], [AssertionError] or
    [zlib.error].  In every case the file is as it was. *)
Theorem load_bgzf_block_raises {zlib : Zlib} {laws : ZlibLaws zlib}
    (text : bool) (h h' : file) (e : exn) :
  _load_bgzf_block text h = Raise e h' ->
  same_file h h'
  /\ (e = StopIteration <-> closed h = false /\ rest h = [])
  /\ (e = ValueError <->
      closed h = true
      \/ (rest h <> [] /\ take 4 (rest h) <> _bgzf_magic))
  /\ (damaged e <-> closed h = false /\ take 4 (rest h) = _bgzf_magic).
Proof.
  intros H. split.
  { pose proof (load_bgzf_block_same_file text h) as Hs.
    by rewrite H in Hs. }
  apply load_bgzf_block_raises_inv in H
    as [[Hc ->]|[(Hc & Hr & ->)|[(Hc & Hr & Hm & ->)|(Hc & Hm & He)]]].
  - split; [split; [done|intros [? _]; congruence]|].
    split; [split; [by left|done]|].
    split; [by intros [|[|]]|intros [? _]; congruence].
  - split; [done|].
    split; [split; [done|intros [?|[? _]]; [congruence|done]]|].
    split; [by intros [|[|]]|]. intros [_ Hm]. by rewrite Hr in Hm.
  - split; [split; [done|by intros [_ ?]]|].
    split; [split; [by right|done]|].
    split; [by intros [|[|]]|by intros [_ ?]].
  - assert (rest h <> []) as Hr by (intros Hr; by rewrite Hr in Hm).
    split; [split; [intros ->; by destruct He as [|[|]]|by intros [_ ?]]|].
    split; [|done].
    split; [intros ->; by destruct He as [|[|]]|].
    intros [?|[_ ?]]; [congruence|done].
Qed.

(** A gzip file that is not BGZF. *)
Lemma load_bgzf_block_raises_witness :
  same_file source_gzip (set_position 4 source_gzip)
  /\ (ValueError = StopIteration <->
      closed source_gzip = false /\ rest source_gzip = [])
  /\ (ValueError = ValueError <->
      closed source_gzip = true
      \/ (rest source_gzip <> []
          /\ take 4 (rest source_gzip) <> _bgzf_magic))
  /\ (damaged ValueError <->
      closed source_gzip = false
      /\ take 4 (rest source_gzip) = _bgzf_magic).
Proof.
  apply (@load_bgzf_block_raises StoredZlib.zlib stored_zlib_laws false
           source_gzip (set_position 4 source_gzip) ValueError).
  vm_compute. reflexivity.
Defined.

(** ** The blocks [BgzfBlocks] lists *)

Section Listing.

Context {zlib : Zlib} {laws : ZlibLaws zlib}.

Lemma tell_ok_inv h p h' :
  File.tell h = Ok p h' -> closed h = false /\ p = position h /\ h' = h.
Proof.
  unfold File.tell. destruct (closed h); [done|]. by intros [= <- <-].
Qed.

Lemma load_blocks_stop h h' :
  _load_bgzf_block false h = Raise StopIteration h' -> 0 <= position h ->
  h' = h /\ rest h = [].
Proof.
  intros H Hp. pose proof H as H'.
  apply load_bgzf_block_raises_inv in H'
    as [[_ ?]|[(Hc & Hr & _)|[(_ & _ & _ & ?)|(_ & _ & [?|[?|?]])]]];
    try done.
  rewrite decode_eof in H by done. by injection H as <-.
Qed.

Lemma load_blocks_chained fuel h bs h' d :
  load_blocks fuel h = Ok bs h' -> 0 <= position h ->
  same_file h h' /\ rest h' = []
  /\ chained (position h) d (block_tuples d bs).
Proof.
  revert h bs d. induction fuel as [|fuel IH]; intros h bs d H Hp;
    cbn [load_blocks] in H;
    (destruct (File.tell h) as [p h1|e h1] eqn:Ht; [|done]);
    apply tell_ok_inv in Ht as (Hc & -> & ->);
    (destruct (_load_bgzf_block false h) as [[bl data] h2|e h2] eqn:Hl);
    try done.
  1,3: destruct e; try done; injection H as <- <-;
       apply load_blocks_stop in Hl as [-> Hr]; [|done];
       split; [apply same_file_refl|done].
  apply load_bgzf_block_ok_inv in Hl
    as (Hsf & Hpos & Hle & Hbs & _); [|done].
  apply bind_ok_inv in H as (bs' & h3 & Hrec & H).
  injection H as <- <-.
  apply (IH _ _ (d + len data)) in Hrec as (Hsf' & Hr & Hch); [|lia].
  split; [by eapply same_file_trans|]. split; [done|].
  cbn [block_tuples chained]. rewrite Hpos in Hch.
  pose proof (len_nonneg data). done.
Qed.

End Listing.

(** X4: the tuples [BgzfBlocks] yields follow one another.  The first
    block starts where the handle was and at data offset 0; adding the raw
    length of a block to its start gives the start of the next one, and
    adding its data length to its data start gives the next data start;
    a raw length is between 26 and 65536.  When the listing ends, the
    handle is at the end of the file. *)
Theorem BgzfBlocks_chained {zlib : Zlib} {laws : ZlibLaws zlib}
    (h h' : file) (ts : list (Z * Z * Z * Z)) :
  0 <= position h ->
  BgzfBlocks h = Ok ts h' ->
  chained (position h) 0 ts /\ same_file h h' /\ rest h' = [].
Proof.
  intros Hp H. unfold BgzfBlocks in H.
  apply bind_ok_inv in H as (bs & h1 & Hl & H). injection H as <- <-.
  apply (load_blocks_chained _ _ _ _ 0) in Hl as (Hsf & Hr & Hch); done.
Qed.

(** The two blocks of the example file. *)
Lemma BgzfBlocks_chained_witness :
  chained (position source_hello) 0 [(0, 37, 0, 6); (37, 28, 6, 0)]
  /\ same_file source_hello (set_position 65 source_hello)
  /\ rest (set_position 65 source_hello) = [].
Proof.
  apply (@BgzfBlocks_chained StoredZlib.zlib stored_zlib_laws source_hello).
  - simpl. lia.
  - vm_compute. reflexivity.
Defined.

(** ** The buffer of a writer *)

Section WriterBuffer.

Context {zlib : Zlib}.
Import BgzfWriter.

Lemma write_loop_ok fuel w u w' :
  write_loop fuel w = Ok u w' -> len (_buffer w') < 65536.
Proof.
  revert w. induction fuel as [|fuel IH]; intros w; cbn [write_loop];
    rewrite run_get; destruct (len (_buffer w) >=? 65536) eqn:E;
    try done; try (intros [= _ <-]; lia).
  intros (? & w1 & _ & H)%bind_ok_inv.
  rewrite run_get, run_modify in H. by apply IH in H.
Qed.

Lemma write_ok data w u w' :
  write data w = Ok u w' -> len (_buffer w') < 65536.
Proof.
  unfold write, _as_bytes. rewrite run_get.
  destruct (_ <? _) eqn:E.
  - intros [= _ <-]. wsimpl. rewrite len_app. lia.
  - rewrite run_modify, run_get. apply write_loop_ok.
Qed.

Lemma flush_ok w u w' : flush w = Ok u w' -> _buffer w' = [].
Proof.
  unfold flush. rewrite run_get.
  intros (? & w1 & _ & H)%bind_ok_inv. rewrite run_get in H.
  apply bind_ok_inv in H as (? & w2 & _ & H). rewrite run_modify in H.
  by apply writer_on_handle_buffer in H.
Qed.

Lemma close_ok w u w' : close w = Ok u w' -> _buffer w' = [].
Proof.
  unfold close. rewrite run_get.
  intros (? & w1 & H1 & H)%bind_ok_inv.
  apply bind_ok_inv in H as (? & w2 & H2%writer_on_handle_buffer & H).
  apply bind_ok_inv in H as (? & w3 & H3%writer_on_handle_buffer & H).
  apply writer_on_handle_buffer in H. rewrite H, H3, H2.
  case_bool_decide as Hb; cbn [negb] in H1.
  - by injection H1 as _ <-.
  - by apply flush_ok in H1.
Qed.

End WriterBuffer.

(** X5: the buffer of a writer stays below one block.  After a [write]
    that returns the buffer holds fewer than 65536 bytes, whatever it held
    before, and after a [flush] or a [close] that returns it is empty. *)
Theorem writer_buffer_bound {zlib : Zlib} (op : writer_op)
    (w w' : BgzfWriter.t) :
  run_writer_op op w = Ok tt w' ->
  len (BgzfWriter._buffer w') < 65536
  /\ (op = OpFlush \/ op = OpClose -> BgzfWriter._buffer w' = []).
Proof.
  destruct op as [data| |]; cbn [run_writer_op]; intros H.
  - split; [by eapply write_ok|]. by intros [|].
  - apply flush_ok in H. rewrite H. by split.
  - apply close_ok in H. rewrite H. by split.
Qed.

(** A write of six bytes to a new writer. *)
Lemma writer_buffer_bound_witness :
  len (BgzfWriter._buffer (BgzfWriter.set_buffer hello writer0)) < 65536
  /\ (OpWrite hello = OpFlush \/ OpWrite hello = OpClose ->
      BgzfWriter._buffer (BgzfWriter.set_buffer hello writer0) = []).
Proof.
  apply (@writer_buffer_bound StoredZlib.zlib (OpWrite hello) writer0).
  reflexivity.
Defined.

(** X6: [flush] always writes a block, also when the buffer is empty.  On
    a writer whose buffer fits in a block, [flush] followed by [close]
    leaves the block of the buffer and the EOF block behind what the sink
    held; [close] alone leaves the same when the buffer is not empty, and
    only the EOF block when it is: the explicit [flush] of an empty buffer
    costs a block without data in the middle of the file. *)
Theorem flush_then_close {zlib : Zlib} {laws : ZlibLaws zlib}
    (w : BgzfWriter.t) :
  at_end (BgzfWriter._handle w) ->
  len (BgzfWriter._buffer w) < 65536 ->
  fits (BgzfWriter.compresslevel w) (BgzfWriter._buffer w) ->
  exists w1 w2,
    (BgzfWriter.flush;; BgzfWriter.close) w = Ok tt w1
    /\ BgzfWriter.close w = Ok tt w2
    /\ content (BgzfWriter._handle w1)
       = content (BgzfWriter._handle w)
         ++ encode_block (BgzfWriter.compresslevel w) (BgzfWriter._buffer w)
         ++ _bgzf_eof
    /\ content (BgzfWriter._handle w2)
       = content (BgzfWriter._handle w)
         ++ (if bool_decide (BgzfWriter._buffer w = []) then []
             else encode_block (BgzfWriter.compresslevel w)
                    (BgzfWriter._buffer w))
         ++ _bgzf_eof
    /\ 26 <= len (encode_block (BgzfWriter.compresslevel w)
                    (BgzfWriter._buffer w)).
Proof.
  intros Hend Hlen Hfits.
  pose proof (flush_run w Hend Hlen Hfits) as Hflush.
  set (w0 := BgzfWriter.set_buffer [] _) in Hflush.
  assert (at_end (BgzfWriter._handle w0)) as Hend0
    by (by apply append_at_end).
  assert (len (BgzfWriter._buffer w0) < 65536) as Hlen0 by done.
  assert (Forall (fits (BgzfWriter.compresslevel w0))
            (last_block (BgzfWriter._buffer w0))) as Hfits0
    by (subst w0; apply Forall_nil_2).
  pose proof (close_run w0 Hend0 Hlen0 Hfits0) as Hclose0.
  assert (Forall (fits (BgzfWriter.compresslevel w))
            (last_block (BgzfWriter._buffer w))) as Hfits1.
  { unfold last_block.
    case_bool_decide; [apply Forall_nil_2|by apply Forall_singleton]. }
  pose proof (close_run w Hend Hlen Hfits1) as Hclose.
  eexists _, _. split.
  { rewrite (run_bind _ _ _ _ _ Hflush). exact Hclose0. }
  split; [exact Hclose|]. wsimpl. cbn [content set_closed append set_content
    set_position]. split; [|split].
  - unfold last_block. rewrite bool_decide_eq_true_2 by done.
    cbn [encode_blocks map concat app]. subst w0. wsimpl.
    cbn [content append set_content set_position]. by rewrite <- app_assoc.
  - unfold last_block, encode_blocks.
    case_bool_decide; cbn [map concat]; [done|].
    by rewrite app_nil_r.
  - unfold encode_block. rewrite len_block_frame.
    pose proof (len_nonneg (deflated (BgzfWriter.compresslevel w)
                              (BgzfWriter._buffer w))). lia.
Qed.

(** The flush of an empty buffer: an empty block in front of the EOF
    block. *)
Lemma flush_then_close_witness :
  exists w1 w2,
    (@BgzfWriter.flush StoredZlib.zlib;; @BgzfWriter.close StoredZlib.zlib)
      writer0 = Ok tt w1
    /\ @BgzfWriter.close StoredZlib.zlib writer0 = Ok tt w2
    /\ content (BgzfWriter._handle w1)
       = [] ++ @encode_block StoredZlib.zlib 0 [] ++ _bgzf_eof
    /\ content (BgzfWriter._handle w2)
       = [] ++ (if bool_decide (@nil byte = []) then []
                else @encode_block StoredZlib.zlib 0 []) ++ _bgzf_eof
    /\ 26 <= len (@encode_block StoredZlib.zlib 0 []).
Proof.
  apply (@flush_then_close StoredZlib.zlib stored_zlib_laws writer0).
  - split; reflexivity.
  - reflexivity.
  - exists (StoredZlib.deflate_stored 0 []). split; [reflexivity|].
    vm_compute. discriminate.
Defined.

(** X7: how the data are cut into calls of [write] does not matter.  Two
    sequences of writes of the same bytes leave the same writer, with the
    same bytes in the sink and in the buffer, when the blocks that are
    due fit. *)
Theorem write_calls_concatenate {zlib : Zlib} {laws : ZlibLaws zlib}
    (w : BgzfWriter.t) (datas1 datas2 : list bytes) :
  at_end (BgzfWriter._handle w) ->
  len (BgzfWriter._buffer w) < 65536 ->
  concat datas1 = concat datas2 ->
  Forall (fits (BgzfWriter.compresslevel w))
    (full_chunks (length (BgzfWriter._buffer w ++ concat datas1))
       (BgzfWriter._buffer w ++ concat datas1)) ->
  BgzfWriter.write_all datas1 w = BgzfWriter.write_all datas2 w
  /\ exists w', BgzfWriter.write_all datas1 w = Ok tt w'.
Proof.
  intros Hend Hlen Heq Hfits.
  rewrite (write_all_run datas1 w Hend Hlen Hfits).
  rewrite Heq in Hfits.
  rewrite (write_all_run datas2 w Hend Hlen Hfits).
  rewrite Heq. split; [done|by eexists].
Qed.

(** Six bytes in one call, or in two calls of two and four bytes. *)
Lemma write_calls_concatenate_witness :
  @BgzfWriter.write_all StoredZlib.zlib [hello] writer0
  = @BgzfWriter.write_all StoredZlib.zlib [take 2 hello; drop 2 hello] writer0
  /\ exists w', @BgzfWriter.write_all StoredZlib.zlib [hello] writer0
                = Ok tt w'.
Proof.
  apply (@write_calls_concatenate StoredZlib.zlib stored_zlib_laws writer0).
  - split; reflexivity.
  - reflexivity.
  - reflexivity.
  - apply Forall_nil_2.
Defined.

(** X8: a writer starts with an empty buffer, and one that opens its
    file itself starts at the end of it: of the old contents in append
    mode, of no contents otherwise.  With no file object, a mode that
    holds neither "w" nor "a", in either case, is a [ValueError]; a mode
    with "a" appends even when it holds "w" too. *)
Theorem writer_init {zlib : Zlib} (fs : gmap string bytes)
    (filename mode : option string) (fileobj : option file)
    (compresslevel : Z) :
  (forall w,
     BgzfWriter.__init__ fs filename mode fileobj compresslevel = Returns w ->
     BgzfWriter._buffer w = []
     /\ BgzfWriter.compresslevel w = compresslevel
     /\ match fileobj with
        | Some f => BgzfWriter._handle w = f
        | None =>
            at_end (BgzfWriter._handle w)
            /\ exists name m,
                 filename = Some name /\ mode = Some m
                 /\ content (BgzfWriter._handle w)
                    = if Str.contains "a" (Str.lower m) then
                        default [] (fs !! name)
                      else []
        end)
  /\ (forall m,
        fileobj = None -> mode = Some m ->
        Str.contains "w" (Str.lower m) = false ->
        Str.contains "a" (Str.lower m) = false ->
        BgzfWriter.__init__ fs filename mode fileobj compresslevel
        = Raises ValueError).
Proof.
  split.
  - intros w. unfold BgzfWriter.__init__.
    destruct fileobj as [f|].
    + destruct (negb _); [done|]. destruct mode as [m|]; [|done].
      by intros [= <-].
    + destruct mode as [m|]; [|done].
      destruct (_ && _); [done|]. destruct filename as [name|]; [|done].
      destruct (Str.contains "a" (Str.lower m)) eqn:Ea;
        cbn [File.open_ab File.open_wb]; intros [= <-];
        (split; [done|]); (split; [done|]);
        (split; [by split|]); exists name, m; by rewrite ?Ea.
  - intros m -> -> Hw Ha. unfold BgzfWriter.__init__.
    by rewrite Hw, Ha.
Qed.

(** Appending to the example file, and a mode that holds neither "w" nor
    "a". *)
Lemma writer_init_witness :
  (forall w,
     BgzfWriter.__init__ fs0 (Some "hello.bgz"%string)
       (Some "ab"%string) None 6 = Returns w ->
     BgzfWriter._buffer w = []
     /\ BgzfWriter.compresslevel w = 6
     /\ at_end (BgzfWriter._handle w)
     /\ content (BgzfWriter._handle w) = hello_bgz)
  /\ BgzfWriter.__init__ fs0 (Some "hello.bgz"%string)
       (Some "rb"%string) None 6 = Raises ValueError.
Proof.
  destruct (@writer_init StoredZlib.zlib fs0 (Some "hello.bgz"%string)
              (Some "ab"%string) None 6) as (Hok & _).
  destruct (@writer_init StoredZlib.zlib fs0 (Some "hello.bgz"%string)
              (Some "rb"%string) None 6) as (_ & Hbad).
  split.
  - intros w Hw. destruct (Hok w Hw) as (Hb & Hl & He & name & m & Hn & Hm & Hc).
    injection Hn as <-. injection Hm as <-.
    split; [done|]. split; [done|]. split; [done|]. exact Hc.
  - apply (Hbad "rb"%string); reflexivity.
Defined.

(** ** Loading a block into a reader *)

Section ReaderBlocks.

Context {zlib : Zlib}.
Import BgzfReader.

Lemma set_position_same h : set_position (position h) h = h.
Proof. by destruct h. Qed.

Lemma block_at_same_file text h h' k :
  same_file h h' -> block_at text h' k = block_at text h k.
Proof.
  intros Hs. unfold block_at. by rewrite (set_position_same_file k h h').
Qed.

Lemma block_at_inv text h k raw d :
  block_at text h k = Some (raw, d) -> 0 <= k ->
  (raw = 0 /\ d = [])
  \/ (26 <= raw <= 65536 /\ k + raw <= len (content h)).
Proof.
  unfold block_at.
  destruct (_load_bgzf_block text (set_position k h))
    as [[bs data] h1|e h1] eqn:E.
  - intros [= <- <-] Hk. right.
    apply load_bgzf_block_ok_inv in E as (_ & _ & Hle & Hbs & _); done.
  - destruct e; try done. intros [= <- <-]. by left.
Qed.

Lemma entries_at_same_file text h h' k es :
  same_file h h' -> entries_at text h k es -> entries_at text h' k es.
Proof.
  intros Hs. revert k. induction es as [|[raw d] es IH]; intros k;
    cbn [entries_at]; rewrite (block_at_same_file _ _ _ _ Hs); [done|].
  intros (? & ? & ?). auto.
Qed.

(** The blocks ahead are in the file: there are no more of them than
    bytes from [k] on. *)
Lemma entries_at_length text h k es :
  entries_at text h k es -> 0 <= k ->
  Z.of_nat (length es) <= Z.max 0 (len (content h) - k).
Proof.
  revert k. induction es as [|[raw d] es IH]; intros k;
    cbn [entries_at length]; [lia|].
  intros (Hraw & Hb & Hes) Hk.
  apply block_at_inv in Hb as [[-> _]|[Hr Hle]]; [lia| |done].
  apply IH in Hes; lia.
Qed.

(** [_load_bgzf_block] under the [try] of [_load_block], on a handle
    that is where the block starts. *)
Lemma try_load_block_at r :
  match block_at (_text r) (_handle r) (position (_handle r)) with
  | Some (raw, d) =>
      exists h', try_load_bgzf_block r = Ok (raw, d) (set_handle h' r)
                 /\ same_file (_handle r) h'
  | None => exists e r', try_load_bgzf_block r = Raise e r'
  end.
Proof.
  unfold block_at, try_load_bgzf_block. rewrite set_position_same.
  pose proof (load_bgzf_block_same_file (_text r) (_handle r)) as Hs.
  destruct (_load_bgzf_block (_text r) (_handle r)) as [[bs d] h'|e h'].
  - by exists h'.
  - destruct e; try by eexists _, _. by exists h'.
Qed.

Lemma set_buffers_same r : set_buffers (_buffers r) r = r.
Proof. by destruct r. Qed.

(** The loop that makes room in the cache leaves fewer than [max_cache]
    of the blocks that were there. *)
Lemma evict_spec fuel r :
  1 <= max_cache r -> (size (_buffers r) < fuel)%nat ->
  exists m,
    evict fuel r = Ok tt (set_buffers m r)
    /\ m ⊆ _buffers r /\ Z.of_nat (size m) < max_cache r.
Proof.
  revert r. induction fuel as [|fuel IH]; intros r Hmc Hf; [lia|].
  cbn [evict].
  destruct (Z.of_nat (size (_buffers r)) >=? max_cache r) eqn:E.
  - assert (exists k v,
              _buffers r !! k = Some v
              /\ popitem r = Ok tt (set_buffers (delete k (_buffers r)) r))
      as (k & v & Hk & Hpop).
    { unfold popitem.
      destruct (map_to_list (_buffers r)) as [|[k v] l] eqn:El.
      - apply map_to_list_empty_iff in El.
        rewrite El, map_size_empty in E. apply Z.geb_le in E. lia.
      - exists k, v. split; [|done].
        apply elem_of_map_to_list. rewrite El. by left. }
    rewrite (run_bind _ _ _ _ _ Hpop).
    destruct (IH (set_buffers (delete k (_buffers r)) r))
      as (m & Hev & Hsub & Hsz); [done| |].
    { rsimpl. rewrite map_size_delete, Hk.
      assert (size (_buffers r) <> 0%nat); [|cbn; lia].
      eapply map_size_ne_0_lookup_2. by rewrite Hk. }
    exists m. split; [exact Hev|]. split; [|done].
    rsimpl. etransitivity; [done|]. apply delete_subseteq.
  - exists (_buffers r). rewrite set_buffers_same.
    split; [done|]. split; [done|lia].
Qed.

End ReaderBlocks.

Section LoadBlock.

Context {zlib : Zlib}.
Import BgzfReader.

(** [_load_block] at an offset that is neither the current block nor
    in the cache: the block is read from the file. *)
Lemma load_block_miss r k :
  closed (_handle r) = false -> _newline r = _bytes_newline ->
  1 <= max_cache r ->
  (forall k buf raw,
     _buffers r !! k = Some (buf, raw) ->
     0 <= k /\ block_at (_text r) (_handle r) k = Some (raw, buf)) ->
  Some k <> _block_start_offset r -> _buffers r !! k = None -> 0 <= k ->
  match block_at (_text r) (_handle r) k with
  | Some (raw, buf) =>
      exists r', _load_block (Some k) r = Ok tt r'
                 /\ loaded_block r r' k raw buf
  | None => exists e r', _load_block (Some k) r = Raise e r'
  end.
Proof.
  intros Hopen Hnl Hmc Hcache Hcur Hlk Hk.
  unfold _load_block. rewrite run_get.
  rewrite (run_bind (ret k) _ _ _ _ eq_refl).
  destruct (evict_spec (S (size (_buffers r))) r Hmc ltac:(lia))
    as (m & Hev & Hsub & Hszm).
  rewrite (bool_decide_eq_false_2 _ Hcur), Hlk.
  rewrite (run_bind _ _ _ _ _ Hev).
  rewrite (run_bind _ _ _ _ _
             (reader_seek_handle k (set_buffers m r) Hopen Hk)).
  rewrite (run_bind _ _ _ _ _
             (reader_tell_handle
                (set_handle (set_position k (_handle r))
                   (set_buffers m r)) Hopen)).
  rsimpl. rewrite position_set_position, run_modify.
  pose proof (try_load_block_at
                (set_block_start_offset (Some k)
                   (set_handle (set_position k (_handle r))
                      (set_buffers m r)))) as Ht.
  rsimpl. rewrite position_set_position in Ht.
  rewrite (block_at_same_file _ (_handle r)) in Ht
    by apply same_file_set_position.
  destruct (block_at (_text r) (_handle r) k) as [[raw' buf']|] eqn:Hb.
  - destruct Ht as (h' & Ht & Hs).
    rewrite (run_bind _ _ _ _ _ Ht). cbv beta iota.
    rewrite !run_modify, run_get. eexists. split; [done|].
    rsimpl.
    assert (same_file (_handle r) h') as Hs'.
    { eapply same_file_trans; [|exact Hs].
      apply same_file_set_position. }
    pose proof (len_nonneg buf').
    split; [|split; [exact Hs'|by repeat split]].
    constructor; rsimpl; try done.
    + destruct Hs' as (_ & -> & _). done.
    + rewrite map_size_insert. destruct (m !! k); cbn; lia.
    + exists k, raw'. rewrite (block_at_same_file _ _ _ _ Hs').
      done.
    + intros k' b' w'. rewrite (block_at_same_file _ _ _ _ Hs').
      rewrite lookup_insert_Some.
      intros [(<- & [= <- <-])|(_ & Hm)]; [done|].
      apply Hcache. by eapply lookup_weaken.
  - destruct Ht as (e & r' & Ht). exists e, r'.
    by apply run_bind_raise.
Qed.

(** What [_load_block] does at an offset [k]: the block that the file
    holds there becomes the current one, from the cache or from the
    file, and when nothing decodes there, or [k] is negative, it
    raises. *)
Lemma load_block_total r k :
  reader_inv r ->
  match (if bool_decide (0 <= k) then block_at (_text r) (_handle r) k
         else None) with
  | Some (raw, buf) =>
      exists r', _load_block (Some k) r = Ok tt r'
                 /\ loaded_block r r' k raw buf
  | None => exists e r', _load_block (Some k) r = Raise e r'
  end.
Proof.
  intros [Hopen Hnl Hmc Hsz Hw (a & raw & Ha & Hraw & Ha0 & Hblk) Hcache].
  destruct (decide (0 <= k)) as [Hk|Hk].
  - rewrite (bool_decide_eq_true_2 (0 <= k) Hk).
    destruct (decide (Some k = _block_start_offset r)) as [Hcur|Hcur];
      [|destruct (_buffers r !! k) as [[buf rawc]|] eqn:Hlk];
      [| |by apply load_block_miss].
    + unfold _load_block. rewrite run_get.
      rewrite (run_bind (ret k) _ _ _ _ eq_refl).
      rewrite (bool_decide_eq_true_2 _ Hcur).
      rewrite Ha in Hcur. injection Hcur as ->. rewrite Hblk.
      exists (set_within_block_offset 0 r). split; [done|].
      pose proof (len_nonneg (_buffer r)).
      split; [|by repeat split; try apply same_file_refl].
      constructor; rsimpl; try done. by exists a, raw.
    + unfold _load_block. rewrite run_get.
      rewrite (run_bind (ret k) _ _ _ _ eq_refl).
      rewrite (bool_decide_eq_false_2 _ Hcur), Hlk.
      destruct (Hcache _ _ _ Hlk) as [_ Hb]. rewrite Hb.
      rewrite !run_modify. eexists. split; [done|].
      pose proof (len_nonneg buf).
      split; [|by repeat split; try apply same_file_refl].
      constructor; rsimpl; try done. by exists k, rawc.
  - rewrite (bool_decide_eq_false_2 (0 <= k) Hk).
    unfold _load_block. rewrite run_get.
    rewrite (run_bind (ret k) _ _ _ _ eq_refl).
    destruct (evict_spec (S (size (_buffers r))) r Hmc ltac:(lia))
      as (m & Hev & Hsub & Hszm).
    rewrite bool_decide_eq_false_2
      by (rewrite Ha; intros [= ->]; lia).
    destruct (_buffers r !! k) as [[buf rawc]|] eqn:Hlk;
      [apply Hcache in Hlk as [? _]; lia|].
    rewrite (run_bind _ _ _ _ _ Hev).
    eexists _, _. apply run_bind_raise.
    unfold on_handle, File.seek. rsimpl. rewrite Hopen.
    replace (k <? 0) with true by lia. done.
Qed.

(** A block that [_load_block] made current is the one of the file. *)
Lemma load_block_some_ok r k u r' :
  reader_inv r -> _load_block (Some k) r = Ok u r' ->
  0 <= k
  /\ exists raw buf,
       block_at (_text r) (_handle r) k = Some (raw, buf)
       /\ loaded_block r r' k raw buf.
Proof.
  intros Hinv H. pose proof (load_block_total r k Hinv) as Ht.
  destruct (decide (0 <= k)) as [Hk|Hk].
  - rewrite (bool_decide_eq_true_2 _ Hk) in Ht. split; [done|].
    destruct (block_at (_text r) (_handle r) k) as [[raw buf]|].
    + destruct Ht as (r'' & Heq & Hl). rewrite Heq in H.
      injection H as _ <-. by exists raw, buf.
    + destruct Ht as (e & r'' & Heq). by rewrite Heq in H.
  - rewrite (bool_decide_eq_false_2 _ Hk) in Ht.
    destruct Ht as (e & r'' & Heq). by rewrite Heq in H.
Qed.

(** [_load_block()] loads the block after the current one. *)
Lemma load_block_None r a raw :
  _block_start_offset r = Some a -> _block_raw_length r = Some raw ->
  _load_block None r = _load_block (Some (a + raw)) r.
Proof.
  intros Ha Hraw. unfold _load_block. rewrite !run_get.
  by rewrite Ha, Hraw.
Qed.

Lemma next_start_loaded r a raw :
  _block_start_offset r = Some a -> _block_raw_length r = Some raw ->
  next_start r = a + raw.
Proof. intros Ha Hraw. unfold next_start. by rewrite Ha, Hraw. Qed.

(** The raw length of the current block is not negative, and it is
    zero only for the block at the end of the file. *)
Lemma reader_inv_next r :
  reader_inv r ->
  exists a raw,
    _block_start_offset r = Some a /\ _block_raw_length r = Some raw
    /\ 0 <= a /\ 0 <= raw /\ next_start r = a + raw
    /\ (raw = 0 -> _buffer r = [])
    /\ (0 < raw -> a + raw <= len (content (_handle r))).
Proof.
  intros [_ _ _ _ _ (a & raw & Ha & Hraw & Ha0 & Hblk) _].
  exists a, raw. rewrite (next_start_loaded _ _ _ Ha Hraw).
  apply block_at_inv in Hblk as [[-> ->]|[Hr Hle]]; [| |done].
  - repeat split; try done; lia.
  - repeat split; try done; lia.
Qed.

End LoadBlock.

(** ** What the methods of a reader keep *)

Section ReaderKeeps.

Context {zlib : Zlib}.
Import BgzfReader.

Lemma same_reader_refl r : same_reader r r.
Proof. split; [apply same_file_refl|done]. Qed.

Lemma same_reader_trans r1 r2 r3 :
  same_reader r1 r2 -> same_reader r2 r3 -> same_reader r1 r3.
Proof.
  intros (Hf & Ht & Hm) (Hf' & Ht' & Hm').
  split; [by eapply same_file_trans|]. split; congruence.
Qed.

Lemma loaded_block_same_reader r r' k raw buf :
  loaded_block r r' k raw buf -> reader_inv r' /\ same_reader r r'.
Proof. intros (? & ? & ? & ? & _). split; [done|]. by split. Qed.

Lemma reader_inv_set_within r w :
  reader_inv r -> 0 <= w <= len (_buffer r) ->
  reader_inv (set_within_block_offset w r).
Proof. intros [] Hw. by constructor. Qed.

Lemma load_block_next_ok r u r' :
  reader_inv r -> _load_block None r = Ok u r' ->
  0 <= next_start r
  /\ exists raw buf,
       block_at (_text r) (_handle r) (next_start r) = Some (raw, buf)
       /\ loaded_block r r' (next_start r) raw buf.
Proof.
  intros Hinv H.
  destruct (reader_inv_next r Hinv)
    as (a & raw & Ha & Hraw & _ & _ & -> & _).
  rewrite (load_block_None _ _ _ Ha Hraw) in H.
  by apply load_block_some_ok in H.
Qed.

Lemma within_block_range v :
  0 <= Z.lxor v (Z.shiftl (Z.shiftr v 16) 16) < 65536.
Proof.
  pose proof (split_virtual_offset_divmod v) as H.
  unfold split_virtual_offset in H. injection H as _ ->.
  apply Z.mod_pos_bound. lia.
Qed.

Lemma init_inv fs filename mode fileobj max_cache r :
  __init__ fs filename mode fileobj max_cache = Returns r ->
  reader_inv r /\ BgzfReader.max_cache r = max_cache
  /\ exists name c,
       filename = Some name /\ fs !! name = Some c
       /\ content (_handle r) = c
       /\ _block_start_offset r = Some 0
       /\ _within_block_offset r = 0.
Proof.
  unfold __init__. destruct (max_cache <? 1) eqn:Emc; [done|].
  destruct fileobj as [f|].
  { destruct (negb (_ && _)) eqn:E1; [done|].
    apply negb_false_iff, andb_true_iff in E1 as [_ Hm%bool_decide_eq_true].
    subst mode. by destruct (negb _). }
  destruct mode as [m|]; [|done].
  destruct (_ || _); [done|].
  destruct filename as [name|]; [|done].
  unfold File.open_rb. destruct (fs !! name) as [c|] eqn:Hfs; [|done].
  set (h := {| content := c; position := 0;
               closed := false; mode := "rb" |}).
  set (self := {| _text := _; _newline := _; _handle := h |}).
  assert (on_handle File.tell self = Ok 0 self) as Htell
    by (by apply (reader_tell_handle self)).
  rewrite (run_bind _ _ _ _ _ Htell).
  pose proof (load_block_miss self 0) as Hl.
  destruct (_load_block (Some 0) self) as [u r'|e r'] eqn:El; [|done].
  intros [= <-].
  assert (match block_at (_text self) (_handle self) 0 with
          | Some (raw, buf) =>
              exists r'0, Ok u r' = Ok tt r'0
                          /\ loaded_block self r'0 0 raw buf
          | None => exists e r'0, @Ok t unit u r' = Raise e r'0
          end) as Hl'.
  { apply Hl; try done.
    - subst self. rsimpl. by destruct (negb _).
    - subst self. rsimpl. lia. }
  destruct (block_at _ _ 0) as [[raw buf]|].
  - destruct Hl' as (r'' & [= _ <-] & Hld).
    destruct Hld as (Hinv & (Hc & _ & _) & _ & Hmc & Hs & _ & _ & Hw).
    split; [done|]. split; [done|]. exists name, c.
    by rewrite Hc.
  - by destruct Hl' as (? & ? & ?).
Qed.

Lemma seek_inv v r v' r' :
  reader_inv r -> seek v r = Ok v' r' -> reader_inv r' /\ same_reader r r'.
Proof.
  intros Hinv. unfold seek. rewrite run_get.
  intros (u & r1 & Hload & H)%bind_ok_inv.
  assert (reader_inv r1 /\ same_reader r r1) as [Hinv1 Hsame].
  { destruct (negb _); [|injection Hload as _ <-;
                         split; [done|apply same_reader_refl]].
    apply bind_ok_inv in Hload as (u1 & r2 & Hload & Hass).
    rewrite run_get in Hass. apply assert_ok_inv in Hass as [_ ->].
    apply load_block_some_ok in Hload as (_ & raw & buf & _ & Hl);
      [|done].
    by apply loaded_block_same_reader in Hl. }
  rewrite run_get in H.
  destruct (_ && _) eqn:Eg; [done|]. rewrite run_modify in H.
  injection H as _ <-.
  split; [|by destruct Hsame as (? & ? & ?)].
  apply reader_inv_set_within; [done|].
  pose proof (within_block_range v). pose proof (len_nonneg (_buffer r1)).
  apply andb_false_iff in Eg as [Eg|Eg]; [lia|].
  apply negb_false_iff, andb_true_iff in Eg as [? ?]. lia.
Qed.

Lemma read_rec_inv fuel size r d r' :
  reader_inv r -> read_rec fuel size r = Ok d r' ->
  reader_inv r' /\ same_reader r r'.
Proof.
  revert size r d. induction fuel as [|fuel IH]; intros size r d Hinv;
    cbn [read_rec];
    (destruct (size <? 0) eqn:E1; [done|]);
    (destruct (size =? 0) eqn:E2;
     [intros [= _ <-]; split; [done|apply same_reader_refl]|]);
    rewrite run_get;
    (destruct (_within_block_offset r + size <=? len (_buffer r)) eqn:E3;
     [rewrite run_modify;
      intros (? & ? & [_ ->]%assert_ok_inv & [= _ <-])%bind_ok_inv;
      split; [|by split; [apply same_file_refl|]];
      apply reader_inv_set_within; [done|];
      pose proof (inv_within r Hinv); lia|]);
    intros (u & r1 & Hload & H)%bind_ok_inv;
    apply load_block_next_ok in Hload as (_ & raw & buf & _ & Hl);
    try done;
    apply loaded_block_same_reader in Hl as [Hinv1 Hsame];
    rewrite run_get in H;
    (destruct (bool_decide (_buffer r1 = [])); [by injection H as _ <-|]);
    (destruct (negb _); [|by injection H as _ <-]); [done|].
  apply bind_ok_inv in H as (rest & r2 & Hrec & [= _ <-]).
  apply IH in Hrec as [Hinv2 Hsame2]; [|done].
  split; [done|by eapply same_reader_trans].
Qed.

(** [find] of the newline: where the first newline from [start] on is,
    and [-1] when there is none. *)
Lemma find_at_newline s i0 :
  0 <= i0 ->
  (find_at [x0a] s i0 = -1 /\ (x0a ∉ s))
  \/ (exists l rest,
        s = l ++ x0a :: rest /\ (x0a ∉ l)
        /\ find_at [x0a] s i0 = i0 + len l).
Proof.
  revert i0. induction s as [|x s IH]; intros i0 Hi; cbn [find_at].
  - left. split; [done|]. by intros ?%elem_of_nil.
  - cbn [length take]. rewrite take_0. unfold bytes_eqb.
    case_bool_decide as Hx.
    + right. injection Hx as ->. exists [], s.
      split; [done|]. split; [by intros ?%elem_of_nil|].
      change (len []) with 0. lia.
    + destruct (IH (i0 + 1)) as [[Hf Hn]|(l & rest & -> & Hn & Hf)];
        [lia| |].
      * left. split; [done|]. intros [E|?]%elem_of_cons; [by subst|done].
      * right. exists (x :: l), rest. split; [done|]. split.
        -- intros [E|?]%elem_of_cons; [by subst|done].
        -- rewrite Hf. unfold len. cbn [length]. lia.
Qed.

Lemma find_newline s start :
  0 <= start <= len s ->
  (bytes_find s [x0a] start = -1 /\ (x0a ∉ slice_from s start))
  \/ (exists l rest,
        slice_from s start = l ++ x0a :: rest /\ (x0a ∉ l)
        /\ bytes_find s [x0a] start = start + len l).
Proof.
  intros Hs. unfold bytes_find.
  replace (len s <? start) with false by lia.
  apply find_at_newline. lia.
Qed.

Lemma find_newline_range s start :
  0 <= start <= len s ->
  bytes_find s [x0a] start = -1
  \/ start <= bytes_find s [x0a] start < len s.
Proof.
  intros Hs.
  destruct (find_newline s start Hs) as [[-> _]|(l & rest & Hl & _ & ->)];
    [by left|right].
  apply (f_equal len) in Hl. unfold slice_from in Hl.
  rewrite len_app in Hl. unfold len in *. cbn [length] in Hl.
  rewrite length_drop in Hl. lia.
Qed.

Lemma load_next_step {A} (k : unit -> M t A) r x r' :
  reader_inv r -> (_load_block None ≫= k) r = Ok x r' ->
  exists r1, reader_inv r1 /\ same_reader r r1 /\ k tt r1 = Ok x r'.
Proof.
  intros Hinv ([] & r1 & Hload & H)%bind_ok_inv.
  apply load_block_next_ok in Hload as (_ & raw & buf & _ & Hl); [|done].
  apply loaded_block_same_reader in Hl as [Hinv1 Hsame]. by exists r1.
Qed.

Lemma readline_rec_inv fuel r d r' :
  reader_inv r -> readline_rec fuel r = Ok d r' ->
  reader_inv r' /\ same_reader r r'.
Proof.
  revert r d. induction fuel as [|fuel IH]; intros r d Hinv;
    cbn [readline_rec]; rewrite run_get;
    set (i := bytes_find _ _ _);
    (destruct (i =? -1) eqn:E1;
     [|destruct (i + 1 =? len (_buffer r)) eqn:E2]).
  - intros (r1 & Hinv1 & Hsame & H)%load_next_step; [|done].
    rewrite run_get in H. destruct (bool_decide _); [|done].
    by injection H as _ <-.
  - intros (r1 & Hinv1 & Hsame & H)%load_next_step; [|done].
    apply bind_ok_inv in H as (? & ? & [_ ->]%assert_ok_inv & H).
    by injection H as _ <-.
  - rewrite run_modify. intros [= _ <-].
    split; [|by split; [apply same_file_refl|]].
    apply reader_inv_set_within; [done|].
    pose proof (inv_within r Hinv) as Hw.
    pose proof (find_newline_range (_buffer r) _ Hw) as Hf.
    fold _bytes_newline in Hf. rewrite <- (inv_newline r Hinv) in Hf.
    fold i in Hf. lia.
  - intros (r1 & Hinv1 & Hsame & H)%load_next_step; [|done].
    rewrite run_get in H.
    destruct (bool_decide _); [by injection H as _ <-|].
    apply bind_ok_inv in H as (rest & r2 & Hrec & [= _ <-]).
    apply IH in Hrec as [Hinv2 Hsame2]; [|done].
    split; [done|by eapply same_reader_trans].
  - intros (r1 & Hinv1 & Hsame & H)%load_next_step; [|done].
    apply bind_ok_inv in H as (? & ? & [_ ->]%assert_ok_inv & H).
    by injection H as _ <-.
  - rewrite run_modify. intros [= _ <-].
    split; [|by split; [apply same_file_refl|]].
    apply reader_inv_set_within; [done|].
    pose proof (inv_within r Hinv) as Hw.
    pose proof (find_newline_range (_buffer r) _ Hw) as Hf.
    fold _bytes_newline in Hf. rewrite <- (inv_newline r Hinv) in Hf.
    fold i in Hf. lia.
Qed.

Lemma readline_inv r d r' :
  reader_inv r -> readline r = Ok d r' ->
  reader_inv r' /\ same_reader r r'.
Proof.
  intros Hinv. unfold readline. rewrite run_get.
  by apply readline_rec_inv.
Qed.

Lemma next_inv r d r' :
  reader_inv r -> next r = Ok d r' ->
  reader_inv r' /\ same_reader r r' /\ d <> [].
Proof.
  intros Hinv. unfold next.
  intros (line & r1 & Hl & H)%bind_ok_inv.
  apply readline_inv in Hl as [Hinv1 Hsame]; [|done].
  case_bool_decide as Hd; [done|]. by injection H as <- <-.
Qed.

End ReaderKeeps.

(** ** Reading the blocks of a file one after the other *)

Section ReadStream.

Context {zlib : Zlib}.
Import BgzfReader.

Lemma tidy_tail e es : tidy (e :: es) -> tidy es.
Proof. destruct e as [raw d]. by intros [_ ?]. Qed.

Lemma reader_at_same r r' es :
  reader_inv r' -> same_reader r r' -> next_start r' = next_start r ->
  reader_at r es -> reader_at r' es.
Proof.
  intros Hinv (Hf & Ht & _) Hn (_ & Hes & Htidy).
  split; [done|]. split; [|done]. rewrite Ht, Hn.
  by eapply entries_at_same_file.
Qed.

Lemma reader_at_set_within r es w :
  reader_at r es -> 0 <= w <= len (_buffer r) ->
  reader_at (set_within_block_offset w r) es.
Proof.
  intros Hat Hw. eapply reader_at_same; [| | |exact Hat].
  - apply reader_inv_set_within; [apply Hat|done].
  - split; [apply same_file_refl|by split].
  - done.
Qed.

(** Loading the next block in front of the blocks [es]: the first of
    them becomes the current one, or the empty block at the end of the
    file when there is none. *)
Lemma reader_at_load r es :
  reader_at r es ->
  exists r1,
    _load_block None r = Ok tt r1 /\ same_reader r r1
    /\ _within_block_offset r1 = 0
    /\ _buffer r1 = default [] (snd <$> head es)
    /\ reader_at r1 (tail es).
Proof.
  intros (Hinv & Hes & Htidy).
  destruct (reader_inv_next r Hinv)
    as (a & raw & Ha & Hraw & Ha0 & Hraw0 & Hn & _).
  rewrite (load_block_None _ _ _ Ha Hraw). rewrite Hn in Hes.
  pose proof (load_block_total r (a + raw) Hinv) as Ht.
  rewrite bool_decide_eq_true_2 in Ht by lia.
  assert (forall raw' d' r1 es',
            block_at (_text r) (_handle r) (a + raw) = Some (raw', d') ->
            loaded_block r r1 (a + raw) raw' d' ->
            entries_at (_text r) (_handle r) (a + raw + raw') es' ->
            tidy es' ->
            same_reader r r1 /\ _within_block_offset r1 = 0
            /\ _buffer r1 = d' /\ reader_at r1 es') as Hstep.
  { intros raw' d' r1 es' Hb Hl Hes' Ht'.
    pose proof Hl as (Hinv1 & Hf & Htx & Hmc & Hs1 & Hr1 & Hb1 & Hw1).
    split; [by split|]. split; [done|]. split; [done|].
    split; [done|]. split; [|done].
    rewrite (next_start_loaded _ _ _ Hs1 Hr1), Htx.
    by eapply entries_at_same_file. }
  destruct es as [|[raw' d'] es']; cbn [entries_at] in Hes;
    cbn [head tail fmap option_fmap option_map default snd].
  - rewrite Hes in Ht. destruct Ht as (r1 & Hload & Hl).
    exists r1. split; [done|].
    apply (Hstep 0 [] r1 []); try done.
    cbn [entries_at]. by rewrite Z.add_0_r.
  - destruct Hes as (Hraw' & Hb & Hes').
    rewrite Hb in Ht. destruct Ht as (r1 & Hload & Hl).
    exists r1. split; [done|].
    apply (Hstep raw' d' r1 es'); try done. by eapply tidy_tail.
Qed.

Lemma upcoming_within r es n :
  0 <= _within_block_offset r -> 0 <= n ->
  _within_block_offset r + n <= len (_buffer r) ->
  slice (_buffer r) (_within_block_offset r) (_within_block_offset r + n)
  = take (Z.to_nat n) (upcoming r es)
  /\ upcoming (set_within_block_offset (_within_block_offset r + n) r) es
     = drop (Z.to_nat n) (upcoming r es).
Proof.
  intros Hw Hn Hle. unfold upcoming, slice, slice_from, len in *. rsimpl.
  assert (Z.to_nat n
          <= length (drop (Z.to_nat (_within_block_offset r)) (_buffer r)))%nat
    as Hl by (rewrite length_drop; lia).
  rewrite take_app_le, drop_app_le, drop_drop by done.
  split; f_equal; f_equal; lia.
Qed.

(** What is left to read, across the end of the current block. *)
Lemma upcoming_cross r es r1 :
  _within_block_offset r1 = 0 ->
  _buffer r1 = default [] (snd <$> head es) ->
  upcoming r es
  = slice_from (_buffer r) (_within_block_offset r)
    ++ upcoming r1 (tail es).
Proof.
  intros Hw1 Hb1. unfold upcoming. rewrite Hw1, Hb1. f_equal.
  unfold slice_from. change (Z.to_nat 0) with 0%nat. rewrite drop_0.
  by destruct es as [|[raw d] es'].
Qed.

Lemma upcoming_at_empty r1 es :
  tidy es -> _within_block_offset r1 = 0 ->
  _buffer r1 = default [] (snd <$> head es) -> _buffer r1 = [] ->
  upcoming r1 (tail es) = [].
Proof.
  intros Ht Hw1 Hb1 He. unfold upcoming, slice_from. rewrite He.
  rewrite drop_nil. cbn [app]. rewrite He in Hb1.
  destruct es as [|[raw d] es']; [done|].
  cbn in Hb1. subst d. destruct Ht as [Hc _]. by apply Hc.
Qed.

Lemma len_slice_from (b : bytes) w :
  0 <= w <= len b -> len (slice_from b w) = len b - w.
Proof.
  intros Hw. unfold slice_from, len in *. rewrite length_drop. lia.
Qed.

Lemma take_across (data u : bytes) n :
  len data <= n ->
  take (Z.to_nat n) (data ++ u) = data ++ take (Z.to_nat (n - len data)) u
  /\ drop (Z.to_nat n) (data ++ u) = drop (Z.to_nat (n - len data)) u.
Proof.
  intros Hl. unfold len in *.
  rewrite take_app_ge, drop_app_ge by lia.
  split; f_equal; f_equal; lia.
Qed.

Lemma read_rec_delivers fuel size r es :
  reader_at r es -> 0 < size ->
  size <= Z.of_nat fuel
  \/ (_within_block_offset r = 0 /\ _buffer r <> []
      /\ size - 1 <= Z.of_nat fuel) ->
  exists r' es',
    read_rec fuel size r = Ok (take (Z.to_nat size) (upcoming r es)) r'
    /\ reader_at r' es' /\ same_reader r r'
    /\ upcoming r' es' = drop (Z.to_nat size) (upcoming r es).
Proof.
  revert size r es. induction fuel as [|fuel IH]; intros size r es Hat Hs Hf;
    pose proof (inv_within r (proj1 Hat)) as Hw;
    (destruct (decide (_within_block_offset r + size <= len (_buffer r)))
       as [Hle|Hgt];
     [rewrite read_within_block by lia;
      destruct (upcoming_within r es size) as [-> Hup]; [lia|lia|lia|];
      eexists _, es; split; [done|];
      split; [apply reader_at_set_within; [done|lia]|];
      split; [by split; [apply same_file_refl|]|done]|]).
  all: destruct (reader_at_load r es Hat)
         as (r1 & Hload & Hsame & Hw1 & Hb1 & Hat1).
  all: cbn [read_rec]; replace (size <? 0) with false by lia;
       replace (size =? 0) with false by lia; rewrite run_get;
       replace (_ <=? _) with false by lia; cbv zeta;
       rewrite (run_bind _ _ _ _ _ Hload), run_get.
  all: rewrite (upcoming_cross r es r1 Hw1 Hb1).
  all: pose proof (len_slice_from (_buffer r) _ Hw) as Hld.
  all: set (data := slice_from (_buffer r) (_within_block_offset r)) in *.
  all: destruct (take_across data (upcoming r1 (tail es)) size) as [-> ->];
       [lia|].
  all: case_bool_decide as Hb.
  1,3: rewrite (upcoming_at_empty r1 es (proj2 (proj2 Hat)) Hw1 Hb1 Hb);
       rewrite take_nil, drop_nil, app_nil_r;
       exists r1, (tail es); split; [done|]; split; [done|];
       split; [done|];
       by apply (upcoming_at_empty r1 es (proj2 (proj2 Hat))).
  all: replace (size - len data =? 0) with false by lia; cbn [negb].
  - exfalso. destruct Hf as [Hf|(Hw0 & Hne & Hf)]; [lia|].
    assert (0 < len (_buffer r)); [|lia].
    destruct (_buffer r); [done|]. unfold len. cbn [length]. lia.
  - destruct (IH (size - len data) r1 (tail es) Hat1 ltac:(lia))
      as (r' & es' & Hrec & Hat' & Hsame' & Hup).
    { right. split; [done|]. split; [done|].
      destruct Hf as [Hf|(Hw0 & Hne & Hf)]; [lia|].
      assert (0 < len (_buffer r)); [|lia].
      destruct (_buffer r); [done|]. unfold len. cbn [length]. lia. }
    rewrite (run_bind _ _ _ _ _ Hrec).
    exists r', es'. split; [done|]. split; [done|].
    split; [by eapply same_reader_trans|done].
Qed.

End ReadStream.

(** ** Reading lines *)

Section Lines.

Lemma first_line_no_newline (data u : bytes) :
  x0a ∉ data -> first_line (data ++ u) = data ++ first_line u.
Proof.
  induction data as [|x data IH]; intros Hn; [done|].
  cbn [app first_line]. rewrite bool_decide_eq_false_2.
  - rewrite IH; [done|]. intros ?. apply Hn. by right.
  - intros ->. apply Hn. by left.
Qed.

Lemma first_line_newline (l rest : bytes) :
  x0a ∉ l -> first_line (l ++ x0a :: rest) = l ++ [x0a].
Proof.
  intros Hn. rewrite first_line_no_newline by done.
  cbn [first_line]. by rewrite bool_decide_eq_true_2.
Qed.

Lemma first_line_nil_iff (s : bytes) : first_line s = [] <-> s = [].
Proof.
  destruct s as [|x s]; [done|]. cbn [first_line].
  by destruct (bool_decide _).
Qed.

Lemma first_line_prefix (s : bytes) :
  s = first_line s ++ drop (length (first_line s)) s.
Proof.
  induction s as [|x s IH]; [done|]. cbn [first_line].
  destruct (bool_decide _); cbn [length drop app]; [done|].
  by rewrite <- IH.
Qed.

Lemma lines_of_first_line (s : bytes) :
  s <> [] ->
  lines_of s = first_line s :: lines_of (drop (length (first_line s)) s).
Proof.
  induction s as [|x s IH]; [done|]. intros _.
  cbn [lines_of first_line].
  destruct (bool_decide (x = x0a)); cbn [length drop]; [done|].
  destruct s as [|y s]; [done|]. by rewrite IH.
Qed.

Lemma take_line (l u : bytes) :
  take (Z.to_nat (len l + 1)) (l ++ x0a :: u) = l ++ [x0a]
  /\ length (l ++ [x0a]) = Z.to_nat (len l + 1).
Proof.
  unfold len. rewrite length_app. cbn [length]. split; [|lia].
  replace (Z.to_nat (Z.of_nat (length l) + 1)) with (length l + 1)%nat
    by lia.
  rewrite take_app_ge by lia.
  by replace (length l + 1 - length l)%nat with 1%nat by lia.
Qed.

End Lines.

Section ReadLines.

Context {zlib : Zlib}.
Import BgzfReader.

(** The case of [readline] in which the line ends in the buffer. *)
Lemma readline_rec_newline fuel r es l rest :
  reader_at r es ->
  slice_from (_buffer r) (_within_block_offset r) = l ++ x0a :: rest ->
  x0a ∉ l ->
  bytes_find (_buffer r) [x0a] (_within_block_offset r)
  = _within_block_offset r + len l ->
  exists r' es',
    readline_rec fuel r = Ok (first_line (upcoming r es)) r'
    /\ reader_at r' es' /\ same_reader r r'
    /\ upcoming r' es'
       = drop (length (first_line (upcoming r es))) (upcoming r es).
Proof.
  intros Hat Hdata Hno Hi.
  pose proof (inv_within r (proj1 Hat)) as Hw.
  pose proof (inv_newline r (proj1 Hat)) as Hnl.
  destruct (reader_at_load r es Hat)
    as (r1 & Hload & Hsame & Hw1 & Hb1 & Hat1).
  pose proof (len_slice_from (_buffer r) _ Hw) as Hld.
  pose proof (upcoming_cross r es r1 Hw1 Hb1) as Hup.
  pose proof (len_nonneg l) as Hl0. pose proof (len_nonneg rest) as Hr0.
  assert (len (_buffer r) - _within_block_offset r
          = len l + 1 + len rest) as Hlen
    by (rewrite <- Hld, Hdata, len_app; unfold len; cbn [length]; lia).
  assert (first_line (upcoming r es) = l ++ [x0a]) as Hfl
    by (unfold upcoming; rewrite Hdata, <- app_assoc;
        by apply first_line_newline).
  rewrite Hfl.
  assert (readline_rec fuel r
          = (if _within_block_offset r + len l + 1 =? len (_buffer r) then
               _load_block None;;
               assert_ (negb (bool_decide
                                (slice_from (_buffer r)
                                   (_within_block_offset r) = [])));;
               ret (slice_from (_buffer r) (_within_block_offset r))
             else
               modify (set_within_block_offset
                         (_within_block_offset r + len l + 1));;
               ret (slice (_buffer r) (_within_block_offset r)
                      (_within_block_offset r + len l + 1))) r) as ->.
  { destruct fuel; cbn [readline_rec]; rewrite run_get, Hnl;
      unfold _bytes_newline; rewrite Hi;
      by replace (_within_block_offset r + len l =? -1) with false by lia. }
  destruct (_within_block_offset r + len l + 1 =? len (_buffer r))
    eqn:E; [apply Z.eqb_eq in E|apply Z.eqb_neq in E].
  - assert (rest = []) as -> by (apply len_nil_iff; lia).
    rewrite (run_bind _ _ _ _ _ Hload).
    rewrite run_assert
      by (rewrite Hdata, bool_decide_eq_false_2; [done|]; by destruct l).
    exists r1, (tail es). split; [by rewrite Hdata|].
    split; [done|]. split; [done|].
    by rewrite Hup, Hdata, drop_app_length.
  - rewrite run_modify.
    destruct (upcoming_within r es (len l + 1)) as [Hsl Hup'];
      [lia|lia|lia|].
    replace (_within_block_offset r + len l + 1)
      with (_within_block_offset r + (len l + 1)) by lia.
    assert (take (Z.to_nat (len l + 1)) (upcoming r es) = l ++ [x0a])
      as Htk
      by (unfold upcoming; rewrite Hdata, <- app_assoc; apply take_line).
    rewrite Hsl, Htk, (proj2 (take_line l [])).
    eexists _, es. split; [done|].
    split; [apply reader_at_set_within; [done|lia]|].
    split; [by split; [apply same_file_refl|]|done].
Qed.

Lemma readline_rec_delivers fuel r es :
  reader_at r es -> (length es <= fuel)%nat ->
  exists r' es',
    readline_rec fuel r = Ok (first_line (upcoming r es)) r'
    /\ reader_at r' es' /\ same_reader r r'
    /\ upcoming r' es'
       = drop (length (first_line (upcoming r es))) (upcoming r es).
Proof.
  revert r es. induction fuel as [|fuel IH]; intros r es Hat Hf;
    pose proof (inv_within r (proj1 Hat)) as Hw;
    pose proof (inv_newline r (proj1 Hat)) as Hnl;
    (destruct (find_newline (_buffer r) (_within_block_offset r) Hw)
       as [[Hi Hno]|(l & rest & Hdata & Hno & Hi)];
     [|by eapply readline_rec_newline]);
    destruct (reader_at_load r es Hat)
      as (r1 & Hload & Hsame & Hw1 & Hb1 & Hat1);
    pose proof (upcoming_cross r es r1 Hw1 Hb1) as Hup;
    cbn [readline_rec]; rewrite run_get, Hnl; unfold _bytes_newline;
    rewrite Hi; change (-1 =? -1) with true; cbv iota;
    rewrite (run_bind _ _ _ _ _ Hload), run_get;
    rewrite Hup, (first_line_no_newline _ _ Hno), length_app, <- drop_drop,
      drop_app_length;
    case_bool_decide as Hb.
  1,3: rewrite (upcoming_at_empty r1 es (proj2 (proj2 Hat)) Hw1 Hb1 Hb);
       cbn [first_line length drop]; rewrite app_nil_r;
       exists r1, (tail es); split; [done|]; split; [done|];
       split; [done|];
       by apply (upcoming_at_empty r1 es (proj2 (proj2 Hat))).
  - exfalso. rewrite Hb1 in Hb. destruct es; [done|]. cbn in Hf. lia.
  - destruct (IH r1 (tail es) Hat1)
      as (r' & es' & Hrec & Hat' & Hsame' & Hup').
    { destruct es; cbn [tail length] in *; lia. }
    rewrite (run_bind _ _ _ _ _ Hrec).
    exists r', es'. split; [done|]. split; [done|].
    split; [by eapply same_reader_trans|done].
Qed.

End ReadLines.

Section Iteration.

Context {zlib : Zlib}.
Import BgzfReader.

Lemma readline_fuel r es :
  reader_at r es -> (length es <= S (length (content (_handle r))))%nat.
Proof.
  intros (Hinv & Hes & _).
  destruct (reader_inv_next r Hinv)
    as (a & raw & _ & _ & Ha & Hraw & Hn & _).
  apply entries_at_length in Hes; [|lia]. unfold len in Hes. lia.
Qed.

Lemma readline_stream r es :
  reader_at r es ->
  exists r' es',
    readline r = Ok (first_line (upcoming r es)) r'
    /\ reader_at r' es' /\ same_reader r r'
    /\ upcoming r' es'
       = drop (length (first_line (upcoming r es))) (upcoming r es).
Proof.
  intros Hat. unfold readline. rewrite run_get.
  apply readline_rec_delivers; [done|]. by apply readline_fuel.
Qed.

Lemma next_stream r es :
  reader_at r es ->
  exists r' es',
    next r = (if bool_decide (upcoming r es = []) then
                Raise StopIteration r'
              else Ok (first_line (upcoming r es)) r')
    /\ reader_at r' es' /\ same_reader r r'
    /\ upcoming r' es'
       = drop (length (first_line (upcoming r es))) (upcoming r es).
Proof.
  intros Hat.
  destruct (readline_stream r es Hat) as (r' & es' & Hl & Hrest).
  exists r', es'. split; [|done]. unfold next.
  rewrite (run_bind _ _ _ _ _ Hl).
  pose proof (first_line_nil_iff (upcoming r es)) as Hnil.
  do 2 case_bool_decide; try done; tauto.
Qed.

Lemma concat_lines_of (s : bytes) : concat (lines_of s) = s.
Proof.
  induction s as [|x s IH]; [done|]. cbn [lines_of].
  destruct (bool_decide _); [cbn; by rewrite IH|].
  destruct (lines_of s) as [|l ls]; cbn in *; by rewrite <- IH.
Qed.

Lemma iterate_stream fuel r es :
  reader_at r es -> (length (upcoming r es) < fuel)%nat ->
  exists r' es',
    iterate fuel r = Ok (lines_of (upcoming r es)) r'
    /\ reader_at r' es' /\ same_reader r r' /\ upcoming r' es' = [].
Proof.
  revert r es. induction fuel as [|fuel IH]; intros r es Hat Hf; [lia|].
  destruct (next_stream r es Hat) as (r1 & es1 & Hn & Hat1 & Hsame & Hup).
  cbn [iterate]. rewrite Hn. case_bool_decide as Hnil.
  - exists r1, es1. rewrite Hnil in *. by cbn in *.
  - assert (first_line (upcoming r es) <> []) as Hfl
      by (by rewrite first_line_nil_iff).
    assert (length (upcoming r1 es1) < fuel)%nat as Hf1.
    { rewrite Hup, length_drop.
      assert (length (upcoming r es) <> 0%nat)
        by (by destruct (upcoming r es)).
      destruct (first_line (upcoming r es)); [done|]. cbn [length]. lia. }
    destruct (IH r1 es1 Hat1 Hf1) as (r' & es' & Hit & Hat' & Hsame' & Hup').
    rewrite (run_bind _ _ _ _ _ Hit).
    exists r', es'. split; [|split; [done|]].
    + rewrite (lines_of_first_line _ Hnil), <- Hup. done.
    + split; [by eapply same_reader_trans|done].
Qed.

End Iteration.

(** ** The reader of the example with three lines *)

Lemma example_reader_lines :
  @BgzfReader.__init__ StoredZlib.zlib fs1 (Some "lines.bgz"%string)
    (Some "rb"%string) None 100 = Returns reader_lines.
Proof. vm_compute. reflexivity. Qed.

(** After its first block come the block of ["ef\ngh\n"] and the EOF
    block. *)
Lemma reader_lines_at :
  @reader_at StoredZlib.zlib reader_lines [(37, efgh); (28, [])].
Proof.
  split; [|split].
  - eapply init_inv. apply example_reader_lines.
  - cbn [entries_at]. repeat split; try (vm_compute; reflexivity).
  - cbn [tidy]. repeat split; intros; done.
Qed.

(** ** The invariant of a reader, and the data it delivers *)

(** X9: what a reader keeps.  The reader that [__init__] returns, and the
    reader after every [seek], [read], [readline] and [next] that returns,
    has an open handle on the same file, holds at most [max_cache] blocks
    in its cache, is at an offset between 0 and the length of its buffer,
    and its buffer and every block of its cache are what the file holds at
    their offsets, with the raw length that goes with them. *)
Theorem reader_keeps_invariant {zlib : Zlib} :
  (forall fs filename mode fileobj max_cache r,
     BgzfReader.__init__ fs filename mode fileobj max_cache = Returns r ->
     reader_inv r /\ BgzfReader.max_cache r = max_cache)
  /\ (forall r,
        reader_inv r ->
        (forall v v' r',
           BgzfReader.seek v r = Ok v' r' -> reader_inv r' /\ same_reader r r')
        /\ (forall size d r',
              BgzfReader.read size r = Ok d r' ->
              reader_inv r' /\ same_reader r r')
        /\ (forall d r',
              BgzfReader.readline r = Ok d r' ->
              reader_inv r' /\ same_reader r r')
        /\ (forall d r',
              BgzfReader.next r = Ok d r' ->
              reader_inv r' /\ same_reader r r')).
Proof.
  split.
  - intros fs filename mode fileobj max_cache r H.
    apply init_inv in H as (? & ? & _). by split.
  - intros r Hinv. split; [|split; [|split]].
    + intros v v' r'. by apply seek_inv.
    + intros size d r'. by apply read_rec_inv.
    + intros d r'. by apply readline_inv.
    + intros d r' H. apply next_inv in H as (? & ? & _); [|done]. by split.
Qed.

(** The reader of the example, and what a seek leaves of it. *)
Lemma reader_keeps_invariant_witness :
  @reader_inv StoredZlib.zlib reader_lines
  /\ @reader_inv StoredZlib.zlib
       (BgzfReader.set_within_block_offset 3 reader_lines).
Proof.
  destruct (@reader_keeps_invariant StoredZlib.zlib) as [Hinit Hstep].
  assert (@reader_inv StoredZlib.zlib reader_lines) as Hinv.
  { apply (Hinit fs1 (Some "lines.bgz"%string) (Some "rb"%string) None 100).
    vm_compute. reflexivity. }
  split; [exact Hinv|].
  destruct (Hstep reader_lines Hinv) as [Hseek _].
  apply (Hseek 3 3). vm_compute. reflexivity.
Defined.

(** X10: what [read] delivers.  On a reader whose blocks ahead all
    decode, with the empty ones at the end of the file, [read(size)] with
    [size > 0] returns the next [size] bytes of the data: the rest of the
    buffer, then the data of the blocks that follow; it returns all that
    is left when that is less.  It leaves the reader in front of the rest
    of the data, so that reads that follow one another return consecutive
    pieces of it. *)
Theorem read_delivers {zlib : Zlib} (r : BgzfReader.t)
    (es : list (Z * bytes)) (size : Z) :
  reader_at r es -> 0 < size ->
  exists r' es',
    BgzfReader.read size r = Ok (take (Z.to_nat size) (upcoming r es)) r'
    /\ reader_at r' es'
    /\ upcoming r' es' = drop (Z.to_nat size) (upcoming r es).
Proof.
  intros Hat Hs.
  destruct (read_rec_delivers (Z.to_nat size) size r es Hat Hs)
    as (r' & es' & Hr & Hat' & _ & Hup); [left; lia|].
  by exists r', es'.
Qed.

(** Seven bytes from the start: the five of the first block and two of
    the second. *)
Lemma read_delivers_witness :
  exists r' es',
    @BgzfReader.read StoredZlib.zlib 7 reader_lines
    = Ok (abcd ++ take 2 efgh) r'
    /\ @reader_at StoredZlib.zlib r' es'
    /\ upcoming r' es' = drop 2 efgh.
Proof.
  apply (@read_delivers StoredZlib.zlib reader_lines [(37, efgh); (28, [])] 7).
  - apply reader_lines_at.
  - lia.
Defined.

(** X11: what [readline] delivers.  On such a reader, [readline] returns
    the data up to and with the next newline, also when the line goes
    across blocks, or all that is left when there is no newline; the empty
    string means that nothing is left.  It leaves the reader in front of
    what follows the line. *)
Theorem readline_delivers {zlib : Zlib} (r : BgzfReader.t)
    (es : list (Z * bytes)) :
  reader_at r es ->
  exists r' es',
    BgzfReader.readline r = Ok (first_line (upcoming r es)) r'
    /\ reader_at r' es'
    /\ upcoming r' es'
       = drop (length (first_line (upcoming r es))) (upcoming r es)
    /\ (first_line (upcoming r es) = [] <-> upcoming r es = []).
Proof.
  intros Hat.
  destruct (readline_stream r es Hat) as (r' & es' & Hl & Hat' & _ & Hup).
  exists r', es'. split; [done|]. split; [done|]. split; [done|].
  apply first_line_nil_iff.
Qed.

(** The first line of the example. *)
Lemma readline_delivers_witness :
  exists r' es',
    @BgzfReader.readline StoredZlib.zlib reader_lines = Ok (take 3 abcd) r'
    /\ @reader_at StoredZlib.zlib r' es'
    /\ upcoming r' es' = drop 3 abcd ++ efgh
    /\ (take 3 abcd = [] <-> abcd ++ efgh = []).
Proof.
  apply (@readline_delivers StoredZlib.zlib reader_lines
           [(37, efgh); (28, [])]).
  apply reader_lines_at.
Defined.

(** X12: [next] is [readline] until nothing is left: it returns the next
    line, which is not empty, and raises [StopIteration] exactly when no
    data are left. *)
Theorem next_delivers {zlib : Zlib} (r : BgzfReader.t)
    (es : list (Z * bytes)) :
  reader_at r es ->
  exists r' es',
    BgzfReader.next r
    = (if bool_decide (upcoming r es = []) then Raise StopIteration r'
       else Ok (first_line (upcoming r es)) r')
    /\ reader_at r' es'
    /\ upcoming r' es'
       = drop (length (first_line (upcoming r es))) (upcoming r es)
    /\ (upcoming r es <> [] -> first_line (upcoming r es) <> []).
Proof.
  intros Hat.
  destruct (next_stream r es Hat) as (r' & es' & Hn & Hat' & _ & Hup).
  exists r', es'. split; [done|]. split; [done|]. split; [done|].
  by rewrite first_line_nil_iff.
Qed.

(** The first line of the example, from [next]. *)
Lemma next_delivers_witness :
  exists r' es',
    @BgzfReader.next StoredZlib.zlib reader_lines
    = (if bool_decide (abcd ++ efgh = []) then Raise StopIteration r'
       else Ok (take 3 abcd) r')
    /\ @reader_at StoredZlib.zlib r' es'
    /\ upcoming r' es' = drop 3 abcd ++ efgh
    /\ (abcd ++ efgh <> [] -> take 3 abcd <> []).
Proof.
  apply (@next_delivers StoredZlib.zlib reader_lines [(37, efgh); (28, [])]).
  apply reader_lines_at.
Defined.

(** X13: iterating over a reader.  A loop over such a reader, which calls
    [next] until [StopIteration], gets the lines of the data that are
    left, each with its newline but perhaps the last; put together they
    are those data, and the loop leaves the reader at the end of the
    data. *)
Theorem iterate_delivers {zlib : Zlib} (r : BgzfReader.t)
    (es : list (Z * bytes)) (fuel : nat) :
  reader_at r es -> (length (upcoming r es) < fuel)%nat ->
  exists r' es',
    BgzfReader.iterate fuel r = Ok (lines_of (upcoming r es)) r'
    /\ reader_at r' es' /\ upcoming r' es' = []
    /\ concat (lines_of (upcoming r es)) = upcoming r es.
Proof.
  intros Hat Hf.
  destruct (iterate_stream fuel r es Hat Hf)
    as (r' & es' & Hit & Hat' & _ & Hup).
  exists r', es'. split; [done|]. split; [done|]. split; [done|].
  apply concat_lines_of.
Qed.

(** The three lines of the example; the second is in both blocks. *)
Lemma iterate_delivers_witness :
  exists r' es',
    @BgzfReader.iterate StoredZlib.zlib 12 reader_lines
    = Ok [[x61; x62; x0a]; [x63; x64; x65; x66; x0a]; [x67; x68; x0a]] r'
    /\ @reader_at StoredZlib.zlib r' es' /\ upcoming r' es' = []
    /\ concat [[x61; x62; x0a]; [x63; x64; x65; x66; x0a]; [x67; x68; x0a]]
       = abcd ++ efgh.
Proof.
  apply (@iterate_delivers StoredZlib.zlib reader_lines
           [(37, efgh); (28, [])] 12).
  - apply reader_lines_at.
  - vm_compute. lia.
Defined.

(** ** A reader on what a writer wrote *)

Section ReadBack.

Context {zlib : Zlib} {laws : ZlibLaws zlib}.

Lemma rest_at c x p h :
  content h = c ++ x -> p = len c -> rest (set_position p h) = x.
Proof.
  intros Hc ->. unfold rest, len. cbn [position content set_position].
  by rewrite Hc, Nat2Z.id, drop_app_length.
Qed.

Lemma block_at_frame text h pre c block post :
  closed h = false -> content h = pre ++ block_frame c block ++ post ->
  decompress c = Returns block ->
  len c + 25 <= 65535 -> len block <= 4294967295 ->
  block_at text h (len pre) = Some (len c + 26, block).
Proof.
  intros Hc Hcont Hd Hlc Hlb. unfold block_at.
  pose proof (len_nonneg pre).
  destruct (decode_frame text (set_position (len pre) h) c block post)
    as [-> _]; try done.
  by eapply rest_at.
Qed.

Lemma block_at_end text h :
  closed h = false -> block_at text h (len (content h)) = Some (0, []).
Proof.
  intros Hc. unfold block_at. pose proof (len_nonneg (content h)).
  rewrite decode_eof; [done|done|done|].
  apply (rest_at (content h) []); [by rewrite app_nil_r|done].
Qed.

(** The blocks of a stream that a writer wrote, as a reader finds
    them. *)
Lemma entries_at_encoded text h level pre bs :
  closed h = false ->
  content h = pre ++ encode_blocks level bs ++ _bgzf_eof ->
  Forall (fits level) bs -> Forall (fun b => len b <= 65536) bs ->
  entries_at text h (len pre)
    (map (fun b => (len (deflated level b) + 26, b)) bs ++ [(28, [])]).
Proof.
  intros Hc. revert pre.
  induction bs as [|b bs IH]; intros pre Hcont Hfit Hlen.
  - cbn [map app entries_at]. split; [lia|]. split.
    + apply (block_at_frame text h pre [x03; x00] [] []); try done.
      * by rewrite app_nil_r, <- bgzf_eof_frame.
      * apply decompress_empty_fixed.
    + replace (len pre + 28) with (len (content h)).
      * by apply block_at_end.
      * rewrite Hcont, len_app. done.
  - apply Forall_cons in Hfit as [Hb Hfit].
    apply Forall_cons in Hlen as [Hlb Hlen].
    apply fits_decompress in Hb as [Hd Hlc].
    pose proof (len_nonneg (deflated level b)).
    cbn [map app entries_at]. split; [lia|]. split.
    + apply (block_at_frame text h pre _ b
               (encode_blocks level bs ++ _bgzf_eof)); try done; [|lia].
      rewrite Hcont. unfold encode_blocks. cbn [map concat].
      by rewrite <- app_assoc.
    + replace (len pre + (len (deflated level b) + 26))
        with (len (pre ++ encode_block level b)).
      * apply IH; [|done|done]. rewrite Hcont.
        unfold encode_blocks. cbn [map concat].
        by rewrite <- !app_assoc.
      * rewrite len_app. unfold encode_block.
        by rewrite len_block_frame.
Qed.

Lemma tidy_encoded level bs :
  Forall (fun x => x <> []) bs ->
  tidy (map (fun b => (len (deflated level b) + 26, b)) bs ++ [(28, [])]).
Proof.
  induction 1 as [|b bs Hb _ IH]; cbn [map app tidy]; [done|].
  split; [done|exact IH].
Qed.

(** [__init__] on a file whose blocks decode: the reader holds the
    first block and is in front of the others. *)
Lemma init_reader_at fs name c m max_cache raw0 d0 es :
  fs !! name = Some c -> 1 <= max_cache ->
  Str.contains "w" (Str.lower m) || Str.contains "a" (Str.lower m)
  = false ->
  entries_at (negb (Str.contains "b" (Str.lower m)))
    {| content := c; position := 0; closed := false; mode := "rb" |} 0
    ((raw0, d0) :: es) ->
  tidy es ->
  exists r,
    BgzfReader.__init__ fs (Some name) (Some m) None max_cache = Returns r
    /\ reader_at r es
    /\ upcoming r es = d0 ++ concat (map snd es).
Proof.
  intros Hfs Hmc Hm (Hraw0 & Hb & Hes) Htidy.
  unfold BgzfReader.__init__.
  replace (max_cache <? 1) with false by lia. rewrite Hm.
  unfold File.open_rb. rewrite Hfs.
  set (h := {| content := c; position := 0;
               closed := false; mode := "rb" |}) in *.
  set (self := {| BgzfReader._text := _; BgzfReader._handle := h |}).
  assert (BgzfReader.on_handle File.tell self = Ok 0 self) as Htell
    by (by apply (reader_tell_handle self)).
  rewrite (run_bind _ _ _ _ _ Htell).
  pose proof (load_block_miss self 0) as Hl.
  assert (match block_at (BgzfReader._text self)
                  (BgzfReader._handle self) 0 with
          | Some (raw, buf) =>
              exists r', BgzfReader._load_block (Some 0) self = Ok tt r'
                         /\ loaded_block self r' 0 raw buf
          | None =>
              exists e r', BgzfReader._load_block (Some 0) self = Raise e r'
          end) as Hl'.
  { apply Hl; try done. subst self. rsimpl. by destruct (negb _). }
  subst self. rsimpl. rewrite Hb in Hl'.
  destruct Hl' as (r & -> & Hld).
  destruct Hld as (Hinv & Hf & Htx & _ & Hs & Hr & Hbuf & Hw).
  rsimpl. exists r. split; [done|]. split.
  - split; [done|]. split; [|done].
    rewrite (next_start_loaded _ _ _ Hs Hr), Htx.
    by eapply entries_at_same_file.
  - unfold upcoming, slice_from. rewrite Hbuf, Hw.
    by change (Z.to_nat 0) with 0%nat.
Qed.

End ReadBack.

Section WriterOutput.

Context {zlib : Zlib} {laws : ZlibLaws zlib}.

(** What writing and closing leave in the sink. *)
Lemma writer_output w datas :
  at_end (BgzfWriter._handle w) -> BgzfWriter._buffer w = [] ->
  Forall (fits (BgzfWriter.compresslevel w)) (blocks_of (concat datas)) ->
  exists w',
    (BgzfWriter.write_all datas;; BgzfWriter.close) w = Ok tt w'
    /\ content (BgzfWriter._handle w')
       = content (BgzfWriter._handle w)
         ++ encode_blocks (BgzfWriter.compresslevel w)
              (blocks_of (concat datas))
         ++ _bgzf_eof.
Proof.
  intros Hend Hbuf Hfit.
  set (B := concat datas) in *.
  pose proof Hfit as Hfit'. unfold blocks_of in Hfit'.
  apply Forall_app in Hfit' as [Hfull Hlast].
  assert (BgzfWriter._buffer w ++ concat datas = B) as HB
    by (by rewrite Hbuf).
  pose proof (write_all_run datas w Hend ltac:(by rewrite Hbuf)) as Hw.
  cbv zeta in Hw. rewrite HB in Hw. specialize (Hw Hfull).
  set (w1 := BgzfWriter.set_buffer _ _) in Hw.
  assert (at_end (BgzfWriter._handle w1)) as Hend1
    by (by apply append_at_end).
  pose proof (close_run w1 Hend1 (remainder_small _ _ (le_n _)) Hlast)
    as Hc.
  eexists. split; [by rewrite (run_bind _ _ _ _ _ Hw)|].
  subst w1. wsimpl.
  cbn [content set_closed append set_position set_content].
  unfold blocks_of, encode_blocks.
  by rewrite map_app, concat_app, <- !app_assoc.
Qed.

End WriterOutput.

(** X14: a reader gets back what a writer wrote.  Data written to a new
    file by a writer, in any number of calls, and closed, with blocks
    that fit, make a file on which [BgzfReader] opens; the reader is then
    in front of exactly the data written, so that by X10 to X13 its
    reads return them piece by piece and a loop over it returns their
    lines. *)
Theorem reader_reads_back {zlib : Zlib} {laws : ZlibLaws zlib}
    (fs : gmap string bytes) (name : string) (level max_cache : Z)
    (datas : list bytes) (w : BgzfWriter.t) :
  BgzfWriter.__init__ fs (Some name) (Some "wb"%string) None level
  = Returns w ->
  Forall (fits level) (blocks_of (concat datas)) ->
  1 <= max_cache ->
  exists w' r es,
    (BgzfWriter.write_all datas;; BgzfWriter.close) w = Ok tt w'
    /\ BgzfReader.__init__
         (<[name := content (BgzfWriter._handle w')]> fs)
         (Some name) (Some "rb"%string) None max_cache = Returns r
    /\ reader_at r es
    /\ upcoming r es = concat datas
    /\ forall size,
         0 < size ->
         exists r', BgzfReader.read size r
                    = Ok (take (Z.to_nat size) (concat datas)) r'.
Proof.
  intros Hinit Hfit Hmc.
  assert (w = {| BgzfWriter._text := false;
                 BgzfWriter._handle :=
                   {| content := []; position := 0;
                      closed := false; mode := "wb" |};
                 BgzfWriter._buffer := [];
                 BgzfWriter.compresslevel := level |}) as ->
    by (by injection Hinit as <-).
  match goal with
  | |- context [_ ?w0 = Ok tt _] =>
      destruct (writer_output w0 datas (conj eq_refl eq_refl) eq_refl Hfit)
        as (w' & Hrun & Hcont)
  end.
  cbn [content BgzfWriter._handle BgzfWriter.compresslevel app] in Hcont.
  set (bs := blocks_of (concat datas)) in *.
  set (E := map (fun b => (len (deflated level b) + 26, b)) bs
            ++ [(28, [])]).
  assert (exists raw0 d0 es, E = (raw0, d0) :: es) as (raw0 & d0 & es & HE).
  { subst E. destruct bs as [|b bs']; cbn [map app]; by eexists _, _, _. }
  assert (tidy E) as Htidy by apply tidy_encoded, blocks_of_nonempty.
  destruct (init_reader_at
              (<[name := content (BgzfWriter._handle w')]> fs) name
              (content (BgzfWriter._handle w')) "rb" max_cache raw0 d0 es)
    as (r & Hr & Hat & Hup).
  - by rewrite lookup_insert_eq.
  - done.
  - reflexivity.
  - rewrite <- HE.
    apply (entries_at_encoded _ _ level []); [done| |done|].
    + by rewrite Hcont.
    + apply blocks_of_len.
  - rewrite HE in Htidy. by eapply tidy_tail.
  - assert (upcoming r es = concat datas) as Hdata.
    { rewrite Hup.
      change (d0 ++ concat (map snd es))
        with (concat (map snd ((raw0, d0) :: es))).
      rewrite <- HE. subst E. rewrite map_app, map_map. cbn [snd map].
      rewrite map_id, concat_app. cbn [concat]. rewrite !app_nil_r.
      apply blocks_of_concat. }
    exists w', r, es. split; [done|]. split; [done|]. split; [done|].
    split; [done|]. intros size Hs.
    destruct (read_rec_delivers (Z.to_nat size) size r es Hat Hs)
      as (r' & es' & Hread & _); [left; lia|].
    exists r'. by rewrite <- Hdata.
Qed.

(** The two pieces of the example written to a new file and read back
    through a cache of one block. *)
Lemma reader_reads_back_witness :
  exists w' r es,
    (@BgzfWriter.write_all StoredZlib.zlib [abcd; efgh];;
     @BgzfWriter.close StoredZlib.zlib) writer0 = Ok tt w'
    /\ @BgzfReader.__init__ StoredZlib.zlib
         (<["out.bgz"%string := content (BgzfWriter._handle w')]> fs0)
         (Some "out.bgz"%string) (Some "rb"%string) None 1 = Returns r
    /\ @reader_at StoredZlib.zlib r es
    /\ upcoming r es = concat [abcd; efgh]
    /\ forall size,
         0 < size ->
         exists r', @BgzfReader.read StoredZlib.zlib size r
                    = Ok (take (Z.to_nat size) (concat [abcd; efgh])) r'.
Proof.
  apply (@reader_reads_back StoredZlib.zlib stored_zlib_laws fs0
           "out.bgz" 0 1 [abcd; efgh] writer0).
  - reflexivity.
  - change (blocks_of (concat [abcd; efgh])) with [abcd ++ efgh].
    constructor; [|constructor].
    eexists. split; [reflexivity|]. vm_compute. discriminate.
  - lia.
Defined.

(** ** Seeking to a virtual offset *)

Section SeekTo.

Context {zlib : Zlib}.
Import BgzfReader.

Lemma virtual_offset_parts k w :
  0 <= w < 65536 ->
  Z.shiftr (Z.lor (Z.shiftl k 16) w) 16 = k
  /\ Z.lxor (Z.lor (Z.shiftl k 16) w)
            (Z.shiftl (Z.shiftr (Z.lor (Z.shiftl k 16) w) 16) 16) = w.
Proof.
  intros Hw. rewrite lxor_shiftr_shiftl16, lor_shiftl16 by done.
  rewrite Z.shiftr_div_pow2 by lia. change (2 ^ 16) with 65536.
  split; Z.div_mod_to_equations; lia.
Qed.

Lemma seek_to_block r k w raw buf :
  reader_inv r -> 0 <= k -> 0 <= w < 65536 ->
  block_at (_text r) (_handle r) k = Some (raw, buf) ->
  w < len buf \/ (w = 0 /\ buf = []) ->
  exists r',
    seek (Z.lor (Z.shiftl k 16) w) r = Ok (Z.lor (Z.shiftl k 16) w) r'
    /\ reader_inv r' /\ same_reader r r'
    /\ _block_start_offset r' = Some k
    /\ _block_raw_length r' = Some raw
    /\ _buffer r' = buf /\ _within_block_offset r' = w.
Proof.
  intros Hinv Hk Hw Hb Hin.
  destruct (virtual_offset_parts k w Hw) as [Hstart Hwithin].
  unfold seek. cbv zeta. rewrite Hwithin, Hstart. rewrite run_get.
  assert (exists r1,
            (if negb (bool_decide (Some k = _block_start_offset r)) then
               _load_block (Some k);;
               r0 ← get;
               assert_ (bool_decide (Some k = _block_start_offset r0))
             else ret tt) r = Ok tt r1
            /\ reader_inv r1 /\ same_reader r r1
            /\ _block_start_offset r1 = Some k
            /\ _block_raw_length r1 = Some raw /\ _buffer r1 = buf)
    as (r1 & Hfirst & Hinv1 & Hsame & Hs1 & Hr1 & Hb1).
  { case_bool_decide as Hcur; cbn [negb].
    - exists r. split; [done|]. split; [done|].
      split; [apply same_reader_refl|].
      destruct (inv_block r Hinv) as (a & rawa & Ha & Hra & _ & Hba).
      rewrite Ha in Hcur. injection Hcur as <-.
      rewrite Hb in Hba. injection Hba as -> ->. done.
    - pose proof (load_block_total r k Hinv) as Ht.
      rewrite bool_decide_eq_true_2, Hb in Ht by done.
      destruct Ht as (r1 & Hload & Hl). exists r1.
      pose proof Hl as (Hinv1 & Hf & Htx & Hmc & Hs1 & Hr1 & Hb1 & _).
      split; [|split; [done|]; split; [by split|done]].
      rewrite (run_bind _ _ _ _ _ Hload), run_get.
      by rewrite bool_decide_eq_true_2. }
  rewrite (run_bind _ _ _ _ _ Hfirst), run_get, Hb1.
  pose proof (len_nonneg buf).
  replace ((w >=? len buf) && negb ((w =? 0) && (len buf =? 0)))
    with false.
  2: { destruct Hin as [Hlt|[-> ->]]; [|done].
       replace (w >=? len buf) with false by lia. done. }
  rewrite run_modify. eexists. split; [done|].
  split; [|split; [by destruct Hsame as (? & ? & ?)|by rsimpl]].
  apply reader_inv_set_within; [done|]. rewrite Hb1.
  destruct Hin as [Hlt|[-> ->]]; [lia|done].
Qed.

End SeekTo.

Section SeekProperties.

Context {zlib : Zlib}.
Import BgzfReader.

Lemma make_virtual_offset_inv k w v :
  make_virtual_offset k w = Returns v ->
  0 <= k /\ 0 <= w < 65536 /\ v = Z.lor (Z.shiftl k 16) w.
Proof.
  unfold make_virtual_offset. intros H.
  destruct ((w <? 0) || (w >=? 65536)) eqn:E1; [done|].
  destruct ((k <? 0) || (k >=? 281474976710656)) eqn:E2; [done|].
  injection H as <-. apply orb_false_elim in E1 as [? ?].
  apply orb_false_elim in E2 as [? ?]. lia.
Qed.

Lemma tell_within r k :
  _block_start_offset r = Some k ->
  _within_block_offset r < len (_buffer r)
  \/ _within_block_offset r = 0 ->
  tell r = Ok (Z.lor (Z.shiftl k 16) (_within_block_offset r)) r.
Proof.
  intros Hs Hw. unfold tell. rewrite run_get, Hs.
  replace (_ && _) with false; [done|].
  destruct Hw as [Hw| ->]; [|done].
  replace (_ =? _) with false by lia. by rewrite andb_false_r.
Qed.

Lemma seek_in_front r k w raw buf es :
  reader_inv r -> 0 <= k -> 0 <= w < 65536 ->
  block_at (_text r) (_handle r) k = Some (raw, buf) ->
  w < len buf \/ (w = 0 /\ buf = []) ->
  entries_at (_text r) (_handle r) (k + raw) es -> tidy es ->
  exists r',
    seek (Z.lor (Z.shiftl k 16) w) r = Ok (Z.lor (Z.shiftl k 16) w) r'
    /\ tell r' = Ok (Z.lor (Z.shiftl k 16) w) r'
    /\ reader_at r' es /\ same_reader r r'
    /\ upcoming r' es = slice_from buf w ++ concat (map snd es).
Proof.
  intros Hinv Hk Hw Hb Hin Hes Htidy.
  destruct (seek_to_block r k w raw buf Hinv Hk Hw Hb Hin)
    as (r' & Hseek & Hinv' & Hsame & Hs' & Hr' & Hb' & Hw').
  exists r'. split; [done|]. split.
  { rewrite <- Hw'. apply tell_within; [done|].
    rewrite Hw', Hb'. destruct Hin as [?|[? _]]; [by left|by right]. }
  split; [|split; [done|]].
  - split; [done|]. split; [|done].
    rewrite (next_start_loaded _ _ _ Hs' Hr').
    destruct Hsame as (Hf & -> & _). by eapply entries_at_same_file.
  - unfold upcoming. by rewrite Hb', Hw'.
Qed.

End SeekProperties.

(** X15: random access.  [seek] to the virtual offset made of the start
    [k] of a block and an offset [w] within its data puts the reader at
    byte [w] of that block, whatever it held before: [tell] then returns
    the same virtual offset and what is left to read are the data of the
    block from [w] on, then those of the blocks that follow. *)
Theorem seek_random_access {zlib : Zlib} (r : BgzfReader.t) (k w v raw : Z)
    (buf : bytes) (es : list (Z * bytes)) :
  reader_inv r ->
  make_virtual_offset k w = Returns v ->
  block_at (BgzfReader._text r) (BgzfReader._handle r) k = Some (raw, buf) ->
  w < len buf ->
  entries_at (BgzfReader._text r) (BgzfReader._handle r) (k + raw) es ->
  tidy es ->
  exists r',
    BgzfReader.seek v r = Ok v r'
    /\ BgzfReader.tell r' = Ok v r'
    /\ reader_at r' es
    /\ upcoming r' es = slice_from buf w ++ concat (map snd es).
Proof.
  intros Hinv (Hk & Hw & ->)%make_virtual_offset_inv Hb Hlt Hes Htidy.
  destruct (seek_in_front r k w raw buf es) as (r' & ? & ? & ? & _ & ?);
    try done; [by left|].
  by exists r'.
Qed.

(** From the start of the example to the third byte of its second
    block. *)
Lemma seek_random_access_witness :
  exists r',
    @BgzfReader.seek StoredZlib.zlib 2359298 reader_lines = Ok 2359298 r'
    /\ BgzfReader.tell r' = Ok 2359298 r'
    /\ @reader_at StoredZlib.zlib r' [(28, [])]
    /\ upcoming r' [(28, [])] = slice_from efgh 2 ++ concat (map snd [(28, [])]).
Proof.
  apply (@seek_random_access StoredZlib.zlib reader_lines 36 2 2359298 37
           efgh [(28, [])]).
  - apply reader_lines_at.
  - reflexivity.
  - vm_compute. reflexivity.
  - vm_compute. reflexivity.
  - cbn [entries_at]. repeat split; vm_compute; reflexivity.
  - cbn [tidy]. by repeat split.
Defined.

(** X16: an offset that [tell] returned can be given to [seek] later.  On
    a reader in front of blocks that decode, with a buffer of at most
    65536 bytes, [tell] returns an offset with which [seek], on the reader
    in whatever state it is by then, returns to the same place: the same
    data are left to read, and [tell] returns the same offset again. *)
Theorem tell_then_seek {zlib : Zlib} (r r2 : BgzfReader.t)
    (es : list (Z * bytes)) :
  reader_at r es ->
  len (BgzfReader._buffer r) <= 65536 ->
  reader_inv r2 -> same_reader r r2 ->
  exists v r' es',
    BgzfReader.tell r = Ok v r
    /\ BgzfReader.seek v r2 = Ok v r'
    /\ reader_at r' es'
    /\ upcoming r' es' = upcoming r es
    /\ BgzfReader.tell r' = Ok v r'.
Proof.
  intros (Hinv & Hes & Htidy) Hlen Hinv2 (Hf & Htx & Hmc).
  destruct (reader_inv_next r Hinv)
    as (a & raw & Ha & Hraw & Ha0 & Hraw0 & Hn & _).
  destruct (inv_block r Hinv) as (a' & raw' & Ha' & Hraw' & _ & Hb).
  rewrite Ha in Ha'. rewrite Hraw in Hraw'.
  injection Ha' as <-. injection Hraw' as <-.
  pose proof (inv_within r Hinv) as Hw. rewrite Hn in Hes.
  rewrite <- Htx in Hes, Hb.
  apply (entries_at_same_file _ _ _ _ _ Hf) in Hes.
  rewrite <- (block_at_same_file _ _ _ _ Hf) in Hb.
  destruct (decide (0 < BgzfReader._within_block_offset r
                    /\ BgzfReader._within_block_offset r
                       = len (BgzfReader._buffer r))) as [[Hpos Hend]|Hnot].
  - set (d := default [] (snd <$> head es)).
    set (raw1 := default 0 (fst <$> head es)).
    assert (block_at (BgzfReader._text r2) (BgzfReader._handle r2) (a + raw)
            = Some (raw1, d)
            /\ entries_at (BgzfReader._text r2) (BgzfReader._handle r2)
                 (a + raw + raw1) (tail es)
            /\ tidy (tail es)
            /\ concat (map snd es) = d ++ concat (map snd (tail es)))
      as (Hb1 & Hes1 & Ht1 & Hcat).
    { subst d raw1. destruct es as [|[raw1 d1] es']; cbn in *.
      - by rewrite Z.add_0_r.
      - destruct Hes as (_ & ? & ?). destruct Htidy as [_ ?]. done. }
    destruct (seek_in_front r2 (a + raw) 0 raw1 d (tail es))
      as (r' & Hseek & Htell & Hat & _ & Hup); try done; [lia| |].
    { destruct d; [by right|left]. unfold len. cbn [length]. lia. }
    rewrite Z.lor_0_r in Hseek, Htell.
    exists (Z.shiftl (a + raw) 16), r', (tail es).
    split; [|split; [done|split; [done|split; [|done]]]].
    + unfold BgzfReader.tell. rewrite run_get, Ha, Hraw.
      replace (0 <? _) with true by lia.
      by replace (_ =? _) with true by lia.
    + rewrite Hup. unfold upcoming, slice_from.
      rewrite Hend. unfold len. rewrite Nat2Z.id, drop_all, drop_0. done.
  - destruct (seek_in_front r2 a (BgzfReader._within_block_offset r) raw
                (BgzfReader._buffer r) es)
      as (r' & Hseek & Htell & Hat & _ & Hup); try done; [lia| |].
    { destruct (decide (BgzfReader._within_block_offset r = 0)) as [H0|H0];
        [|left; lia].
      destruct (BgzfReader._buffer r) as [|x b]; [by right|left].
      unfold len. cbn [length]. lia. }
    eexists _, r', es. split; [|done].
    apply tell_within; [done|]. lia.
Qed.

(** The reader of the example after [read(7)] is still a reader of the
    same file. *)
Lemma reader_lines_later_inv :
  @reader_inv StoredZlib.zlib reader_lines_later
  /\ same_reader reader_lines reader_lines_later.
Proof.
  apply (@read_rec_inv StoredZlib.zlib (Z.to_nat 7) 7 reader_lines
           (abcd ++ take 2 efgh)).
  - apply reader_lines_at.
  - vm_compute. reflexivity.
Qed.

(** The offset of the start of the example, told at the start and sought
    after seven bytes were read. *)
Lemma tell_then_seek_witness :
  exists v r' es',
    BgzfReader.tell reader_lines = Ok v reader_lines
    /\ @BgzfReader.seek StoredZlib.zlib v reader_lines_later = Ok v r'
    /\ @reader_at StoredZlib.zlib r' es'
    /\ upcoming r' es' = upcoming reader_lines [(37, efgh); (28, [])]
    /\ BgzfReader.tell r' = Ok v r'.
Proof.
  apply (@tell_then_seek StoredZlib.zlib reader_lines reader_lines_later
           [(37, efgh); (28, [])]).
  - apply reader_lines_at.
  - unfold len. simpl. lia.
  - apply reader_lines_later_inv.
  - apply reader_lines_later_inv.
Defined.

(** ** The module's [open] *)

Section OpenModes.

Context {zlib : Zlib}.




End OpenModes.



(** ** The command-line driver *)

Section Pieces.

Lemma pieces_concat fuel (b : bytes) :
  (length b <= fuel)%nat -> concat (pieces fuel b) = b.
Proof.
  revert b. induction fuel as [|fuel IH]; intros b Hf; cbn [pieces];
    case_bool_decide as Hb; try (by subst); cbn [concat].
  - by rewrite app_nil_r.
  - rewrite IH.
    + unfold slice, slice_from. change (Z.to_nat 0) with 0%nat.
      rewrite drop_0, Nat.sub_0_r. apply take_drop.
    + unfold slice_from. rewrite length_drop. lia.
Qed.

Lemma read_piece h :
  closed h = false ->
  File.read 65536 h
  = Ok (slice (rest h) 0 65536)
       (set_position (position h + len (slice (rest h) 0 65536)) h).
Proof.
  intros Hc. unfold File.read, rest, slice. rewrite Hc.
  change (65536 <? 0) with false. cbv iota.
  change (Z.to_nat 0) with 0%nat. by rewrite drop_0, Nat.sub_0_r.
Qed.

Lemma rest_after_piece h :
  0 <= position h ->
  rest (set_position (position h + len (slice (rest h) 0 65536)) h)
  = slice_from (rest h) 65536.
Proof.
  intros Hp. unfold rest, slice, slice_from, len.
  cbn [position content set_position].
  change (Z.to_nat 0) with 0%nat. rewrite drop_0, Nat.sub_0_r.
  rewrite drop_drop. rewrite length_take, length_drop.
  destruct (decide (Z.to_nat 65536
                    <= length (content h) - Z.to_nat (position h))%nat).
  - f_equal. lia.
  - rewrite !drop_ge; [done| |]; lia.
Qed.

End Pieces.

Section Driver.

Context {zlib : Zlib} {laws : ZlibLaws zlib}.
Import Main.

Lemma copy_loop_run fuel s w' :
  closed (r_stdin s) = false -> 0 <= position (r_stdin s) ->
  (length (rest (r_stdin s)) <= fuel)%nat ->
  BgzfWriter.write_all (pieces fuel (rest (r_stdin s))) (writer s)
  = Ok tt w' ->
  exists h',
    copy_loop fuel s
    = Ok tt {| r_stdin := h'; r_stderr := r_stderr s; writer := w' |}
    /\ same_file (r_stdin s) h' /\ rest h' = [].
Proof.
  revert s. induction fuel as [|fuel IH]; intros s Hc Hp Hf Hw;
    cbn [copy_loop pieces] in *;
    (assert (on_r_stdin (File.read 65536) s
             = Ok (slice (rest (r_stdin s)) 0 65536)
                  {| r_stdin :=
                       set_position
                         (position (r_stdin s)
                          + len (slice (rest (r_stdin s)) 0 65536))
                         (r_stdin s);
                     r_stderr := r_stderr s; writer := writer s |})
       as Hread by (unfold on_r_stdin; by rewrite read_piece));
    rewrite (run_bind _ _ _ _ _ Hread);
    pose proof (rest_after_piece (r_stdin s) Hp) as Hrest;
    set (h1 := set_position _ (r_stdin s)) in *;
    case_bool_decide as Hb.
  1,3: rewrite Hb in *; change (slice [] 0 65536) with (@nil byte) in *;
       cbn [BgzfWriter.write_all] in Hw;
       apply bind_ok_inv in Hw as ([] & w1 & Hw1 & [= <-]);
       (assert (on_writer (BgzfWriter.write []) 
                  {| r_stdin := h1; r_stderr := r_stderr s;
                     writer := writer s |}
                = Ok tt {| r_stdin := h1; r_stderr := r_stderr s;
                           writer := w1 |}) as Hwr
          by (unfold on_writer; cbn [writer r_stdin r_stderr];
              by rewrite Hw1));
       rewrite (run_bind _ _ _ _ _ Hwr);
       rewrite bool_decide_eq_true_2 by done;
       exists h1; split; [done|];
       split; [apply same_file_set_position|];
       by rewrite Hrest.
  - exfalso. destruct (rest (r_stdin s)); [done|]. cbn in Hf. lia.
  - cbn [BgzfWriter.write_all] in Hw.
    apply bind_ok_inv in Hw as ([] & w1 & Hw1 & Hw).
    assert (on_writer (BgzfWriter.write (slice (rest (r_stdin s)) 0 65536))
              {| r_stdin := h1; r_stderr := r_stderr s;
                 writer := writer s |}
            = Ok tt {| r_stdin := h1; r_stderr := r_stderr s;
                       writer := w1 |}) as Hwr
      by (unfold on_writer; cbn [writer r_stdin r_stderr];
          by rewrite Hw1).
    rewrite (run_bind _ _ _ _ _ Hwr).
    rewrite bool_decide_eq_false_2.
    2: { destruct (rest (r_stdin s)) as [|x l]; [done|].
         unfold slice. change (Z.to_nat 0) with 0%nat.
         rewrite drop_0, Nat.sub_0_r.
         replace (Z.to_nat 65536) with (S (Z.to_nat 65535)) by lia.
         done. }
    destruct (IH {| r_stdin := h1; r_stderr := r_stderr s;
                    writer := w1 |}) as (h' & Hloop & Hsf & Hr);
      cbn [r_stdin r_stderr writer]; try done.
    + subst h1. cbn [position set_position].
      pose proof (len_nonneg (slice (rest (r_stdin s)) 0 65536)). lia.
    + rewrite Hrest. unfold slice_from. rewrite length_drop.
      destruct (rest (r_stdin s)); [done|]. cbn [length] in *. lia.
    + by rewrite Hrest.
    + exists h'. split; [done|]. split; [|done].
      eapply same_file_trans; [|exact Hsf].
      apply same_file_set_position.
Qed.

End Driver.

Section DriverRun.

Context {zlib : Zlib} {laws : ZlibLaws zlib}.
Import Main.

(** A reader on a file made of the blocks of [B] and the EOF block. *)
Lemma reader_on_encoded fs name level max_cache (B : bytes) :
  fs !! name = Some (encode_blocks level (blocks_of B) ++ _bgzf_eof) ->
  Forall (fits level) (blocks_of B) -> 1 <= max_cache ->
  exists r es,
    BgzfReader.__init__ fs (Some name) (Some "rb"%string) None max_cache
    = Returns r
    /\ reader_at r es /\ upcoming r es = B.
Proof.
  intros Hfs Hfit Hmc.
  set (bs := blocks_of B) in *.
  set (E := map (fun b => (len (deflated level b) + 26, b)) bs
            ++ [(28, [])]).
  assert (exists raw0 d0 es, E = (raw0, d0) :: es) as (raw0 & d0 & es & HE).
  { subst E. destruct bs as [|b bs']; cbn [map app]; by eexists _, _, _. }
  assert (tidy E) as Htidy by apply tidy_encoded, blocks_of_nonempty.
  destruct (init_reader_at fs name _ "rb" max_cache raw0 d0 es Hfs Hmc)
    as (r & Hr & Hat & Hup).
  - reflexivity.
  - rewrite <- HE.
    apply (entries_at_encoded _ _ level []); [done|done|done|].
    apply blocks_of_len.
  - rewrite HE in Htidy. by eapply tidy_tail.
  - exists r, es. split; [done|]. split; [done|]. rewrite Hup.
    change (d0 ++ concat (map snd es))
      with (concat (map snd ((raw0, d0) :: es))).
    rewrite <- HE. subst E. rewrite map_app, map_map. cbn [snd map].
    rewrite map_id, concat_app. cbn [concat]. rewrite !app_nil_r.
    apply blocks_of_concat.
Qed.

Lemma write_open data h :
  closed h = false ->
  exists h', File.write data h = Ok tt h' /\ closed h' = false.
Proof. intros Hc. unfold File.write. rewrite Hc. by eexists. Qed.

Lemma print_run s p :
  closed (stdout p) = false ->
  exists h',
    print s p = Ok tt {| stdin := stdin p; stdout := h';
                         stderr := stderr p |}
    /\ closed h' = false.
Proof.
  intros Hc. unfold print, on_stdout.
  destruct (write_open (String.list_byte_of_string s ++ [x0a])
              (stdout p) Hc) as (h' & -> & Hc').
  by exists h'.
Qed.

(** With an argument the driver prints how it is used and stops. *)
Lemma main_usage argv p :
  1 < len argv -> closed (stdout p) = false ->
  exists h',
    main argv p = Ok 0 {| stdin := stdin p; stdout := h';
                          stderr := stderr p |}.
Proof.
  intros Ha Hc. unfold main. replace (1 <? len argv) with true by lia.
  repeat
    (lazymatch goal with
     | |- context [(print ?s ≫= _) ?q] =>
         let h := fresh "h" in
         let Hp := fresh "Hp" in
         let Hc' := fresh "Hc" in
         destruct (print_run s q ltac:(done)) as (h & Hp & Hc');
         rewrite (run_bind _ _ _ _ _ Hp);
         cbn [stdin stdout stderr] in *
     end).
  by eexists.
Qed.

(** Without arguments it writes the standard input to the standard
    output in blocks, then the EOF block, and closes it. *)
Lemma main_run argv p :
  len argv <= 1 ->
  closed (stdin p) = false -> 0 <= position (stdin p) ->
  at_end (stdout p) -> closed (stderr p) = false ->
  Forall (fits 6) (blocks_of (rest (stdin p))) ->
  exists p',
    main argv p = Ok 0 p'
    /\ content (stdout p')
       = content (stdout p)
         ++ encode_blocks 6 (blocks_of (rest (stdin p))) ++ _bgzf_eof
    /\ closed (stdout p') = true
    /\ same_file (stdin p) (stdin p') /\ rest (stdin p') = [].
Proof.
  intros Ha Hin Hpos Hout Herr Hfit. unfold main.
  replace (1 <? len argv) with false by lia.
  destruct (write_open
              (String.list_byte_of_string
                 "Producing BGZF output from stdin..." ++ [x0a])
              (stderr p) Herr) as (e1 & He1 & Hce1).
  unfold on_stderr at 1. rewrite He1. cbn [stdin stdout stderr].
  set (w0 := {| BgzfWriter._text := true;
                BgzfWriter._handle := stdout p;
                BgzfWriter._buffer := [];
                BgzfWriter.compresslevel := 6 |}).
  change (BgzfWriter.__init__ ∅ None (Some "w"%string)
            (Some (stdout p)) 6) with (Returns w0).
  set (B := rest (stdin p)) in *.
  set (fuel := S (length (content (stdin p)))).
  assert (length B <= fuel)%nat as Hfuel
    by (subst B fuel; unfold rest; rewrite length_drop; lia).
  destruct (writer_output w0 (pieces fuel B) Hout eq_refl)
    as (w2 & Hrun & Hcont).
  { by rewrite pieces_concat. }
  rewrite pieces_concat in Hcont by done.
  apply bind_ok_inv in Hrun as ([] & w1 & Hwrite & Hclose).
  destruct (copy_loop_run fuel
              {| r_stdin := stdin p; r_stderr := e1; writer := w0 |} w1)
    as (h' & Hloop & Hsf & Hrest); try done.
  rewrite (run_bind _ _ _ _ _ Hloop).
  assert (on_writer BgzfWriter.close
            {| r_stdin := h'; r_stderr := e1; writer := w1 |}
          = Ok tt {| r_stdin := h'; r_stderr := e1; writer := w2 |})
    as Hcl by (unfold on_writer; cbn [writer]; by rewrite Hclose).
  rewrite (run_bind _ _ _ _ _ Hcl).
  destruct (write_open
              (String.list_byte_of_string "BGZF data produced" ++ [x0a])
              e1 Hce1) as (e2 & He2 & Hce2).
  unfold on_r_stderr. cbn [r_stderr r_stdin writer]. rewrite He2.
  eexists. split; [done|]. cbn [finish stdin stdout stderr r_stdin writer].
  split; [done|]. split; [|done].
  pose proof (close_ok w1 tt w2 Hclose) as _.
  revert Hclose. unfold BgzfWriter.close. rewrite run_get.
  intros (? & w3 & _ & H)%bind_ok_inv.
  apply bind_ok_inv in H as (? & w4 & _ & H).
  apply bind_ok_inv in H as (? & w5 & _ & H).
  unfold BgzfWriter.on_handle, File.close in H. by injection H as <-.
Qed.

End DriverRun.

(** X18: the command-line driver.  Run without arguments on a standard
    input whose blocks fit at level 6, it exits with status 0 having read
    the standard input to its end and added to the standard output the
    blocks of what it read and the EOF block, and closed it; when the
    output was empty before, a [BgzfReader] on it is in front of exactly
    the bytes that were on the standard input.  Run with an argument it
    exits with status 0 too, and the standard input is as it was. *)
Theorem main_compresses {zlib : Zlib} {laws : ZlibLaws zlib}
    (argv : list string) (p : Main.process) :
  closed (Main.stdin p) = false -> 0 <= position (Main.stdin p) ->
  at_end (Main.stdout p) -> closed (Main.stderr p) = false ->
  Forall (fits 6) (blocks_of (rest (Main.stdin p))) ->
  exists p',
    Main.main argv p = Ok 0 p'
    /\ same_file (Main.stdin p) (Main.stdin p')
    /\ if 1 <? len argv then Main.stdin p' = Main.stdin p
       else
         rest (Main.stdin p') = []
         /\ closed (Main.stdout p') = true
         /\ content (Main.stdout p')
            = content (Main.stdout p)
              ++ encode_blocks 6 (blocks_of (rest (Main.stdin p)))
              ++ _bgzf_eof
         /\ (content (Main.stdout p) = [] ->
             forall fs name max_cache,
               fs !! name = Some (content (Main.stdout p')) ->
               1 <= max_cache ->
               exists r es,
                 BgzfReader.__init__ fs (Some name) (Some "rb"%string) None
                   max_cache = Returns r
                 /\ reader_at r es
                 /\ upcoming r es = rest (Main.stdin p)).
Proof.
  intros Hin Hpos Hout Herr Hfit.
  destruct (1 <? len argv) eqn:Ea.
  - destruct (main_usage argv p ltac:(lia) (proj1 Hout)) as (h' & Hm).
    eexists. split; [done|]. split; [apply same_file_refl|done].
  - destruct (main_run argv p ltac:(lia) Hin Hpos Hout Herr Hfit)
      as (p' & Hm & Hcont & Hcl & Hsf & Hrest).
    exists p'. split; [done|]. split; [done|]. split; [done|].
    split; [done|]. split; [done|].
    intros Hempty fs name max_cache Hfs Hmc.
    rewrite Hcont, Hempty in Hfs. cbn [app] in Hfs.
    by apply (reader_on_encoded fs name 6).
Qed.

(** [./bgzf.py < hello.txt > out.bgz]: the output is the example file. *)
Lemma main_compresses_witness :
  exists p',
    @Main.main StoredZlib.zlib ["bgzf.py"%string] process_hello = Ok 0 p'
    /\ same_file (Main.stdin process_hello) (Main.stdin p')
    /\ rest (Main.stdin p') = []
    /\ closed (Main.stdout p') = true
    /\ content (Main.stdout p')
       = [] ++ @encode_blocks StoredZlib.zlib 6 (blocks_of hello)
         ++ _bgzf_eof
    /\ (@nil byte = [] ->
        forall fs name max_cache,
          fs !! name = Some (content (Main.stdout p')) ->
          1 <= max_cache ->
          exists r es,
            @BgzfReader.__init__ StoredZlib.zlib fs (Some name)
              (Some "rb"%string) None max_cache = Returns r
            /\ @reader_at StoredZlib.zlib r es
            /\ upcoming r es = hello).
Proof.
  apply (@main_compresses StoredZlib.zlib stored_zlib_laws
           ["bgzf.py"%string] process_hello).
  - reflexivity.
  - simpl. lia.
  - split; reflexivity.
  - reflexivity.
  - change (blocks_of (rest (Main.stdin process_hello))) with [hello].
    constructor; [|constructor].
    eexists. split; [reflexivity|]. vm_compute. discriminate.
Defined.
